(** * secure_comms: the upload server's connection handler (server.py)

    A shallow embedding of [ClientHandler] and of the part of the Python
    run time it touches, followed by the properties of the protocol handler.

    - Python [str] values are lists of Unicode code points, [bytes] values
      are lists of [byte].
    - Library calls whose result is not decided by server.py itself
      ([json.loads], [json.dumps], [base64.b64decode], the [cryptography]
      primitives, the Unicode tables behind [str.upper] and [\w]) are the
      fields of the class [PyLib]; every general statement holds for every
      instance, and [ref_lib] is a small executable instance for concrete
      evaluations.
    - The file system and the transport are explicit components of the
      handler's state; an exception that leaves a method is the [Raise]
      outcome. *)

From Stdlib Require Import List ZArith NArith Ascii String Strings.Byte Bool Lia.
From stdpp Require Import base option list gmap.
From Equations Require Import Equations.
Import ListNotations.

#[local] Set Warnings "-register-all".

Local Open Scope N_scope.

(* ===================================================================== *)
(** ** Text and bytes *)
(* ===================================================================== *)

(** A Python [str]: the sequence of its code points. *)
Abbreviation pystr := (list N).

(** A [str] literal of the source, written with a Rocq string. *)
Definition py (s : string) : pystr :=
  map N_of_ascii (list_ascii_of_string s).

(** [a == b] on two [str]. *)
Fixpoint pystr_eqb (a b : pystr) : bool :=
  match a, b with
  | [], [] => true
  | x :: a', y :: b' => (x =? y) && pystr_eqb a' b'
  | _, _ => false
  end.

Fixpoint starts_with (sub s : pystr) : bool :=
  match sub, s with
  | [], _ => true
  | _ :: _, [] => false
  | a :: sub', b :: s' => (a =? b) && starts_with sub' s'
  end.

(** [s.find(sub)]: the lowest index at which [sub] occurs, [None] for -1. *)
Fixpoint find (sub s : pystr) : option nat :=
  if starts_with sub s then Some 0%nat
  else match s with
       | [] => None
       | _ :: s' => option_map S (find sub s')
       end.

(** [sub in s] on two [str]. *)
Definition contains (sub s : pystr) : bool :=
  match find sub s with Some _ => true | None => false end.

(** [str.isspace] on one character: the code points Python strips. *)
Definition is_space (c : N) : bool :=
  ((9 <=? c) && (c <=? 13)) || ((28 <=? c) && (c <=? 32))
  || (c =? 133) || (c =? 160) || (c =? 5760)
  || ((8192 <=? c) && (c <=? 8202))
  || (c =? 8232) || (c =? 8233) || (c =? 8239) || (c =? 8287) || (c =? 12288).

Fixpoint lstrip (s : pystr) : pystr :=
  match s with
  | c :: s' => if is_space c then lstrip s' else s
  | [] => []
  end.

Definition rstrip (s : pystr) : pystr := rev (lstrip (rev s)).

(** [s.strip()] *)
Definition strip (s : pystr) : pystr := rstrip (lstrip s).

Definition byte_of (n : N) : byte :=
  match Byte.of_N n with Some b => b | None => x00 end.

Definition is_cont (b : N) : bool := (128 <=? b) && (b <=? 191).

(** [bytes.decode()]: strict UTF-8; [None] stands for UnicodeDecodeError.
    Overlong forms, surrogates, truncated sequences and stray continuation
    bytes are refused, as CPython does. *)
Fixpoint utf8_decode_N (bs : list N) : option pystr :=
  match bs with
  | [] => Some []
  | b0 :: r0 =>
    if b0 <? 128 then option_map (cons b0) (utf8_decode_N r0)
    else if (194 <=? b0) && (b0 <=? 223) then
      match r0 with
      | b1 :: r1 =>
        if is_cont b1
        then option_map (cons ((b0 - 192) * 64 + (b1 - 128))) (utf8_decode_N r1)
        else None
      | _ => None
      end
    else if (224 <=? b0) && (b0 <=? 239) then
      match r0 with
      | b1 :: b2 :: r2 =>
        if is_cont b1 && is_cont b2
           && negb ((b0 =? 224) && (b1 <? 160))
           && negb ((b0 =? 237) && (159 <? b1))
        then option_map
               (cons ((b0 - 224) * 4096 + (b1 - 128) * 64 + (b2 - 128)))
               (utf8_decode_N r2)
        else None
      | _ => None
      end
    else if (240 <=? b0) && (b0 <=? 244) then
      match r0 with
      | b1 :: b2 :: b3 :: r3 =>
        if is_cont b1 && is_cont b2 && is_cont b3
           && negb ((b0 =? 240) && (b1 <? 144))
           && negb ((b0 =? 244) && (143 <? b1))
        then option_map
               (cons ((b0 - 240) * 262144 + (b1 - 128) * 4096
                      + (b2 - 128) * 64 + (b3 - 128)))
               (utf8_decode_N r3)
        else None
      | _ => None
      end
    else None
  end.

Definition decode (data : list byte) : option pystr :=
  utf8_decode_N (map Byte.to_N data).

(** [str.encode()]: UTF-8; [None] stands for UnicodeEncodeError, raised on
    a lone surrogate. *)
Definition utf8_encode_char (c : N) : option (list byte) :=
  if c <? 128 then Some [byte_of c]
  else if c <? 2048 then
    Some [byte_of (192 + c / 64); byte_of (128 + c mod 64)]
  else if (55296 <=? c) && (c <=? 57343) then None
  else if c <? 65536 then
    Some [byte_of (224 + c / 4096); byte_of (128 + (c / 64) mod 64);
          byte_of (128 + c mod 64)]
  else if c <? 1114112 then
    Some [byte_of (240 + c / 262144); byte_of (128 + (c / 4096) mod 64);
          byte_of (128 + (c / 64) mod 64); byte_of (128 + c mod 64)]
  else None.

Fixpoint encode (s : pystr) : option (list byte) :=
  match s with
  | [] => Some []
  | c :: s' =>
    match utf8_encode_char c, encode s' with
    | Some b, Some r => Some (b ++ r)
    | _, _ => None
    end
  end.

(** The bytes of an ASCII literal such as [b'handshake data']. *)
Definition bytes_of (s : string) : list byte :=
  map byte_of_ascii (list_ascii_of_string s).

(* ===================================================================== *)
(** ** JSON values, as [json.loads] builds them *)
(* ===================================================================== *)

Inductive json : Type :=
| JNull                                   (* None *)
| JBool (b : bool)
| JInt (z : Z)
| JFloat (repr : pystr)
| JStr (s : pystr)
| JList (l : list json)
| JDict (d : list (pystr * json)).       (* keys are looked up first match *)

(** [d.get(k)] on the entries of a dict; [None] when the key is absent. *)
Fixpoint dict_get (k : pystr) (d : list (pystr * json)) : option json :=
  match d with
  | [] => None
  | (k', v) :: d' => if pystr_eqb k k' then Some v else dict_get k d'
  end.

(** [k in d] on a dict. *)
Definition dict_has (k : pystr) (d : list (pystr * json)) : bool :=
  match dict_get k d with Some _ => true | None => false end.

(** [s == v] for a [str] [s] and any value [v]. *)
Definition str_eq_json (s : pystr) (v : json) : bool :=
  match v with JStr t => pystr_eqb s t | _ => false end.

(** [s in l] for a [str] [s] and a list [l]. *)
Definition offers (s : pystr) (l : list json) : bool :=
  existsb (str_eq_json s) l.

(** [s in v] for a [str] [s]: membership in a list, substring of a str,
    key of a dict; [None] is the TypeError of a value that is no
    container. *)
Definition py_in (s : pystr) (v : json) : option bool :=
  match v with
  | JList l => Some (offers s l)
  | JStr t => Some (contains s t)
  | JDict d => Some (dict_has s d)
  | _ => None
  end.

(* ===================================================================== *)
(** ** The libraries the handler calls *)
(* ===================================================================== *)

(** Diffie-Hellman values of the [cryptography] package, by their numbers. *)
Record DHParameters := { dh_p : Z; dh_g : Z }.
Record DHPrivateKey := { priv_params : DHParameters; priv_x : Z }.
Record DHPublicKey := { pub_params : DHParameters; pub_y : Z }.

(** What server.py imports and does not define.  [None] results stand for
    the exception the call raises. *)
Class PyLib := {
  (** [json.loads(frame)] *)
  json_loads : pystr -> option json;
  (** [json.dumps(message)] *)
  json_dumps : json -> pystr;
  (** [base64.b64decode(s)] on a [str] *)
  b64decode : pystr -> option (list byte);
  (** [c.isalnum()] for a code point above 127 (the Unicode part of [\w]) *)
  uni_alnum : N -> bool;
  (** [c.upper()] for a code point above 127 *)
  uni_upper : N -> pystr;
  (** [load_pem_public_key(data, default_backend())], when the text holds
      a DH public key *)
  load_pem_public_key : list byte -> option DHPublicKey;
  (** the text loads as a public key of another kind (RSA, EC, ...) *)
  pem_other_key : list byte -> bool;
  (** [private_key.exchange(peer_public_key)] *)
  dh_exchange : DHPrivateKey -> DHPublicKey -> option (list byte);
  (** [HKDF(SHA256, length=32, salt=None, info=...).derive(shared_key)] *)
  hkdf_derive : list byte -> list byte -> option (list byte);
  (** [private_key.public_key()] *)
  dh_public_key : DHPrivateKey -> DHPublicKey;
  (** [public_key.public_bytes(Encoding.PEM, SubjectPublicKeyInfo).decode()] *)
  public_bytes_pem : DHPublicKey -> pystr
}.

Section Text.
Context `{PyLib}.

Definition upper_char (c : N) : pystr :=
  if c <? 128 then
    [if (97 <=? c) && (c <=? 122) then c - 32 else c]
  else uni_upper c.

(** [s.upper()] *)
Definition upper (s : pystr) : pystr := flat_map upper_char s.

(** One character of the class [\w] of a [str] pattern. *)
Definition is_word (c : N) : bool :=
  if c <? 128 then
    ((48 <=? c) && (c <=? 57)) || ((65 <=? c) && (c <=? 90))
    || ((97 <=? c) && (c <=? 122)) || (c =? 95)
  else uni_alnum c.

(** A character the pattern [[^\w\.]] does not match. *)
Definition kept (c : N) : bool := is_word c || (c =? 46).

(** [re.sub(r'[^\w\.]', '', s)] *)
Definition sanitize (s : pystr) : pystr := List.filter kept s.
End Text.

(* ===================================================================== *)
(** ** The file system seen by [os] and [open] *)
(* ===================================================================== *)

(** An absolute location: the names from the root down. *)
Abbreviation path := (list pystr).

(** Directories, regular files with their content, directories in which
    nothing can be created, and the bytes still free on the device. *)
Record FS := {
  fs_cwd : path;
  fs_dirs : gset path;
  fs_ro : gset path;
  fs_files : gmap path (list byte);
  fs_free : N
}.

Definition slash : N := 47.
Definition dot : pystr := [46].
Definition dotdot : pystr := [46; 46].

(** [s.split('/')] *)
Fixpoint split_slash (s : pystr) : list pystr :=
  match s with
  | [] => [[]]
  | c :: s' =>
    if c =? slash then [] :: split_slash s'
    else match split_slash s' with
         | comp :: rest => (c :: comp) :: rest
         | [] => [[c]]
         end
  end.

(** [os.path.join(a, b)] of posixpath. *)
Definition os_path_join (a b : pystr) : pystr :=
  if starts_with [slash] b then b
  else if pystr_eqb a [] || starts_with [slash] (rev a) then a ++ b
  else a ++ slash :: b.

Definition is_dir (fs : FS) (p : path) : bool :=
  bool_decide (p = []) || bool_decide (p ∈ fs_dirs fs).

Definition is_file (fs : FS) (p : path) : bool :=
  bool_decide (is_Some (fs_files fs !! p)).

(** One step of name lookup from directory [cur]. *)
Definition step_into (cur : path) (c : pystr) : path :=
  if pystr_eqb c [] || pystr_eqb c dot then cur
  else if pystr_eqb c dotdot then removelast cur
  else cur ++ [c].

(** Follow the components [comps] from [cur]; every component is looked up
    in an existing directory. *)
Fixpoint walk (fs : FS) (cur : path) (comps : list pystr) : option path :=
  match comps with
  | [] => Some cur
  | c :: rest =>
    if is_dir fs cur then walk fs (step_into cur c) rest else None
  end.

(** The limits of Linux on the bytes of one name and of a path text. *)
Definition NAME_MAX : N := 255.
Definition PATH_MAX : N := 4096.

(** The number of bytes [os.fsencode] gives a text: UTF-8, where a lone
    surrogate from [U+DC80] to [U+DCFF] stands for one byte and any other
    lone surrogate cannot be encoded. *)
Definition fs_char_len (c : N) : option N :=
  if (56448 <=? c) && (c <=? 56575) then Some 1
  else option_map (fun b => N.of_nat (length b)) (utf8_encode_char c).

Fixpoint fs_len (s : pystr) : option N :=
  match s with
  | [] => Some 0
  | c :: s' =>
    match fs_char_len c, fs_len s' with
    | Some a, Some b => Some (a + b)
    | _, _ => None
    end
  end.

Definition at_most (limit : N) (s : pystr) : bool :=
  match fs_len s with Some n => n <=? limit | None => false end.

(** A path text the system calls take: no NUL character, encodable,
    shorter than [PATH_MAX] bytes, every name of at most [NAME_MAX]
    bytes.  On any other text they raise ValueError or OSError. *)
Definition usable (p : pystr) : bool :=
  negb (existsb (N.eqb 0) p)
  && at_most (PATH_MAX - 1) p
  && forallb (at_most NAME_MAX) (split_slash p).

(** The directory that holds the last component of [p], and that
    component, by name lookup. *)
Definition lookup (fs : FS) (p : pystr) : option (path * pystr) :=
  match p with
  | [] => None
  | c :: _ =>
    let comps := split_slash p in
    let start := if c =? slash then [] else fs_cwd fs in
    match walk fs start (removelast comps) with
    | Some d => if is_dir fs d then Some (d, List.last comps []) else None
    | None => None
    end
  end.

(** What a system call makes of the path text [p]: the directory that
    holds the last component and that component; [None] when the text is
    empty or not usable, or an inner component is missing or no
    directory. *)
Definition resolve (fs : FS) (p : pystr) : option (path * pystr) :=
  if usable p then lookup fs p else None.

(** A last component that can only name a directory. *)
Definition names_dir (c : pystr) : bool :=
  pystr_eqb c [] || pystr_eqb c dot || pystr_eqb c dotdot.

(** [os.path.exists(p)] *)
Definition os_path_exists (fs : FS) (p : pystr) : bool :=
  match resolve fs p with
  | Some (d, c) => let t := step_into d c in is_dir fs t || is_file fs t
  | None => false
  end.

(** [os.mkdir(p)]; [None] stands for the exception raised. *)
Definition os_mkdir (fs : FS) (p : pystr) : option FS :=
  match resolve fs p with
  | Some (d, c) =>
    let t := d ++ [c] in
    if names_dir c || is_dir fs t || is_file fs t
       || bool_decide (d ∈ fs_ro fs)
    then None
    else Some {| fs_cwd := fs_cwd fs; fs_dirs := {[t]} ∪ fs_dirs fs;
                 fs_ro := fs_ro fs; fs_files := fs_files fs;
                 fs_free := fs_free fs |}
  | None => None
  end.

(** [open(p, "wb")]: the new file system and the location of the opened
    file, which is created empty or truncated; [None] stands for the
    exception raised. *)
Definition open_wb (fs : FS) (p : pystr) : option (FS * path) :=
  match resolve fs p with
  | Some (d, c) =>
    let t := d ++ [c] in
    if names_dir c || is_dir fs t then None
    else match fs_files fs !! t with
         | Some old =>
           Some ({| fs_cwd := fs_cwd fs; fs_dirs := fs_dirs fs;
                    fs_ro := fs_ro fs; fs_files := <[t := []]> (fs_files fs);
                    fs_free := fs_free fs + N.of_nat (length old) |}, t)
         | None =>
           if bool_decide (d ∈ fs_ro fs) then None
           else Some ({| fs_cwd := fs_cwd fs; fs_dirs := fs_dirs fs;
                         fs_ro := fs_ro fs;
                         fs_files := <[t := []]> (fs_files fs);
                         fs_free := fs_free fs |}, t)
         end
  | None => None
  end.

(** [f.write(data); f.flush()] on the file opened at [h], on a device
    that has room for [fs_free] more bytes: with room for all of [data]
    the bytes are appended; [None] stands for the OSError of a write
    without room.  How many bytes of a refused write reach the file or
    stay in the buffer of the file object is not modelled. *)
Definition file_write (fs : FS) (h : path) (data : list byte) : option FS :=
  let n := N.of_nat (length data) in
  if n <=? fs_free fs then
    Some {| fs_cwd := fs_cwd fs; fs_dirs := fs_dirs fs; fs_ro := fs_ro fs;
            fs_files := <[h := default [] (fs_files fs !! h) ++ data]>
                          (fs_files fs);
            fs_free := fs_free fs - n |}
  else None.

(** The text of an absolute location. *)
Definition render (p : path) : pystr :=
  match p with
  | [] => [slash]
  | _ => concat (map (cons slash) p)
  end.

(** [os.path.abspath(p)]: joined to the working directory and normalised
    by name only.  As [posixpath.normpath] does, a text that starts with
    exactly two slashes keeps both. *)
Definition os_path_abspath (fs : FS) (p : pystr) : pystr :=
  let start := if starts_with [slash] p then [] else fs_cwd fs in
  let text := render (fold_left step_into (split_slash p) start) in
  if starts_with [slash; slash] p && negb (starts_with [slash; slash; slash] p)
  then slash :: text
  else text.

(* ===================================================================== *)
(** ** The handler object *)
(* ===================================================================== *)

Inductive State := STATE_CONNECT | STATE_OPEN | STATE_DATA | STATE_CLOSE.

Definition State_eqb (a b : State) : bool :=
  match a, b with
  | STATE_CONNECT, STATE_CONNECT | STATE_OPEN, STATE_OPEN
  | STATE_DATA, STATE_DATA | STATE_CLOSE, STATE_CLOSE => true
  | _, _ => false
  end.

(** The calls made on [self.transport], oldest first.  [json.dumps] escapes
    every character outside ASCII, so encoding its result cannot fail:
    [Write] keeps the text whose encoding is handed to [transport.write]. *)
Inductive event := Write (text : pystr) | Close.

Inductive exn :=
| AttributeError | KeyError | TypeError | ValueError
| UnicodeEncodeError | UnicodeDecodeError.

(** The attributes of a [ClientHandler] that its methods read, with the
    transport log and the file system.  [file] holds the location of the
    open file object, [None] for Python's [None].  The attributes [signal],
    [peername] and the three lists set in [__init__] are never read by the
    methods below and are left out. *)
Record ClientHandler := {
  state : State;
  file : option path;
  file_name : option pystr;
  file_path : option pystr;
  storage_dir : pystr;
  buffer : pystr;
  key : option (list byte);
  parameters : option DHParameters;
  private_key : option DHPrivateKey;
  public_key : option DHPublicKey;
  cipher : option pystr;
  mode : option pystr;
  hash_function : option pystr;
  transport : list event;
  fs : FS
}.

Definition set_state (v : State) (s : ClientHandler) : ClientHandler :=
  {| state := v; file := file s; file_name := file_name s;
     file_path := file_path s; storage_dir := storage_dir s;
     buffer := buffer s; key := key s; parameters := parameters s;
     private_key := private_key s; public_key := public_key s;
     cipher := cipher s; mode := mode s; hash_function := hash_function s;
     transport := transport s; fs := fs s |}.

Definition set_file (v : option path) (s : ClientHandler) : ClientHandler :=
  {| state := state s; file := v; file_name := file_name s;
     file_path := file_path s; storage_dir := storage_dir s;
     buffer := buffer s; key := key s; parameters := parameters s;
     private_key := private_key s; public_key := public_key s;
     cipher := cipher s; mode := mode s; hash_function := hash_function s;
     transport := transport s; fs := fs s |}.

Definition set_file_name (v : option pystr) (s : ClientHandler)
  : ClientHandler :=
  {| state := state s; file := file s; file_name := v;
     file_path := file_path s; storage_dir := storage_dir s;
     buffer := buffer s; key := key s; parameters := parameters s;
     private_key := private_key s; public_key := public_key s;
     cipher := cipher s; mode := mode s; hash_function := hash_function s;
     transport := transport s; fs := fs s |}.

Definition set_file_path (v : option pystr) (s : ClientHandler)
  : ClientHandler :=
  {| state := state s; file := file s; file_name := file_name s;
     file_path := v; storage_dir := storage_dir s;
     buffer := buffer s; key := key s; parameters := parameters s;
     private_key := private_key s; public_key := public_key s;
     cipher := cipher s; mode := mode s; hash_function := hash_function s;
     transport := transport s; fs := fs s |}.

Definition set_buffer (v : pystr) (s : ClientHandler) : ClientHandler :=
  {| state := state s; file := file s; file_name := file_name s;
     file_path := file_path s; storage_dir := storage_dir s;
     buffer := v; key := key s; parameters := parameters s;
     private_key := private_key s; public_key := public_key s;
     cipher := cipher s; mode := mode s; hash_function := hash_function s;
     transport := transport s; fs := fs s |}.

Definition set_key (v : option (list byte)) (s : ClientHandler)
  : ClientHandler :=
  {| state := state s; file := file s; file_name := file_name s;
     file_path := file_path s; storage_dir := storage_dir s;
     buffer := buffer s; key := v; parameters := parameters s;
     private_key := private_key s; public_key := public_key s;
     cipher := cipher s; mode := mode s; hash_function := hash_function s;
     transport := transport s; fs := fs s |}.

Definition set_parameters (v : option DHParameters) (s : ClientHandler)
  : ClientHandler :=
  {| state := state s; file := file s; file_name := file_name s;
     file_path := file_path s; storage_dir := storage_dir s;
     buffer := buffer s; key := key s; parameters := v;
     private_key := private_key s; public_key := public_key s;
     cipher := cipher s; mode := mode s; hash_function := hash_function s;
     transport := transport s; fs := fs s |}.

Definition set_keypair (v : option DHPrivateKey) (w : option DHPublicKey)
  (s : ClientHandler) : ClientHandler :=
  {| state := state s; file := file s; file_name := file_name s;
     file_path := file_path s; storage_dir := storage_dir s;
     buffer := buffer s; key := key s; parameters := parameters s;
     private_key := v; public_key := w;
     cipher := cipher s; mode := mode s; hash_function := hash_function s;
     transport := transport s; fs := fs s |}.

Definition set_cipher (v : option pystr) (s : ClientHandler) : ClientHandler :=
  {| state := state s; file := file s; file_name := file_name s;
     file_path := file_path s; storage_dir := storage_dir s;
     buffer := buffer s; key := key s; parameters := parameters s;
     private_key := private_key s; public_key := public_key s;
     cipher := v; mode := mode s; hash_function := hash_function s;
     transport := transport s; fs := fs s |}.

Definition set_mode (v : option pystr) (s : ClientHandler) : ClientHandler :=
  {| state := state s; file := file s; file_name := file_name s;
     file_path := file_path s; storage_dir := storage_dir s;
     buffer := buffer s; key := key s; parameters := parameters s;
     private_key := private_key s; public_key := public_key s;
     cipher := cipher s; mode := v; hash_function := hash_function s;
     transport := transport s; fs := fs s |}.

Definition set_hash_function (v : option pystr) (s : ClientHandler)
  : ClientHandler :=
  {| state := state s; file := file s; file_name := file_name s;
     file_path := file_path s; storage_dir := storage_dir s;
     buffer := buffer s; key := key s; parameters := parameters s;
     private_key := private_key s; public_key := public_key s;
     cipher := cipher s; mode := mode s; hash_function := v;
     transport := transport s; fs := fs s |}.

Definition set_transport (v : list event) (s : ClientHandler)
  : ClientHandler :=
  {| state := state s; file := file s; file_name := file_name s;
     file_path := file_path s; storage_dir := storage_dir s;
     buffer := buffer s; key := key s; parameters := parameters s;
     private_key := private_key s; public_key := public_key s;
     cipher := cipher s; mode := mode s; hash_function := hash_function s;
     transport := v; fs := fs s |}.

Definition set_fs (v : FS) (s : ClientHandler) : ClientHandler :=
  {| state := state s; file := file s; file_name := file_name s;
     file_path := file_path s; storage_dir := storage_dir s;
     buffer := buffer s; key := key s; parameters := parameters s;
     private_key := private_key s; public_key := public_key s;
     cipher := cipher s; mode := mode s; hash_function := hash_function s;
     transport := transport s; fs := v |}.

(** [ClientHandler(signal)], with the value of the global [storage_dir] at
    that moment and the file system the process sees. *)
Definition init (storage : pystr) (disk : FS) : ClientHandler :=
  {| state := STATE_CONNECT; file := None; file_name := None;
     file_path := None; storage_dir := storage; buffer := [];
     key := None; parameters := None; private_key := None;
     public_key := None; cipher := None; mode := None;
     hash_function := None; transport := []; fs := disk |}.

(** *** Methods: a state and exception monad over the handler *)

Inductive result (A : Type) :=
| Ret (a : A) (s : ClientHandler)
| Raise (e : exn) (s : ClientHandler).
Arguments Ret {A} a s.
Arguments Raise {A} e s.

Definition M (A : Type) : Type := ClientHandler -> result A.

Definition ret {A} (a : A) : M A := fun s => Ret a s.
Definition raise {A} (e : exn) : M A := fun s => Raise e s.
Definition bind {A B} (c : M A) (k : A -> M B) : M B :=
  fun s => match c s with
           | Ret a s' => k a s'
           | Raise e s' => Raise e s'
           end.
(** Read an attribute: [self.x]. *)
Definition gets {X} (attr : ClientHandler -> X) : M X :=
  fun s => Ret (attr s) s.
Definition modify (f : ClientHandler -> ClientHandler) : M unit :=
  fun s => Ret tt (f s).
(** [try: c  except: h] *)
Definition catch {A} (c : M A) (h : M A) : M A :=
  fun s => match c s with
           | Ret a s' => Ret a s'
           | Raise _ s' => h s'
           end.

Declare Scope py_scope.
Delimit Scope py_scope with py.
Notation "x <- c ;; k" := (bind c (fun x => k))
  (at level 100, c at next level, right associativity) : py_scope.
Notation "c ;; k" := (bind c (fun _ => k))
  (at level 100, right associativity) : py_scope.
Local Open Scope py_scope.

(** The outcome's handler and, when the method returned, its value. *)
Definition final {A} (r : result A) : ClientHandler :=
  match r with Ret _ s | Raise _ s => s end.
Definition returned {A} (r : result A) : option A :=
  match r with Ret a _ => Some a | Raise _ _ => None end.

Definition CRLF : pystr := [13; 10].

(** A dict display of the source, [{k1: v1, ...}] with [str] keys. *)
Definition item (k : string) (v : json) : pystr * json := (py k, v).

Definition opt_str (v : option pystr) : json :=
  match v with Some s => JStr s | None => JNull end.

Section Methods.
Context `{PyLib}.

(** [_send(message)] *)
Definition _send (message : json) : M unit :=
  modify (fun s =>
    set_transport (transport s ++ [Write (json_dumps message ++ CRLF)]) s).

(** [self.transport.close()] *)
Definition transport_close : M unit :=
  modify (fun s => set_transport (transport s ++ [Close]) s).

(** [if self.file is not None: self.file.close(); self.file = None], for
    a file object with nothing left to flush.  Every write is followed by
    a flush, so bytes stay in the buffer of the object only after a write
    the device refused; what [close] does then is outside this model. *)
Definition close_file : M unit := modify (set_file None).

(** [diffie_hellman_init]; [fresh] is what [dh.generate_parameters]
    returns. *)
Definition diffie_hellman_init (fresh : DHParameters) : M bool :=
  modify (set_parameters (Some fresh)) ;;
  _send (JDict [item "type" (JStr (py "DH_INIT"));
                item "data" (JDict [item "p" (JInt (dh_p fresh));
                                    item "g" (JInt (dh_g fresh))])]) ;;
  ret true.

(** [diffie_hellman_gen_Y]; [x] is the exponent drawn by
    [parameters.generate_private_key]. *)
Definition diffie_hellman_gen_Y (x : Z) : M unit :=
  params <- gets parameters ;;
  match params with
  | None => raise AttributeError
  | Some params =>
    let priv := {| priv_params := params; priv_x := x |} in
    let pub := dh_public_key priv in
    modify (set_keypair (Some priv) (Some pub)) ;;
    _send (JDict [item "type" (JStr (py "DH_KEY_EXCHANGE"));
                  item "data"
                    (JDict [item "pub_key" (JStr (public_bytes_pem pub))])])
  end.

(** [connection_made(transport)]: the transport is a fresh object, and
    [fresh], [x] are the random draws of the two Diffie-Hellman steps. *)
Definition connection_made (fresh : DHParameters) (x : Z) : M unit :=
  modify (set_transport []) ;;
  modify (set_state STATE_CONNECT) ;;
  params <- gets parameters ;;
  (if params is None then diffie_hellman_init fresh ;; ret tt else ret tt) ;;
  priv <- gets private_key ;;
  if priv is None then diffie_hellman_gen_Y x else ret tt.

(** [get_key(client_pub_key_b)] *)
Definition get_key (client_pub_key_b : json) : M bool :=
  match client_pub_key_b with
  | JStr pem =>
    match encode pem with
    | None => raise UnicodeEncodeError
    | Some pem_b =>
      match load_pem_public_key pem_b with
      | None =>
        if pem_other_key pem_b then
          (* loaded; [exchange] refuses a key that is no DH key *)
          priv <- gets private_key ;;
          match priv with
          | None => raise AttributeError
          | Some _ => raise TypeError
          end
        else raise ValueError
      | Some client_pub_key =>
        priv <- gets private_key ;;
        match priv with
        | None => raise AttributeError
        | Some priv =>
          match dh_exchange priv client_pub_key with
          | None => raise ValueError
          | Some shared_key =>
            match hkdf_derive (bytes_of "handshake data") shared_key with
            | None => raise ValueError
            | Some derived_key =>
              modify (set_key (Some derived_key)) ;;
              ret true
            end
          end
        end
      end
    end
  | _ => raise AttributeError       (* no encode on this value *)
  end.

(** [name in offered], raising TypeError on a value that is no
    container. *)
Definition member (name : pystr) (offered : json) : M bool :=
  match py_in name offered with
  | Some b => ret b
  | None => raise TypeError
  end.

(** [choose_algo(ciphers, modes, hash_functions)]; each block yields
    [false] where the source returns False. *)
Definition choose_algo (ciphers modes hash_functions : json) : M bool :=
  (* choose cipher *)
  chosen <- (found <- member (py "ChaCha20") ciphers ;;
             if found then
               modify (set_cipher (Some (py "ChaCha20"))) ;; ret true
             else
               found <- member (py "AES") ciphers ;;
               if found then
                 modify (set_cipher (Some (py "AES"))) ;; ret true
               else ret false) ;;
  if negb chosen then ret false else
  (* choose mode *)
  chosen <- (found <- member (py "GCM") modes ;;
             if found then
               modify (set_mode (Some (py "GCM"))) ;; ret true
             else
               found <- member (py "CBC") modes ;;
               if found then
                 modify (set_mode (Some (py "CBC"))) ;; ret true
               else ret false) ;;
  if negb chosen then ret false else
  (* choose hash_function *)
  chosen <- (found <- member (py "SHA-512") hash_functions ;;
             if found then
               modify (set_hash_function (Some (py "SHA-512"))) ;; ret true
             else
               found <- member (py "SHA-256") hash_functions ;;
               if found then
                 modify (set_hash_function (Some (py "SHA-256"))) ;; ret true
               else ret false) ;;
  if negb chosen then ret false else
  ret true.

(** [process_negotiate(message)] *)
Definition process_negotiate (message : list (pystr * json)) : M bool :=
  st <- gets state ;;
  if negb (State_eqb st STATE_CONNECT) then ret false else
  if negb (dict_has (py "ciphers") message)
     || negb (dict_has (py "modes") message)
     || negb (dict_has (py "sinteses") message)
  then ret false else
  r <- choose_algo (default JNull (dict_get (py "ciphers") message))
                   (default JNull (dict_get (py "modes") message))
                   (default JNull (dict_get (py "sinteses") message)) ;;
  c <- gets cipher ;;
  m <- gets mode ;;
  h <- gets hash_function ;;
  _send (JDict [item "type" (JStr (py "CIPHER_CHOSEN"));
                item "cipher" (opt_str c);
                item "mode" (opt_str m);
                item "sintese" (opt_str h)]) ;;
  ret r.

(** [process_open(message)] *)
Definition process_open (message : list (pystr * json)) : M bool :=
  st <- gets state ;;
  if negb (State_eqb st STATE_CONNECT) then ret false else
  match dict_get (py "file_name") message with
  | None => ret false
  | Some (JStr requested) =>
    (* Only chars and letters in the filename *)
    let file_name := sanitize requested in
    root <- gets storage_dir ;;
    let file_path := os_path_join root file_name in
    disk <- gets fs ;;
    made <- (if negb (os_path_exists disk (py "files")) then
               match os_mkdir disk (py "files") with
               | Some disk' => modify (set_fs disk') ;; ret true
               | None => ret false
               end
             else ret true) ;;
    if negb made then ret false else
    disk <- gets fs ;;
    match open_wb disk file_path with
    | None => ret false
    | Some (disk', h) =>
      modify (set_fs disk') ;;
      modify (set_file (Some h)) ;;
      _send (JDict [item "type" (JStr (py "OK"))]) ;;
      modify (set_file_name (Some file_name)) ;;
      modify (set_file_path (Some file_path)) ;;
      modify (set_state STATE_OPEN) ;;
      ret true
    end
  | Some _ => raise TypeError      (* re.sub on a value that is no str *)
  end.

(** [process_data(message)] *)
Definition process_data (message : list (pystr * json)) : M bool :=
  st <- gets state ;;
  legal <- match st with
           | STATE_OPEN => modify (set_state STATE_DATA) ;; ret true
           | STATE_DATA => ret true
           | _ => ret false
           end ;;
  if negb legal then ret false else
  match dict_get (py "data") message with
  | None | Some JNull => ret false
  | Some (JStr data) =>
    match b64decode data with
    | None => ret false
    | Some bdata =>
      f <- gets file ;;
      disk <- gets fs ;;
      match f with
      | None => ret false           (* None has no write: caught *)
      | Some h =>
        match file_write disk h bdata with
        | None => ret false
        | Some disk' => modify (set_fs disk') ;; ret true
        end
      end
    end
  | Some _ => ret false             (* b64decode raises TypeError: caught *)
  end.

(** [process_close(message)] *)
Definition process_close (message : list (pystr * json)) : M bool :=
  transport_close ;;
  close_file ;;
  modify (set_state STATE_CLOSE) ;;
  ret true.

(** The [if]/[elif] chain of [on_frame]: the handler of the message type
    and what it returns. *)
Definition dispatch (mtype : pystr) (message : list (pystr * json))
  : M bool :=
  if pystr_eqb mtype (py "DH_KEY_EXCHANGE") then
    match dict_get (py "data") message with
    | Some (JDict data) =>
      get_key (default JNull (dict_get (py "pub_key") data))
    | _ => raise AttributeError           (* no get on this value *)
    end
  else if pystr_eqb mtype (py "OPEN") then process_open message
  else if pystr_eqb mtype (py "DATA") then process_data message
  else if pystr_eqb mtype (py "CLOSE") then process_close message
  else if pystr_eqb mtype (py "NEGOTIATE") then process_negotiate message
  else
    match dict_get (py "type") message with
    | Some _ => ret false
    | None => raise KeyError        (* message['type'] in the log line *)
    end.

(** The block under [if not ret:] of [on_frame]. *)
Definition fail_closed : M unit :=
  catch (_send (JDict [item "type" (JStr (py "ERROR"));
                       item "message" (JStr (py "See server"))]))
        (ret tt) ;;
  close_file ;;
  modify (set_state STATE_CLOSE) ;;
  transport_close.

(** [on_frame(frame)] *)
Definition on_frame (frame : pystr) : M unit :=
  match json_loads frame with
  | None => transport_close
  | Some (JDict message) =>
    match default (JStr []) (dict_get (py "type") message) with
    | JStr t =>
      r <- dispatch (upper t) message ;;
      if negb r then fail_closed else ret tt
    | _ => raise AttributeError          (* no upper on this value *)
    end
  | Some _ => raise AttributeError       (* no get on this value *)
  end.
End Methods.

(* ===================================================================== *)
(** ** The handlers never look at the input buffer *)
(* ===================================================================== *)

Definition result_map {A} (f : ClientHandler -> ClientHandler)
  (r : result A) : result A :=
  match r with
  | Ret a s => Ret a (f s)
  | Raise e s => Raise e (f s)
  end.

(** A method that neither reads nor assigns [self.buffer]. *)
Definition buffer_blind {A} (c : M A) : Prop :=
  forall b s, c (set_buffer b s) = result_map (set_buffer b) (c s).

Lemma set_buffer_same s : set_buffer (buffer s) s = s.
Proof. destruct s; reflexivity. Qed.

Section Blind.
Context `{PyLib}.

Lemma blind_ret {A} (a : A) : buffer_blind (ret a).
Proof. intros b s; reflexivity. Qed.

Lemma blind_raise {A} e : buffer_blind (@raise A e).
Proof. intros b s; reflexivity. Qed.

Lemma blind_bind {A B} (c : M A) (k : A -> M B) :
  buffer_blind c -> (forall a, buffer_blind (k a)) -> buffer_blind (bind c k).
Proof.
  intros Hc Hk b s. unfold bind. rewrite Hc.
  destruct (c s); simpl; [apply Hk | reflexivity].
Qed.

Lemma blind_catch {A} (c h : M A) :
  buffer_blind c -> buffer_blind h -> buffer_blind (catch c h).
Proof.
  intros Hc Hh b s. unfold catch. rewrite Hc.
  destruct (c s); simpl; [reflexivity | apply Hh].
Qed.

Lemma blind_gets {X} (attr : ClientHandler -> X) :
  (forall b s, attr (set_buffer b s) = attr s) -> buffer_blind (gets attr).
Proof. intros Ha b s. unfold gets. rewrite Ha. reflexivity. Qed.

Lemma blind_modify f :
  (forall b s, f (set_buffer b s) = set_buffer b (f s)) ->
  buffer_blind (modify f).
Proof. intros Hf b s. unfold modify. rewrite Hf. reflexivity. Qed.

(** Structural proof of blindness; [known] closes the calls of methods
    already shown blind. *)
Ltac blind_with known :=
  repeat first
    [ known
    | apply blind_ret | apply blind_raise
    | apply blind_gets; reflexivity
    | apply blind_modify; reflexivity
    | apply blind_catch
    | apply blind_bind; [| intros ?]
    | case_match ].
Ltac blind := blind_with fail.

Lemma blind_get_key v : buffer_blind (get_key v).
Proof. unfold get_key. blind. Qed.

Lemma blind_member name v : buffer_blind (member name v).
Proof. unfold member. blind. Qed.

Lemma blind_choose_algo c m h : buffer_blind (choose_algo c m h).
Proof. unfold choose_algo. blind_with ltac:(apply blind_member). Qed.

Lemma blind_send v : buffer_blind (_send v).
Proof. unfold _send. blind. Qed.

Lemma blind_transport_close : buffer_blind transport_close.
Proof. unfold transport_close. blind. Qed.

Lemma blind_close_file : buffer_blind close_file.
Proof. unfold close_file. blind. Qed.

Ltac blind_prims :=
  first [ apply blind_send | apply blind_transport_close
        | apply blind_close_file ].

Lemma blind_process_negotiate m : buffer_blind (process_negotiate m).
Proof.
  unfold process_negotiate.
  blind_with ltac:(first [apply blind_choose_algo | blind_prims]).
Qed.

Lemma blind_process_open m : buffer_blind (process_open m).
Proof. unfold process_open. blind_with blind_prims. Qed.

Lemma blind_process_data m : buffer_blind (process_data m).
Proof. unfold process_data. blind. Qed.

Lemma blind_process_close m : buffer_blind (process_close m).
Proof. unfold process_close. blind_with blind_prims. Qed.

Lemma blind_fail_closed : buffer_blind fail_closed.
Proof. unfold fail_closed. blind_with blind_prims. Qed.

Lemma blind_dispatch t m : buffer_blind (dispatch t m).
Proof.
  unfold dispatch.
  blind_with ltac:(first
    [ apply blind_get_key | apply blind_process_open
    | apply blind_process_data | apply blind_process_close
    | apply blind_process_negotiate ]).
Qed.

Lemma blind_on_frame frame : buffer_blind (on_frame frame).
Proof.
  unfold on_frame.
  blind_with ltac:(first
    [ apply blind_dispatch | apply blind_fail_closed | blind_prims ]).
Qed.

(** No handler assigns [self.buffer]. *)
Lemma on_frame_buffer frame s :
  buffer (final (on_frame frame s)) = buffer s.
Proof.
  rewrite <- (set_buffer_same s) at 1. rewrite blind_on_frame.
  destruct (on_frame frame s); reflexivity.
Qed.
End Blind.

(* ===================================================================== *)
(** ** [data_received]: the frame reader *)
(* ===================================================================== *)

Lemma starts_with_length sub s :
  starts_with sub s = true -> (length sub <= length s)%nat.
Proof.
  revert s. induction sub as [|a sub IH]; intros [|b s]; simpl;
    try lia; try discriminate.
  destruct (a =? b); simpl; [|discriminate].
  intros E. specialize (IH _ E). lia.
Qed.

Lemma find_bound sub s i :
  find sub s = Some i -> (i + length sub <= length s)%nat.
Proof.
  revert i. induction s as [|c s IH]; intros i.
  - simpl. destruct sub; simpl; [intros [= <-]; simpl; lia | discriminate].
  - cbn [find]. destruct (starts_with sub (c :: s)) eqn:E.
    + intros [= <-]. apply starts_with_length in E. lia.
    + destruct (find sub s) as [j|]; simpl; [|discriminate].
      intros [= <-]. specialize (IH _ eq_refl). simpl. lia.
Qed.

Definition inspect {A} (a : A) : { b : A | a = b } := exist _ a eq_refl.

(** The size ceiling of the input buffer, [4096 * 1024 * 1024]. *)
Definition buffer_limit : N := 4096 * 1024 * 1024.

Section Framing.
Context `{PyLib}.

(** The [while idx >= 0] loop of [data_received]: as long as the buffer
    holds a separator, cut the first frame off and hand it to
    [on_frame]; an exception of [on_frame] leaves the loop. *)
Equations? frames_loop (s : ClientHandler) : result unit
  by wf (length (buffer s)) lt :=
  frames_loop s with inspect (find CRLF (buffer s)) := {
    | exist _ None _ => Ret tt s
    | exist _ (Some idx) Hidx
        with inspect (on_frame (strip (take (idx + 2) (buffer s)))
                        (set_buffer (drop (idx + 2) (buffer s)) s)) := {
        | exist _ (Ret _ s') Hf => frames_loop s'
        | exist _ (Raise e s') _ => Raise e s' } }.
Proof.
  pose proof (on_frame_buffer
                (strip (take (idx + 2) (buffer s)))
                (set_buffer (drop (idx + 2) (buffer s)) s)) as Hb.
  rewrite Hf in Hb. simpl in Hb. rewrite Hb.
  apply find_bound in Hidx. simpl in Hidx.
  rewrite length_drop. lia.
Qed.

(** [data_received(data)] *)
Definition data_received (data : list byte) : M unit :=
  catch (match decode data with
         | Some text => modify (fun s => set_buffer (buffer s ++ text) s)
         | None => raise UnicodeDecodeError
         end)
        (ret tt) ;;
  frames_loop ;;
  buf <- gets buffer ;;
  if buffer_limit <? N.of_nat (length buf) then
    modify (set_buffer []) ;;
    transport_close
  else ret tt.

(** The chunks of a connection, delivered in order; an exception ends
    the run where it is raised. *)
Fixpoint deliver (chunks : list (list byte)) : M unit :=
  match chunks with
  | [] => ret tt
  | data :: rest => data_received data ;; deliver rest
  end.
End Framing.

(* ===================================================================== *)
(** ** A reference instance of the libraries *)
(* ===================================================================== *)

(** An executable [PyLib] for concrete runs.  The JSON reader and writer
    cover the messages of the protocol (objects, arrays, strings with their
    escapes, integers, [true], [false], [null]); the base64 decoder follows
    [binascii.a2b_base64]; the Unicode tables are those of ASCII and
    Latin-1.  The Diffie-Hellman and HKDF entries are arithmetic stand-ins
    with the interface of the real primitives, not the primitives. *)
Module RefLib.

(** *** Decimal numbers *)

Fixpoint digits_of (fuel : nat) (n : N) (acc : pystr) : pystr :=
  match fuel with
  | O => acc
  | S f =>
    let acc' := (48 + n mod 10) :: acc in
    if n <? 10 then acc' else digits_of f (n / 10) acc'
  end.

Definition dec_of_N (n : N) : pystr :=
  digits_of (S (N.to_nat (N.log2 n))) n [].

Definition dec_of_Z (z : Z) : pystr :=
  match z with
  | Zneg p => 45 :: dec_of_N (Npos p)
  | _ => dec_of_N (Z.to_N z)
  end.

Definition is_digit (c : N) : bool := (48 <=? c) && (c <=? 57).

Fixpoint span_digits (s : pystr) : pystr * pystr :=
  match s with
  | c :: r =>
    if is_digit c then let (d, r') := span_digits r in (c :: d, r')
    else ([], s)
  | [] => ([], [])
  end.

Definition N_of_dec (d : pystr) : N :=
  fold_left (fun acc c => acc * 10 + (c - 48)) d 0.

(** *** Reading JSON *)

Definition is_ws (c : N) : bool :=
  (c =? 32) || (c =? 9) || (c =? 10) || (c =? 13).

Fixpoint skip_ws (s : pystr) : pystr :=
  match s with
  | c :: r => if is_ws c then skip_ws r else s
  | [] => []
  end.

Definition hex_val (c : N) : option N :=
  if is_digit c then Some (c - 48)
  else if (97 <=? c) && (c <=? 102) then Some (c - 87)
  else if (65 <=? c) && (c <=? 70) then Some (c - 55)
  else None.

Definition simple_escape (c : N) : option N :=
  if c =? 34 then Some 34 else if c =? 92 then Some 92
  else if c =? 47 then Some 47 else if c =? 98 then Some 8
  else if c =? 102 then Some 12 else if c =? 110 then Some 10
  else if c =? 114 then Some 13 else if c =? 116 then Some 9
  else None.

(** The characters of a string after its opening quote, and the rest
    of the input after the closing one. *)
Fixpoint read_string (s : pystr) : option (pystr * pystr) :=
  match s with
  | [] => None
  | c :: r =>
    if c =? 34 then Some ([], r)
    else if c =? 92 then
      match r with
      | e :: r1 =>
        if e =? 117 then
          match r1 with
          | h1 :: h2 :: h3 :: h4 :: r2 =>
            match hex_val h1, hex_val h2, hex_val h3, hex_val h4 with
            | Some a, Some b, Some c', Some d =>
              let cp := ((a * 16 + b) * 16 + c') * 16 + d in
              if (55296 <=? cp) && (cp <=? 57343) then None
              else match read_string r2 with
                   | Some (t, r3) => Some (cp :: t, r3)
                   | None => None
                   end
            | _, _, _, _ => None
            end
          | _ => None
          end
        else
          match simple_escape e, read_string r1 with
          | Some cp, Some (t, r3) => Some (cp :: t, r3)
          | _, _ => None
          end
      | [] => None
      end
    else if c <? 32 then None
    else match read_string r with
         | Some (t, r') => Some (c :: t, r')
         | None => None
         end
  end.

Definition read_int (s : pystr) : option (json * pystr) :=
  let (neg, body) :=
    match s with
    | c :: r => if c =? 45 then (true, r) else (false, s)
    | [] => (false, s)
    end in
  let (d, r) := span_digits body in
  match d with
  | [] => None
  | c :: d' =>
    if (c =? 48) && negb (pystr_eqb d' []) then None
    else
      match r with
      | x :: _ =>
        if (x =? 46) || (x =? 101) || (x =? 69) then None
        else Some (JInt (if neg then - Z.of_N (N_of_dec d)
                         else Z.of_N (N_of_dec d))%Z, r)
      | [] => Some (JInt (if neg then - Z.of_N (N_of_dec d)
                          else Z.of_N (N_of_dec d))%Z, r)
      end
  end.

(** A key assigned twice keeps its last value, as in a Python dict. *)
Fixpoint dict_set (k : pystr) (v : json) (d : list (pystr * json))
  : list (pystr * json) :=
  match d with
  | [] => [(k, v)]
  | (k', v') :: d' =>
    if pystr_eqb k k' then (k, v) :: d' else (k', v') :: dict_set k v d'
  end.

Fixpoint read_value (fuel : nat) (s : pystr) : option (json * pystr) :=
  match fuel with
  | O => None
  | S f =>
    match skip_ws s with
    | [] => None
    | c :: r =>
      if c =? 123 then
        match skip_ws r with
        | 125 :: r' => Some (JDict [], r')
        | _ => read_members f r []
        end
      else if c =? 91 then
        match skip_ws r with
        | 93 :: r' => Some (JList [], r')
        | _ => read_elements f r []
        end
      else if c =? 34 then
        match read_string r with
        | Some (t, r') => Some (JStr t, r')
        | None => None
        end
      else if starts_with (py "true") (c :: r) then
        Some (JBool true, drop 4 (c :: r))
      else if starts_with (py "false") (c :: r) then
        Some (JBool false, drop 5 (c :: r))
      else if starts_with (py "null") (c :: r) then
        Some (JNull, drop 4 (c :: r))
      else read_int (c :: r)
    end
  end
with read_members (fuel : nat) (s : pystr) (acc : list (pystr * json))
  : option (json * pystr) :=
  match fuel with
  | O => None
  | S f =>
    match skip_ws s with
    | 34 :: r =>
      match read_string r with
      | Some (k, r1) =>
        match skip_ws r1 with
        | 58 :: r2 =>
          match read_value f r2 with
          | Some (v, r3) =>
            match skip_ws r3 with
            | 44 :: r4 => read_members f r4 (dict_set k v acc)
            | 125 :: r4 => Some (JDict (dict_set k v acc), r4)
            | _ => None
            end
          | None => None
          end
        | _ => None
        end
      | None => None
      end
    | _ => None
    end
  end
with read_elements (fuel : nat) (s : pystr) (acc : list json)
  : option (json * pystr) :=
  match fuel with
  | O => None
  | S f =>
    match read_value f s with
    | Some (v, r) =>
      match skip_ws r with
      | 44 :: r' => read_elements f r' (acc ++ [v])
      | 93 :: r' => Some (JList (acc ++ [v]), r')
      | _ => None
      end
    | None => None
    end
  end.

Definition loads (s : pystr) : option json :=
  match read_value (2 * length s + 2) s with
  | Some (v, r) => if pystr_eqb (skip_ws r) [] then Some v else None
  | None => None
  end.

(** *** Writing JSON, with the defaults of [json.dumps] *)

Definition hex_digit (n : N) : N := if n <? 10 then 48 + n else 87 + n.

Definition u_escape (c : N) : pystr :=
  [92; 117; hex_digit (c / 4096); hex_digit ((c / 256) mod 16);
   hex_digit ((c / 16) mod 16); hex_digit (c mod 16)].

Definition escape_char (c : N) : pystr :=
  if c =? 34 then [92; 34] else if c =? 92 then [92; 92]
  else if c =? 10 then [92; 110] else if c =? 13 then [92; 114]
  else if c =? 9 then [92; 116] else if c =? 8 then [92; 98]
  else if c =? 12 then [92; 102]
  else if (32 <=? c) && (c <=? 126) then [c]
  else if c <? 65536 then u_escape c
  else u_escape (55296 + (c - 65536) / 1024)
       ++ u_escape (56320 + (c - 65536) mod 1024).

Definition dumps_str (t : pystr) : pystr :=
  34 :: flat_map escape_char t ++ [34].

Fixpoint dumps (v : json) : pystr :=
  match v with
  | JNull => py "null"
  | JBool true => py "true"
  | JBool false => py "false"
  | JInt z => dec_of_Z z
  | JFloat repr => repr
  | JStr t => dumps_str t
  | JList l =>
    91 :: (fix items (l : list json) : pystr :=
             match l with
             | [] => []
             | [x] => dumps x
             | x :: r => dumps x ++ py ", " ++ items r
             end) l ++ [93]
  | JDict d =>
    123 :: (fix items (d : list (pystr * json)) : pystr :=
              match d with
              | [] => []
              | [(k, x)] => dumps_str k ++ py ": " ++ dumps x
              | (k, x) :: r =>
                dumps_str k ++ py ": " ++ dumps x ++ py ", " ++ items r
              end) d ++ [125]
  end.

(** *** base64, as [binascii.a2b_base64] reads it *)

Definition b64_val (c : N) : option N :=
  if (65 <=? c) && (c <=? 90) then Some (c - 65)
  else if (97 <=? c) && (c <=? 122) then Some (c - 71)
  else if is_digit c then Some (c + 4)
  else if c =? 43 then Some 62
  else if c =? 47 then Some 63
  else None.

(** Is the next character that counts a pad? *)
Fixpoint next_is_pad (s : pystr) : bool :=
  match s with
  | [] => false
  | c :: r =>
    if c =? 61 then true
    else if b64_val c is Some _ then false
    else next_is_pad r
  end.

Fixpoint a2b (s : pystr) (quad_pos leftchar leftbits : N)
  (out : list byte) : option (list byte) :=
  match s with
  | [] => if leftbits =? 0 then Some out else None
  | c :: r =>
    if c =? 61 then
      if (quad_pos <? 2) || ((quad_pos =? 2) && negb (next_is_pad r))
      then a2b r quad_pos leftchar leftbits out
      else Some out
    else
      match b64_val c with
      | None => a2b r quad_pos leftchar leftbits out
      | Some v =>
        let quad_pos := (quad_pos + 1) mod 4 in
        let leftchar := leftchar * 64 + v in
        let leftbits := leftbits + 6 in
        if 8 <=? leftbits then
          a2b r quad_pos (leftchar mod 2 ^ (leftbits - 8)) (leftbits - 8)
              (out ++ [byte_of ((leftchar / 2 ^ (leftbits - 8)) mod 256)])
        else a2b r quad_pos leftchar leftbits out
      end
  end.

Definition b64 (s : pystr) : option (list byte) :=
  if forallb (fun c => c <? 128) s then a2b s 0 0 0 [] else None.

(** *** Latin-1 part of the Unicode tables *)

Definition latin1_alnum (c : N) : bool :=
  (c =? 170) || (c =? 178) || (c =? 179) || (c =? 181) || (c =? 185)
  || (c =? 186) || ((188 <=? c) && (c <=? 190))
  || ((192 <=? c) && (c <=? 214)) || ((216 <=? c) && (c <=? 246))
  || ((248 <=? c) && (c <=? 255)).

Definition latin1_upper (c : N) : pystr :=
  if c =? 181 then [924]
  else if c =? 223 then [83; 83]
  else if c =? 255 then [376]
  else if ((224 <=? c) && (c <=? 246)) || ((248 <=? c) && (c <=? 254))
  then [c - 32]
  else [c].

(** *** Stand-ins for the [cryptography] primitives *)

Definition pem_head : pystr := py "-----BEGIN PUBLIC KEY-----" ++ [10].
Definition pem_tail : pystr := 10 :: py "-----END PUBLIC KEY-----" ++ [10].

Definition pem_of (k : DHPublicKey) : pystr :=
  pem_head ++ dec_of_Z (dh_p (pub_params k)) ++ 32
    :: dec_of_Z (dh_g (pub_params k)) ++ 32 :: dec_of_Z (pub_y k)
    ++ pem_tail.

Definition load_pem (data : list byte) : option DHPublicKey :=
  let s := map Byte.to_N data in
  if starts_with pem_head s then
    let (p, r1) := span_digits (drop (length pem_head) s) in
    match r1 with
    | 32 :: r1' =>
      let (g, r2) := span_digits r1' in
      match r2 with
      | 32 :: r2' =>
        let (y, r3) := span_digits r2' in
        if pystr_eqb r3 pem_tail
           && negb (pystr_eqb p []) && negb (pystr_eqb g [])
           && negb (pystr_eqb y [])
        then Some {| pub_params := {| dh_p := Z.of_N (N_of_dec p);
                                      dh_g := Z.of_N (N_of_dec g) |};
                     pub_y := Z.of_N (N_of_dec y) |}
        else None
      | _ => None
      end
    | _ => None
    end
  else None.

Definition public_of (k : DHPrivateKey) : DHPublicKey :=
  {| pub_params := priv_params k;
     pub_y := (dh_g (priv_params k) ^ priv_x k) mod dh_p (priv_params k) |}.

Fixpoint base256 (fuel : nat) (n : N) (acc : list byte) : list byte :=
  match fuel with
  | O => acc
  | S f =>
    let acc' := byte_of (n mod 256) :: acc in
    if n <? 256 then acc' else base256 f (n / 256) acc'
  end.

Definition exchange (k : DHPrivateKey) (peer : DHPublicKey)
  : option (list byte) :=
  let p := dh_p (priv_params k) in
  if (dh_p (pub_params peer) =? p)%Z
     && (dh_g (pub_params peer) =? dh_g (priv_params k))%Z
     && (2 <=? pub_y peer)%Z && (pub_y peer <=? p - 2)%Z
  then let z := Z.to_N ((pub_y peer ^ priv_x k) mod p) in
       Some (base256 (S (N.to_nat (N.log2 z))) z [])
  else None.

Definition derive (info shared : list byte) : option (list byte) :=
  Some (take 32 (shared ++ info ++ repeat x00 32)).

#[export] Instance ref_lib : PyLib := {
  json_loads := loads;
  json_dumps := dumps;
  b64decode := b64;
  uni_alnum := latin1_alnum;
  uni_upper := latin1_upper;
  load_pem_public_key := load_pem;
  pem_other_key := fun _ => false;
  dh_exchange := exchange;
  hkdf_derive := derive;
  dh_public_key := public_of;
  public_bytes_pem := pem_of
}.
End RefLib.

(** A JSON text of an example, written with ['] for the double quote. *)
Definition js (s : string) : pystr :=
  map (fun c => if c =? 39 then 34 else c) (py s).

(** The bytes of an ASCII text. *)
Definition ascii_bytes (s : pystr) : list byte := map byte_of s.

(* ===================================================================== *)
(** ** Negotiation *)
(* ===================================================================== *)

Lemma pystr_eqb_eq a b : pystr_eqb a b = true <-> a = b.
Proof.
  revert b. induction a as [|x a IH]; intros [|y b]; simpl;
    try (split; [discriminate | congruence]); [tauto|].
  rewrite andb_true_iff, N.eqb_eq, IH. split; [intros [-> ->] | intros [=]]; auto.
Qed.

Lemma pystr_eqb_refl a : pystr_eqb a a = true.
Proof. apply pystr_eqb_eq; reflexivity. Qed.

(** [offers] is membership of the name, as a [str], in the list. *)
Lemma offers_In name l : offers name l = true <-> In (JStr name) l.
Proof.
  unfold offers. rewrite existsb_exists. split.
  - intros [v [Hin Hv]]. destruct v; simpl in Hv; try discriminate.
    apply pystr_eqb_eq in Hv. subst. exact Hin.
  - intros Hin. exists (JStr name). split; [exact Hin|]. apply pystr_eqb_refl.
Qed.

(** The selection rule of one category in the words of the design:
    prefer [first], else [second], else fail. *)
Definition prefer (first second : pystr) (offered : list json)
  : option pystr :=
  if offers first offered then Some first
  else if offers second offered then Some second
  else None.

Section Negotiation.
Context `{PyLib}.

(** What [choose_algo] does on three lists, category by category. *)
Lemma choose_algo_lists cs ms hs s :
  choose_algo (JList cs) (JList ms) (JList hs) s =
  match prefer (py "ChaCha20") (py "AES") cs with
  | None => Ret false s
  | Some c =>
    match prefer (py "GCM") (py "CBC") ms with
    | None => Ret false (set_cipher (Some c) s)
    | Some m =>
      match prefer (py "SHA-512") (py "SHA-256") hs with
      | None => Ret false (set_mode (Some m) (set_cipher (Some c) s))
      | Some h =>
        Ret true (set_hash_function (Some h)
                    (set_mode (Some m) (set_cipher (Some c) s)))
      end
    end
  end.
Proof.
  cbv [choose_algo member py_in bind ret raise modify prefer].
  destruct (offers (py "ChaCha20") cs), (offers (py "AES") cs),
    (offers (py "GCM") ms), (offers (py "CBC") ms),
    (offers (py "SHA-512") hs), (offers (py "SHA-256") hs); reflexivity.
Qed.

(** C6. The negotiation choice on candidate lists.  Each category is
    selected by its fixed priority: the first name when the list offers
    it, else the second when the list offers it, else nothing (ChaCha20
    over AES, GCM over CBC, SHA-512 over SHA-256).  The call returns True
    exactly when every category has a supported candidate, and then the
    handler's cipher, mode and digest are the three selected names; it
    fails at the first category without one, and then the categories
    before it hold this call's selection while that category and the later
    ones keep what the handler held.  Nothing else in the handler changes.
    Offering AES and ChaCha20, CBC and GCM, SHA-256 and SHA-512 stores
    (ChaCha20, GCM, SHA-512); with no supported cipher the call fails with
    the handler untouched, whatever the modes and digests are. *)
Theorem choose_algo_priority :
  (forall first second offered,
      (In (JStr first) offered -> prefer first second offered = Some first)
      /\ (~ In (JStr first) offered -> In (JStr second) offered ->
          prefer first second offered = Some second)
      /\ (~ In (JStr first) offered -> ~ In (JStr second) offered ->
          prefer first second offered = None))
  /\ (forall cs ms hs s,
        let c := prefer (py "ChaCha20") (py "AES") cs in
        let m := prefer (py "GCM") (py "CBC") ms in
        let h := prefer (py "SHA-512") (py "SHA-256") hs in
        let r := choose_algo (JList cs) (JList ms) (JList hs) s in
        returned r = Some (match c, m, h with
                           | Some _, Some _, Some _ => true
                           | _, _, _ => false
                           end)
        /\ cipher (final r) = (if c is Some x then Some x else cipher s)
        /\ mode (final r) = (match c, m with
                             | Some _, Some y => Some y
                             | _, _ => mode s
                             end)
        /\ hash_function (final r) = (match c, m, h with
                                      | Some _, Some _, Some z => Some z
                                      | _, _, _ => hash_function s
                                      end)
        /\ set_hash_function (hash_function s)
             (set_mode (mode s) (set_cipher (cipher s) (final r))) = s)
  /\ (forall s,
        let r := choose_algo (JList [JStr (py "AES"); JStr (py "ChaCha20")])
                   (JList [JStr (py "CBC"); JStr (py "GCM")])
                   (JList [JStr (py "SHA-256"); JStr (py "SHA-512")]) s in
        returned r = Some true
        /\ cipher (final r) = Some (py "ChaCha20")
        /\ mode (final r) = Some (py "GCM")
        /\ hash_function (final r) = Some (py "SHA-512"))
  /\ (forall cs modes digests s,
        prefer (py "ChaCha20") (py "AES") cs = None ->
        choose_algo (JList cs) modes digests s = Ret false s)
  /\ (forall modes digests s,
        choose_algo (JList [JStr (py "DES")]) modes digests s = Ret false s).
Proof.
  split.
  { intros first second offered. unfold prefer.
    destruct (offers first offered) eqn:E1.
    - apply offers_In in E1. split; [reflexivity|]. split; contradiction.
    - assert (N1 : ~ In (JStr first) offered).
      { intros Hin. apply offers_In in Hin. congruence. }
      split; [contradiction|].
      destruct (offers second offered) eqn:E2.
      + apply offers_In in E2. split; [reflexivity | contradiction].
      + assert (N2 : ~ In (JStr second) offered).
        { intros Hin. apply offers_In in Hin. congruence. }
        split; [contradiction | reflexivity]. }
  split.
  { intros cs ms hs s c m h r. subst r. rewrite choose_algo_lists.
    fold c m h. destruct c, m, h; cbn [returned final cipher mode
      hash_function set_cipher set_mode set_hash_function];
      (split; [reflexivity|]); (split; [reflexivity|]);
      (split; [reflexivity|]); (split; [reflexivity|]);
      destruct s; reflexivity. }
  split.
  { intros s r. subst r. rewrite choose_algo_lists.
    split; [reflexivity|]. split; [reflexivity|]. split; reflexivity. }
  assert (Hnone : forall cs modes digests s,
             prefer (py "ChaCha20") (py "AES") cs = None ->
             choose_algo (JList cs) modes digests s = Ret false s).
  { intros cs modes digests s. cbv [choose_algo member py_in bind ret prefer].
    destruct (offers (py "ChaCha20") cs); [discriminate|].
    destruct (offers (py "AES") cs); [discriminate|]. reflexivity. }
  split; [exact Hnone|].
  intros modes digests s. apply Hnone. reflexivity.
Qed.
End Negotiation.

(* ===================================================================== *)
(** ** What a method leaves alone *)
(* ===================================================================== *)

(** The attribute [attr] has the same value after the method as before,
    also when the method raises. *)
Definition keeps {X A} (attr : ClientHandler -> X) (c : M A) : Prop :=
  forall s, attr (final (c s)) = attr s.

(** The position in the protocol and the file object. *)
Definition stage (s : ClientHandler) : State * option path :=
  (state s, file s).

Section Keeps.
Context `{PyLib} {X : Type} (attr : ClientHandler -> X).

Lemma keeps_ret {A} (a : A) : keeps attr (ret a).
Proof. intros s; reflexivity. Qed.

Lemma keeps_raise {A} e : keeps attr (@raise A e).
Proof. intros s; reflexivity. Qed.

Lemma keeps_gets {Y} (f : ClientHandler -> Y) : keeps attr (gets f).
Proof. intros s; reflexivity. Qed.

Lemma keeps_modify f : (forall s, attr (f s) = attr s) -> keeps attr (modify f).
Proof. intros Hf s. apply Hf. Qed.

Lemma keeps_bind {A B} (c : M A) (k : A -> M B) :
  keeps attr c -> (forall a, keeps attr (k a)) -> keeps attr (bind c k).
Proof.
  intros Hc Hk s. unfold bind. specialize (Hc s).
  destruct (c s) as [a s'|e s']; simpl in *; [|exact Hc].
  rewrite Hk. exact Hc.
Qed.

Lemma keeps_catch {A} (c h : M A) :
  keeps attr c -> keeps attr h -> keeps attr (catch c h).
Proof.
  intros Hc Hh s. unfold catch. specialize (Hc s).
  destruct (c s) as [a s'|e s']; simpl in *; [exact Hc|].
  rewrite Hh. exact Hc.
Qed.
End Keeps.

Ltac keeps_with known :=
  repeat first
    [ known
    | apply keeps_ret | apply keeps_raise | apply keeps_gets
    | apply keeps_modify; intros ?; reflexivity
    | apply keeps_catch
    | apply keeps_bind; [| intros ?]
    | case_match ].

Section Stage.
Context `{PyLib}.

Lemma get_key_stage v : keeps stage (get_key v).
Proof. unfold get_key. keeps_with fail. Qed.

Lemma member_stage name v : keeps stage (member name v).
Proof. unfold member. keeps_with fail. Qed.

Lemma choose_algo_stage c m h : keeps stage (choose_algo c m h).
Proof. unfold choose_algo. keeps_with ltac:(apply member_stage). Qed.

Lemma send_stage v : keeps stage (_send v).
Proof. unfold _send. keeps_with fail. Qed.

Lemma process_negotiate_stage m : keeps stage (process_negotiate m).
Proof.
  unfold process_negotiate.
  keeps_with ltac:(first [apply choose_algo_stage | apply send_stage]).
Qed.

(** The file system is touched by [process_open] and [process_data]
    only. *)
Lemma get_key_fs v : keeps fs (get_key v).
Proof. unfold get_key. keeps_with fail. Qed.

Lemma member_fs name v : keeps fs (member name v).
Proof. unfold member. keeps_with fail. Qed.

Lemma choose_algo_fs c m h : keeps fs (choose_algo c m h).
Proof. unfold choose_algo. keeps_with ltac:(apply member_fs). Qed.

Lemma send_fs v : keeps fs (_send v).
Proof. unfold _send. keeps_with fail. Qed.

Lemma process_negotiate_fs m : keeps fs (process_negotiate m).
Proof.
  unfold process_negotiate.
  keeps_with ltac:(first [apply choose_algo_fs | apply send_fs]).
Qed.
End Stage.

(* ===================================================================== *)
(** ** The dispatcher *)
(* ===================================================================== *)

Section Dispatcher.
Context `{PyLib}.

(** The generic error frame of the fatal path. *)
Definition error_frame : event :=
  Write (json_dumps (JDict [item "type" (JStr (py "ERROR"));
                            item "message" (JStr (py "See server"))])
         ++ CRLF).

(** The handler after the fatal path: error frame written, transport
    closed, no file object, terminal state; nothing else differs. *)
Definition rejected (s : ClientHandler) : ClientHandler :=
  set_transport (transport s ++ [error_frame; Close])
    (set_state STATE_CLOSE (set_file None s)).

Lemma fail_closed_eq s : fail_closed s = Ret tt (rejected s).
Proof.
  cbv [fail_closed catch bind _send modify ret close_file transport_close
       rejected error_frame].
  cbn [transport set_transport set_state set_file].
  rewrite <- app_assoc. reflexivity.
Qed.

(** A frame that parses to a dict with a [str] under ["type"] reaches the
    handler of its upper-cased type; a False result takes the fatal path. *)
Lemma on_frame_message frame message t s :
  json_loads frame = Some (JDict message) ->
  dict_get (py "type") message = Some (JStr t) ->
  on_frame frame s =
  match dispatch (upper t) message s with
  | Ret true s' => Ret tt s'
  | Ret false s' => Ret tt (rejected s')
  | Raise e s' => Raise e s'
  end.
Proof.
  intros Hj Ht. unfold on_frame. rewrite Hj, Ht. cbn [from_option id].
  unfold bind. destruct (dispatch (upper t) message s) as [[|] s'|e s'];
    cbn [negb]; [reflexivity | apply fail_closed_eq | reflexivity].
Qed.

Lemma dispatch_DH message :
  dispatch (py "DH_KEY_EXCHANGE") message =
  match dict_get (py "data") message with
  | Some (JDict data) => get_key (default JNull (dict_get (py "pub_key") data))
  | _ => raise AttributeError
  end.
Proof. reflexivity. Qed.

Lemma dispatch_OPEN message :
  dispatch (py "OPEN") message = process_open message.
Proof. reflexivity. Qed.

Lemma dispatch_DATA message :
  dispatch (py "DATA") message = process_data message.
Proof. reflexivity. Qed.

Lemma dispatch_CLOSE message :
  dispatch (py "CLOSE") message = process_close message.
Proof. reflexivity. Qed.

Lemma dispatch_NEGOTIATE message :
  dispatch (py "NEGOTIATE") message = process_negotiate message.
Proof. reflexivity. Qed.

Lemma process_data_illegal message s :
  state s <> STATE_OPEN -> state s <> STATE_DATA ->
  process_data message s = Ret false s.
Proof.
  intros Ho Hd. cbv [process_data bind gets].
  destruct (state s); try contradiction; reflexivity.
Qed.

Lemma process_open_illegal message s :
  state s <> STATE_CONNECT -> process_open message s = Ret false s.
Proof.
  intros Hc. cbv [process_open bind gets].
  destruct (state s); try contradiction; reflexivity.
Qed.

Lemma process_negotiate_illegal message s :
  state s <> STATE_CONNECT -> process_negotiate message s = Ret false s.
Proof.
  intros Hc. cbv [process_negotiate bind gets].
  destruct (state s); try contradiction; reflexivity.
Qed.

(** C9. A DATA message outside the states OPEN and DATA, and an OPEN
    message outside the state CONNECT, take the fatal path: the error frame
    is written, the transport closed, the state becomes CLOSE, the file
    object (if any) is dropped, and the file system is what it was, so no
    file is created. *)
Theorem out_of_order_rejected frame message t s :
  json_loads frame = Some (JDict message) ->
  dict_get (py "type") message = Some (JStr t) ->
  (upper t = py "DATA" /\ state s <> STATE_OPEN /\ state s <> STATE_DATA)
  \/ (upper t = py "OPEN" /\ state s <> STATE_CONNECT) ->
  on_frame frame s = Ret tt (rejected s)
  /\ fs (rejected s) = fs s
  /\ state (rejected s) = STATE_CLOSE
  /\ file (rejected s) = None
  /\ transport (rejected s) = transport s ++ [error_frame; Close].
Proof.
  intros Hj Ht Hcase. split; [|repeat split].
  rewrite (on_frame_message _ _ _ _ Hj Ht).
  destruct Hcase as [(Hu & Ho & Hd) | (Hu & Hc)]; rewrite Hu.
  - rewrite dispatch_DATA, process_data_illegal by assumption. reflexivity.
  - rewrite dispatch_OPEN, process_open_illegal by assumption. reflexivity.
Qed.
End Dispatcher.

(* ===================================================================== *)
(** ** The file object and the state *)
(* ===================================================================== *)

Definition has_handle (s : ClientHandler) : bool :=
  match file s with Some _ => true | None => false end.

Definition expects_handle (st : State) : bool :=
  match st with
  | STATE_OPEN | STATE_DATA => true
  | STATE_CONNECT | STATE_CLOSE => false
  end.

(** A file object is held exactly in the states OPEN and DATA. *)
Definition handle_inv (s : ClientHandler) : Prop :=
  has_handle s = expects_handle (state s).

Lemma handle_inv_stage s s' : stage s' = stage s -> handle_inv s -> handle_inv s'.
Proof.
  unfold stage, handle_inv, has_handle. intros [= -> ->]. exact id.
Qed.

(** Case analysis on a scrutinee that holds no other [match]. *)
Ltac inner_match :=
  match goal with
  | |- context [match ?x with _ => _ end] =>
    lazymatch x with
    | context [match _ with _ => _ end] => fail
    | _ => destruct x eqn:?
    end
  end.
Ltac cases := repeat (inner_match; cbv beta iota).

Section Handle.
Context `{PyLib}.

Lemma process_open_outcome message s :
  match process_open message s with
  | Ret true s' => state s' = STATE_OPEN /\ has_handle s' = true
  | Ret false s' | Raise _ s' => stage s' = stage s
  end.
Proof.
  cbv [process_open bind gets ret raise modify _send].
  cases; cbn; auto.
Qed.

Lemma process_data_outcome message s :
  match process_data message s with
  | Ret b s' =>
    file s' = file s
    /\ expects_handle (state s') = expects_handle (state s)
    /\ (b = true -> state s' = STATE_DATA /\ has_handle s = true)
  | Raise _ _ => False
  end.
Proof.
  cbv [process_data bind gets ret raise modify has_handle].
  cases; cbn [state file fs set_state set_fs] in *; try discriminate;
    repeat split; try congruence;
    repeat match goal with E : state s = _ |- _ => rewrite E end;
    try reflexivity; try discriminate.
Qed.

Lemma process_close_eq message s :
  process_close message s =
  Ret true (set_state STATE_CLOSE
              (set_file None (set_transport (transport s ++ [Close]) s))).
Proof. reflexivity. Qed.

(** Every handler that returns True or raises leaves the invariant in
    place. *)
Lemma dispatch_inv t message s :
  handle_inv s ->
  match dispatch t message s with
  | Ret true s' | Raise _ s' => handle_inv s'
  | Ret false _ => True
  end.
Proof.
  intros Hinv. unfold dispatch.
  destruct (pystr_eqb t (py "DH_KEY_EXCHANGE")).
  { assert (Hk : forall v, match get_key v s with
                           | Ret true s' | Raise _ s' => handle_inv s'
                           | Ret false _ => True
                           end).
    { intros v. pose proof (get_key_stage v s) as Hs.
      destruct (get_key v s) as [[|] s'|e s']; cbn in Hs;
        eauto using handle_inv_stage. }
    destruct (dict_get (py "data") message) as [[| | | | | |data]|];
      try exact Hinv.
    apply Hk. }
  destruct (pystr_eqb t (py "OPEN")).
  { pose proof (process_open_outcome message s) as Ho.
    destruct (process_open message s) as [[|] s'|e s']; auto.
    - destruct Ho as [Hst Hh]. unfold handle_inv. rewrite Hh, Hst. reflexivity.
    - eauto using handle_inv_stage. }
  destruct (pystr_eqb t (py "DATA")).
  { pose proof (process_data_outcome message s) as Hd.
    destruct (process_data message s) as [[|] s'|e s']; auto; [|contradiction].
    destruct Hd as (Hf & Hst & _). unfold handle_inv, has_handle in *.
    rewrite Hf, Hst. exact Hinv. }
  destruct (pystr_eqb t (py "CLOSE")).
  { rewrite process_close_eq. reflexivity. }
  destruct (pystr_eqb t (py "NEGOTIATE")).
  { pose proof (process_negotiate_stage message s) as Hs.
    destruct (process_negotiate message s) as [[|] s'|e s']; cbn in Hs;
      eauto using handle_inv_stage. }
  destruct (dict_get (py "type") message); [exact I | exact Hinv].
Qed.

(** The loop, one round unfolded. *)
Lemma frames_loop_step s :
  frames_loop s =
  match find CRLF (buffer s) with
  | None => Ret tt s
  | Some idx =>
    match on_frame (strip (take (idx + 2) (buffer s)))
            (set_buffer (drop (idx + 2) (buffer s)) s) with
    | Ret _ s' => frames_loop s'
    | Raise e s' => Raise e s'
    end
  end.
Proof.
  funelim (frames_loop s);
    repeat match goal with
           | E : find CRLF _ = _ |- _ => rewrite E
           | E : on_frame _ _ = _ |- _ => rewrite E
           end; reflexivity.
Qed.

End Handle.

(* ===================================================================== *)
(** ** Key exchange and negotiation in the state machine *)
(* ===================================================================== *)

(** The response of [process_negotiate]. *)
Definition cipher_chosen (c m h : option pystr) : json :=
  JDict [item "type" (JStr (py "CIPHER_CHOSEN"));
         item "cipher" (opt_str c);
         item "mode" (opt_str m);
         item "sintese" (opt_str h)].

Section Handshake.
Context `{PyLib}.

(** [get_key] in one piece: it reads the private key, never the state. *)
Lemma get_key_eq v s :
  get_key v s =
  match v with
  | JStr pem =>
    match encode pem with
    | None => Raise UnicodeEncodeError s
    | Some pem_b =>
      match load_pem_public_key pem_b with
      | None =>
        if pem_other_key pem_b then
          match private_key s with
          | None => Raise AttributeError s
          | Some _ => Raise TypeError s
          end
        else Raise ValueError s
      | Some peer =>
        match private_key s with
        | None => Raise AttributeError s
        | Some priv =>
          match dh_exchange priv peer with
          | None => Raise ValueError s
          | Some shared =>
            match hkdf_derive (bytes_of "handshake data") shared with
            | None => Raise ValueError s
            | Some derived => Ret true (set_key (Some derived) s)
            end
          end
        end
      end
    end
  | _ => Raise AttributeError s
  end.
Proof.
  cbv [get_key bind gets raise modify ret]. cases; reflexivity.
Qed.

Lemma get_key_never_false v s : returned (get_key v s) <> Some false.
Proof. rewrite get_key_eq. cases; cbn; congruence. Qed.

Lemma get_key_any_state v st s :
  get_key v (set_state st s) = result_map (set_state st) (get_key v s).
Proof.
  rewrite !get_key_eq. cbn [private_key set_state]. cases; reflexivity.
Qed.

(** A peer key that does not load, or a failing derivation step, leaves
    [on_frame] as an exception: nothing is written to the transport and
    nothing is closed. *)
Lemma key_exchange_failure_raises frame message data pem pem_b s :
  json_loads frame = Some (JDict message) ->
  dict_get (py "type") message = Some (JStr (py "DH_KEY_EXCHANGE")) ->
  dict_get (py "data") message = Some (JDict data) ->
  dict_get (py "pub_key") data = Some (JStr pem) ->
  encode pem = Some pem_b ->
  (load_pem_public_key pem_b = None /\ pem_other_key pem_b = false)
  \/ (exists peer priv,
        load_pem_public_key pem_b = Some peer /\ private_key s = Some priv
        /\ (dh_exchange priv peer = None
            \/ exists shared,
                dh_exchange priv peer = Some shared
                /\ hkdf_derive (bytes_of "handshake data") shared = None)) ->
  on_frame frame s = Raise ValueError s.
Proof.
  intros Hj Ht Hd Hp He Hfail.
  rewrite (on_frame_message _ _ _ _ Hj Ht).
  change (upper (py "DH_KEY_EXCHANGE")) with (py "DH_KEY_EXCHANGE").
  rewrite dispatch_DH, Hd, Hp. cbn [from_option id].
  rewrite get_key_eq, He.
  destruct Hfail
    as [[-> ->] | (peer & priv & -> & -> & [-> | (shared & -> & ->)])];
    reflexivity.
Qed.

(** The handler after the CIPHER_CHOSEN response that shows its three
    algorithm attributes. *)
Definition responded (s : ClientHandler) : ClientHandler :=
  set_transport
    (transport s
     ++ [Write (json_dumps (cipher_chosen (cipher s) (mode s) (hash_function s))
                ++ CRLF)]) s.

Lemma process_negotiate_lists message cs ms hs s :
  state s = STATE_CONNECT ->
  dict_get (py "ciphers") message = Some (JList cs) ->
  dict_get (py "modes") message = Some (JList ms) ->
  dict_get (py "sinteses") message = Some (JList hs) ->
  process_negotiate message s =
  match choose_algo (JList cs) (JList ms) (JList hs) s with
  | Ret r s' => Ret r (responded s')
  | Raise e s' => Raise e s'
  end.
Proof.
  intros Hs Hc Hm Hh.
  cbv [process_negotiate bind gets dict_has _send modify ret].
  rewrite Hs, Hc, Hm, Hh. cbn [State_eqb negb orb from_option id].
  destruct (choose_algo (JList cs) (JList ms) (JList hs) s); reflexivity.
Qed.

Lemma process_negotiate_absent message s :
  state s = STATE_CONNECT ->
  dict_has (py "ciphers") message && dict_has (py "modes") message
  && dict_has (py "sinteses") message = false ->
  process_negotiate message s = Ret false s.
Proof.
  intros Hs Habs. cbv [process_negotiate bind gets ret]. rewrite Hs.
  cbn [State_eqb negb].
  destruct (dict_has (py "ciphers") message),
    (dict_has (py "modes") message), (dict_has (py "sinteses") message);
    try discriminate; reflexivity.
Qed.

(** C4, as the code has it.  A NEGOTIATE message outside the state CONNECT
    takes the fatal path, and one that is handled successfully was received
    in CONNECT and leaves the state CONNECT.  The handler of a
    DH_KEY_EXCHANGE message does not look at the state: it does in every
    state what it does in one, so a message that is handled successfully
    in one state is accepted in every state, CONNECT, OPEN, DATA or CLOSE,
    and a successful handling leaves the state as it was. *)
Theorem negotiate_gated_key_exchange_not frame message t s :
  json_loads frame = Some (JDict message) ->
  dict_get (py "type") message = Some (JStr t) ->
  (upper t = py "NEGOTIATE" ->
   (state s <> STATE_CONNECT -> on_frame frame s = Ret tt (rejected s))
   /\ (forall s', dispatch (upper t) message s = Ret true s' ->
          state s = STATE_CONNECT /\ state s' = STATE_CONNECT))
  /\ (upper t = py "DH_KEY_EXCHANGE" ->
      (forall st,
          dispatch (upper t) message (set_state st s) =
          result_map (set_state st) (dispatch (upper t) message s))
      /\ (forall s', dispatch (upper t) message s = Ret true s' ->
            on_frame frame s = Ret tt s'
            /\ state s' = state s
            /\ forall st,
                on_frame frame (set_state st s) = Ret tt (set_state st s')
                /\ state (set_state st s') = st)).
Proof.
  intros Hj Ht. split; intros Hu; rewrite Hu.
  - split.
    + intros Hs. rewrite (on_frame_message _ _ _ _ Hj Ht), Hu.
      rewrite dispatch_NEGOTIATE, process_negotiate_illegal by exact Hs.
      reflexivity.
    + intros s' Hr. rewrite dispatch_NEGOTIATE in Hr.
      assert (Hc : state s = STATE_CONNECT).
      { destruct (state s) eqn:Hs; [reflexivity | | |];
          rewrite process_negotiate_illegal in Hr by congruence;
          discriminate. }
      split; [exact Hc|].
      pose proof (process_negotiate_stage message s) as Hk.
      rewrite Hr in Hk. unfold stage in Hk. cbn [final] in Hk.
      injection Hk as Hst _. congruence.
  - assert (Hany : forall st,
               dispatch (py "DH_KEY_EXCHANGE") message (set_state st s) =
               result_map (set_state st)
                 (dispatch (py "DH_KEY_EXCHANGE") message s)).
    { intros st. rewrite !dispatch_DH.
      destruct (dict_get (py "data") message) as [[| | | | | |data]|];
        try reflexivity.
      apply get_key_any_state. }
    split; [exact Hany|].
    intros s' Hr.
    assert (Hk : state s' = state s).
    { rewrite dispatch_DH in Hr.
      destruct (dict_get (py "data") message) as [[| | | | | |data]|];
        try discriminate.
      pose proof (get_key_stage
                    (default JNull (dict_get (py "pub_key") data)) s) as Hg.
      rewrite Hr in Hg. unfold stage in Hg. cbn [final] in Hg.
      injection Hg as Hst _. exact Hst. }
    split; [rewrite (on_frame_message _ _ _ _ Hj Ht), Hu, Hr; reflexivity|].
    split; [exact Hk|].
    intros st. split; [|reflexivity].
    rewrite (on_frame_message _ _ _ _ Hj Ht), Hu, Hany, Hr. reflexivity.
Qed.

(** C7, as the code has it.  In the state CONNECT a NEGOTIATE message
    without one of the three keys fails with nothing sent.  With three
    lists, a CIPHER_CHOSEN response is sent whether or not the selection
    succeeds; it shows the handler's cipher, mode and sintese attributes
    after the selection: a category before the failing one shows this
    selection's choice, the failing one and those after it show what the
    handler held before the message.  A False result takes the fatal
    path. *)
Theorem negotiate_response message s :
  state s = STATE_CONNECT ->
  (dict_has (py "ciphers") message && dict_has (py "modes") message
   && dict_has (py "sinteses") message = false ->
   process_negotiate message s = Ret false s)
  /\ (forall cs ms hs,
        dict_get (py "ciphers") message = Some (JList cs) ->
        dict_get (py "modes") message = Some (JList ms) ->
        dict_get (py "sinteses") message = Some (JList hs) ->
        let c := prefer (py "ChaCha20") (py "AES") cs in
        let m := prefer (py "GCM") (py "CBC") ms in
        let h := prefer (py "SHA-512") (py "SHA-256") hs in
        let s' := final (choose_algo (JList cs) (JList ms) (JList hs) s) in
        process_negotiate message s =
        Ret (match c, m, h with
             | Some _, Some _, Some _ => true
             | _, _, _ => false
             end) (responded s')
        /\ cipher s' = (if c is Some x then Some x else cipher s)
        /\ mode s' = (match c, m with
                      | Some _, Some y => Some y
                      | _, _ => mode s
                      end)
        /\ hash_function s' = (match c, m, h with
                               | Some _, Some _, Some z => Some z
                               | _, _, _ => hash_function s
                               end)
        /\ transport s' = transport s
        /\ state s' = STATE_CONNECT)
  /\ (forall frame t s',
        json_loads frame = Some (JDict message) ->
        dict_get (py "type") message = Some (JStr t) ->
        upper t = py "NEGOTIATE" ->
        process_negotiate message s = Ret false s' ->
        on_frame frame s = Ret tt (rejected s')).
Proof.
  intros Hs. split; [apply process_negotiate_absent; exact Hs|]. split.
  - intros cs ms hs Hc Hm Hh c m h s'.
    rewrite (process_negotiate_lists _ _ _ _ _ Hs Hc Hm Hh).
    subst s'. rewrite choose_algo_lists. fold c m h.
    destruct c, m, h; cbn; rewrite ?Hs; auto 10.
  - intros frame t s' Hj Ht Hu Hr.
    rewrite (on_frame_message _ _ _ _ Hj Ht), Hu, dispatch_NEGOTIATE, Hr.
    reflexivity.
Qed.
End Handshake.

(* ===================================================================== *)
(** ** The requested file name *)
(* ===================================================================== *)

(** Where an absolute path text leads, by its names alone. *)
Definition location (p : pystr) : path :=
  fold_left step_into (split_slash p) [].

(** A name of a directory entry: not empty, no separator, neither [.] nor
    [..].  [os.path.abspath] returns a path made of such names. *)
Definition normal_name (c : pystr) : Prop :=
  c <> [] /\ ~ In slash c /\ c <> dot /\ c <> dotdot.

Lemma split_slash_nonempty x : split_slash x <> [].
Proof.
  destruct x as [|b x]; cbn; [discriminate|].
  destruct (b =? slash); [discriminate|].
  destruct (split_slash x); discriminate.
Qed.

Lemma split_slash_cons_app c x :
  ~ In slash c ->
  split_slash (c ++ x) =
  match split_slash x with
  | h :: t => (c ++ h) :: t
  | [] => [c]
  end.
Proof.
  induction c as [|a c IH]; intros Hc; cbn [app].
  - pose proof (split_slash_nonempty x).
    destruct (split_slash x); [contradiction | reflexivity].
  - cbn [split_slash]. destruct (a =? slash) eqn:Ea.
    + apply N.eqb_eq in Ea. subst. exfalso. apply Hc. left. reflexivity.
    + rewrite IH by (intros Hin; apply Hc; right; exact Hin).
      destruct (split_slash x); reflexivity.
Qed.

Lemma split_slash_name c : ~ In slash c -> split_slash c = [c].
Proof.
  intros Hc. rewrite <- (app_nil_r c) at 1.
  rewrite split_slash_cons_app by exact Hc. cbn. rewrite app_nil_r. reflexivity.
Qed.

Lemma split_slash_names root name :
  Forall normal_name root -> ~ In slash name ->
  split_slash (concat (map (cons slash) root) ++ slash :: name)
  = [] :: root ++ [name].
Proof.
  intros Hroot Hname. induction Hroot as [|c root Hc _ IH].
  - cbn. rewrite split_slash_name by exact Hname. reflexivity.
  - cbn [map concat app]. cbn [split_slash].
    change (slash =? slash) with true. cbv beta iota.
    rewrite <- app_assoc, split_slash_cons_app by apply Hc.
    rewrite IH, app_nil_r. reflexivity.
Qed.

Lemma render_last root :
  Forall normal_name root -> root <> [] ->
  starts_with [slash] (rev (render root)) = false.
Proof.
  intros Hroot Hne.
  destruct (exists_last Hne) as (init & c & ->).
  apply Forall_app in Hroot as [_ Hc]. apply Forall_inv in Hc.
  destruct Hc as (Hc & Hs & _).
  destruct (exists_last Hc) as (c' & x & ->).
  assert (Hr : render (init ++ [c' ++ [x]])
               = (concat (map (cons slash) init) ++ slash :: c') ++ [x]).
  { unfold render. destruct (init ++ [c' ++ [x]]) eqn:E.
    - destruct init; discriminate.
    - rewrite <- E. rewrite map_app, concat_app. cbn.
      rewrite app_nil_r, <- !app_assoc. reflexivity. }
  rewrite Hr, rev_app_distr. cbn [rev app starts_with].
  destruct (slash =? x) eqn:Ex; [|reflexivity].
  apply N.eqb_eq in Ex. subst. exfalso. apply Hs.
  apply in_or_app. right. left. reflexivity.
Qed.

(** The names of the storage root joined with a name without separator. *)
Lemma split_slash_join root name :
  Forall normal_name root -> ~ In slash name ->
  split_slash (os_path_join (render root) name) = [] :: root ++ [name].
Proof.
  intros Hroot Hname. unfold os_path_join.
  assert (Hn : starts_with [slash] name = false).
  { destruct name as [|a name]; [reflexivity|]. cbn [starts_with].
    destruct (slash =? a) eqn:Ea; [|reflexivity].
    apply N.eqb_eq in Ea. subst. exfalso. apply Hname. left. reflexivity. }
  rewrite Hn. destruct root as [|c root].
  - cbn. rewrite split_slash_name by exact Hname. reflexivity.
  - rewrite render_last by (exact Hroot || discriminate).
    assert (He : pystr_eqb (render (c :: root)) [] = false) by reflexivity.
    rewrite He. cbn [orb]. unfold render.
    apply split_slash_names; assumption.
Qed.

Lemma step_into_normal cur c : normal_name c -> step_into cur c = cur ++ [c].
Proof.
  intros (Hne & _ & Hd & Hdd). unfold step_into.
  destruct (pystr_eqb c []) eqn:E1; [apply pystr_eqb_eq in E1; contradiction|].
  destruct (pystr_eqb c dot) eqn:E2; [apply pystr_eqb_eq in E2; contradiction|].
  destruct (pystr_eqb c dotdot) eqn:E3;
    [apply pystr_eqb_eq in E3; contradiction|].
  reflexivity.
Qed.

Lemma fold_step_into_normal root cur :
  Forall normal_name root -> fold_left step_into root cur = cur ++ root.
Proof.
  intros Hroot. revert cur. induction Hroot as [|c root Hc _ IH]; intros cur.
  - cbn. rewrite app_nil_r. reflexivity.
  - cbn [fold_left]. rewrite step_into_normal by exact Hc.
    rewrite IH, <- app_assoc. reflexivity.
Qed.

Lemma walk_normal fs root cur d :
  Forall normal_name root -> walk fs cur root = Some d -> d = cur ++ root.
Proof.
  intros Hroot. revert cur. induction Hroot as [|c root Hc _ IH]; intros cur.
  - cbn. intros [= <-]. rewrite app_nil_r. reflexivity.
  - cbn [walk]. destruct (is_dir fs cur); [|discriminate].
    rewrite step_into_normal by exact Hc. intros Hw.
    apply IH in Hw. rewrite Hw, <- app_assoc. reflexivity.
Qed.

(** Looking the joined path up in any file system ends in the storage
    root, with the sanitized name as last component. *)
Lemma resolve_join fs root name d c :
  Forall normal_name root -> ~ In slash name ->
  resolve fs (os_path_join (render root) name) = Some (d, c) ->
  d = root /\ c = name.
Proof.
  intros Hroot Hname. unfold resolve.
  destruct (usable _); [|discriminate]. unfold lookup.
  pose proof (split_slash_join root name Hroot Hname) as Hs.
  destruct (os_path_join (render root) name) as [|a p] eqn:Ep;
    [discriminate|].
  assert (Ha : a = slash).
  { unfold os_path_join in Ep.
    destruct (starts_with [slash] name) eqn:En.
    - subst name. cbn [starts_with] in En.
      destruct (slash =? a) eqn:E; [|discriminate].
      apply N.eqb_eq in E. congruence.
    - assert (Hr : exists r, render root = slash :: r).
      { destruct root; cbn; eauto. }
      destruct Hr as [r Hr]. rewrite Hr in Ep.
      destruct (_ || _); cbn in Ep; congruence. }
  subst a. change (slash =? slash) with true. cbv beta iota zeta.
  rewrite Hs.
  change ([] :: root ++ [name]) with (([] :: root) ++ [name]).
  rewrite removelast_last, last_last. cbn [walk].
  change (is_dir fs []) with true. cbv beta iota.
  change (step_into [] []) with (@nil pystr).
  destruct (walk fs [] root) as [d'|] eqn:Hw; [|discriminate].
  apply walk_normal in Hw; [|exact Hroot]. cbn in Hw. subst d'.
  destruct (is_dir fs root); [|discriminate].
  intros [= <- <-]. auto.
Qed.

Lemma open_wb_target fs p fs' h :
  open_wb fs p = Some (fs', h) ->
  exists d c, resolve fs p = Some (d, c) /\ h = d ++ [c] /\ names_dir c = false.
Proof.
  unfold open_wb. destruct (resolve fs p) as [[d c]|]; [|discriminate].
  destruct (names_dir c) eqn:En; [discriminate|]. cbn [orb].
  destruct (is_dir fs (d ++ [c])); [discriminate|].
  destruct (fs_files fs !! (d ++ [c])).
  - intros [= <- <-]. eauto.
  - destruct (bool_decide _); [discriminate|]. intros [= <- <-]. eauto.
Qed.

Lemma split_slash_no_slash p : Forall (fun c => ~ In slash c) (split_slash p).
Proof.
  induction p as [|a p IH]; cbn [split_slash].
  - constructor; [intros []|constructor].
  - destruct (a =? slash) eqn:Ea; [constructor; [intros []|exact IH]|].
    destruct (split_slash p) as [|c rest]; [constructor; [|constructor]|].
    + intros [->|[]]. rewrite N.eqb_refl in Ea. discriminate.
    + apply Forall_cons in IH as [Hc Hrest]. constructor; [|exact Hrest].
      intros [->|Hin]; [rewrite N.eqb_refl in Ea; discriminate | auto].
Qed.

Lemma step_into_keeps_normal cur c :
  Forall normal_name cur -> ~ In slash c ->
  Forall normal_name (step_into cur c).
Proof.
  intros Hcur Hc. unfold step_into.
  destruct (pystr_eqb c []) eqn:E1; [exact Hcur|].
  destruct (pystr_eqb c dot) eqn:E2; [exact Hcur|]. cbn [orb].
  destruct (pystr_eqb c dotdot) eqn:E3.
  - destruct cur as [|x cur] using rev_ind; [constructor|].
    rewrite removelast_last. apply Forall_app in Hcur as [Hcur _]. exact Hcur.
  - apply Forall_app. split; [exact Hcur|]. constructor; [|constructor].
    repeat split; auto; intros ->;
      rewrite ?pystr_eqb_refl in *; discriminate.
Qed.

(** The storage root that [main] configures, [os.path.abspath] of the [-d]
    argument, is the text of a location made of plain names, unless the
    argument starts with exactly two slashes. *)
Lemma abspath_normal fs p :
  Forall normal_name (fs_cwd fs) ->
  starts_with [slash; slash] p && negb (starts_with [slash; slash; slash] p)
  = false ->
  exists root, os_path_abspath fs p = render root /\ Forall normal_name root.
Proof.
  intros Hcwd Hone. unfold os_path_abspath. rewrite Hone. cbv zeta.
  eexists. split; [reflexivity|].
  assert (Hstart : Forall normal_name
                     (if starts_with [slash] p then [] else fs_cwd fs)).
  { destruct (starts_with [slash] p); [constructor | exact Hcwd]. }
  revert Hstart. generalize (if starts_with [slash] p then [] else fs_cwd fs).
  pose proof (split_slash_no_slash p) as Hs.
  induction Hs as [|c comps Hc _ IH]; intros cur Hcur; cbn [fold_left].
  - exact Hcur.
  - apply IH. apply step_into_keeps_normal; assumption.
Qed.

Section FileName.
Context `{PyLib}.

Lemma kept_slash : kept slash = false.
Proof. reflexivity. Qed.

Lemma sanitize_no_slash requested : ~ In slash (sanitize requested).
Proof.
  unfold sanitize. intros Hin. apply filter_In in Hin as [_ Hk].
  rewrite kept_slash in Hk. discriminate.
Qed.

(** A successful OPEN holds a file object for a direct child of the
    storage root, named by the sanitized name. *)
Lemma process_open_target message requested root s s' :
  Forall normal_name root ->
  dict_get (py "file_name") message = Some (JStr requested) ->
  storage_dir s = render root ->
  process_open message s = Ret true s' ->
  file s' = Some (root ++ [sanitize requested])
  /\ names_dir (sanitize requested) = false.
Proof.
  intros Hroot Hm Hdir. cbv [process_open]. rewrite Hm.
  cbv [bind gets ret raise modify _send].
  destruct (negb (State_eqb (state s) STATE_CONNECT)); [discriminate|].
  rewrite Hdir.
  assert (Ht : forall disk0 disk1 h,
             open_wb disk0 (os_path_join (render root) (sanitize requested))
             = Some (disk1, h) ->
             h = root ++ [sanitize requested]
             /\ names_dir (sanitize requested) = false).
  { intros disk0 disk1 h Ho.
    apply open_wb_target in Ho as (d & c & Hr & -> & Hn).
    apply resolve_join in Hr as [-> ->];
      auto using sanitize_no_slash. }
  cases; try discriminate; cbn [file fs set_fs set_file set_transport
    set_file_name set_file_path set_state] in *;
    intros [= <-]; cbn [file set_state set_file_path set_file_name
                        set_transport set_file];
    match goal with
    | E : open_wb _ _ = Some _ |- _ => apply Ht in E as [-> Hn]
    end; auto.
Qed.

(** C8, as the code has it.  Sanitization keeps exactly the characters
    that are word characters or dots, in order; the result holds no path
    separator; joined to the storage root it names the root itself (empty
    name or [.]), the parent of the root ([..]) or a direct child of the
    root, so it stays under the root unless it is [..]; and the file a
    successful OPEN holds is a direct child of the root. *)
Theorem sanitized_name_confined requested root :
  Forall normal_name root ->
  sanitize requested = List.filter (fun c => is_word c || (c =? 46)) requested
  /\ (forall c, In c (sanitize requested)
                <-> In c requested /\ (is_word c = true \/ c = 46))
  /\ ~ In slash (sanitize requested)
  /\ location (os_path_join (render root) (sanitize requested))
     = step_into root (sanitize requested)
  /\ (sanitize requested <> dotdot ->
      root `prefix_of`
        location (os_path_join (render root) (sanitize requested)))
  /\ (forall message s s',
        dict_get (py "file_name") message = Some (JStr requested) ->
        storage_dir s = render root ->
        process_open message s = Ret true s' ->
        file s' = Some (root ++ [sanitize requested])
        /\ names_dir (sanitize requested) = false).
Proof.
  intros Hroot.
  assert (Hloc : location (os_path_join (render root) (sanitize requested))
                 = step_into root (sanitize requested)).
  { unfold location.
    rewrite split_slash_join by auto using sanitize_no_slash.
    cbn [fold_left]. change (step_into [] []) with (@nil pystr).
    rewrite fold_left_app. cbn [fold_left].
    rewrite fold_step_into_normal by exact Hroot. reflexivity. }
  split; [reflexivity|]. split.
  { intros c. unfold sanitize. rewrite filter_In. unfold kept.
    rewrite orb_true_iff, N.eqb_eq. reflexivity. }
  split; [apply sanitize_no_slash|]. split; [exact Hloc|]. split.
  { intros Hdd. rewrite Hloc. unfold step_into.
    destruct (_ || _); [reflexivity|].
    destruct (pystr_eqb (sanitize requested) dotdot) eqn:E.
    - apply pystr_eqb_eq in E. contradiction.
    - exists [sanitize requested]. reflexivity. }
  intros message s s' Hm Hdir Ho.
  exact (process_open_target message requested root s s' Hroot Hm Hdir Ho).
Qed.
End FileName.

(* ===================================================================== *)
(** ** Reassembly of frames and the stored file *)
(* ===================================================================== *)

Lemma starts_with_app sub x y :
  (length sub <= length x)%nat -> starts_with sub (x ++ y) = starts_with sub x.
Proof.
  revert x. induction sub as [|a sub IH]; intros [|b x]; cbn; try lia;
    try reflexivity.
  intros Hl. rewrite IH by lia. reflexivity.
Qed.

(** The first separator stays the first one when text is appended. *)
Lemma find_app sub x y i : find sub x = Some i -> find sub (x ++ y) = Some i.
Proof.
  revert i. induction x as [|c x IH]; intros i.
  - cbn [find]. destruct (starts_with sub []) eqn:E; [|discriminate].
    intros [= <-]. destruct sub; [|discriminate]. destruct y; reflexivity.
  - cbn [find app]. destruct (starts_with sub (c :: x)) eqn:E.
    + intros [= <-]. pose proof (starts_with_length _ _ E) as Hl.
      change (c :: x ++ y) with ((c :: x) ++ y).
      rewrite starts_with_app, E by exact Hl. reflexivity.
    + destruct (find sub x) as [j|] eqn:F; [|discriminate].
      intros [= <-]. pose proof (find_bound _ _ _ F) as Hl.
      change (c :: x ++ y) with ((c :: x) ++ y).
      rewrite starts_with_app, E by (cbn; lia).
      rewrite (IH j eq_refl). reflexivity.
Qed.

(** A frame without separator, followed by the separator: the separator
    found is the one that ends the frame. *)
Lemma find_frame f rest :
  find CRLF f = None -> find CRLF (f ++ CRLF ++ rest) = Some (length f).
Proof.
  induction f as [|c f IH]; [reflexivity|].
  cbn [find]. destruct (starts_with CRLF (c :: f)) eqn:E; [discriminate|].
  destruct (find CRLF f) eqn:F; [discriminate|]. intros _.
  cbn [app find].
  assert (E' : starts_with CRLF (c :: f ++ CRLF ++ rest) = false).
  { unfold CRLF in *. cbn [starts_with app] in *.
    destruct (13 =? c); [|reflexivity]. cbn [andb] in *.
    destruct f as [|d f]; [reflexivity|]. cbn [app].
    destruct (10 =? d); [discriminate | reflexivity]. }
  rewrite E', (IH eq_refl). reflexivity.
Qed.

Section Reassembly.
Context `{PyLib}.

(** Text that arrives later is processed as if it had been in the buffer
    from the start: the loop over [buffer ++ y] does what the loop over
    [buffer] does and then goes on with what is left and [y]. *)
Lemma frames_loop_app s y :
  frames_loop (set_buffer (buffer s ++ y) s) =
  match frames_loop s with
  | Ret _ s1 => frames_loop (set_buffer (buffer s1 ++ y) s1)
  | Raise e s1 => Raise e (set_buffer (buffer s1 ++ y) s1)
  end.
Proof.
  remember (length (buffer s)) as n eqn:Hn. revert s Hn.
  induction n as [n IH] using lt_wf_ind. intros s Hn.
  rewrite (frames_loop_step s).
  destruct (find CRLF (buffer s)) as [idx|] eqn:Hf; [|reflexivity].
  rewrite (frames_loop_step (set_buffer (buffer s ++ y) s)).
  cbn [buffer set_buffer]. rewrite (find_app _ _ y _ Hf).
  pose proof (find_bound _ _ _ Hf) as Hb. cbn [length CRLF] in Hb.
  rewrite take_app_le, drop_app_le by lia.
  set (frame := strip (take (idx + 2) (buffer s))).
  set (rest := drop (idx + 2) (buffer s)).
  change (set_buffer (rest ++ y) (set_buffer (buffer s ++ y) s))
    with (set_buffer (rest ++ y) s).
  rewrite (blind_on_frame frame (rest ++ y) s), (blind_on_frame frame rest s).
  destruct (on_frame frame s) as [[] s2|e s2]; cbn [result_map];
    [|reflexivity].
  assert (Hlt : (length rest < n)%nat).
  { subst rest n. rewrite length_drop. lia. }
  exact (IH (length rest) Hlt (set_buffer rest s2) eq_refl).
Qed.

(** The loop only shortens the buffer, and when it returns no separator
    is left. *)
Lemma frames_loop_shrinks s :
  (length (buffer (final (frames_loop s))) <= length (buffer s))%nat.
Proof.
  remember (length (buffer s)) as n eqn:Hn. revert s Hn.
  induction n as [n IH] using lt_wf_ind. intros s Hn.
  rewrite (frames_loop_step s).
  destruct (find CRLF (buffer s)) as [idx|] eqn:Hf; [|cbn; lia].
  pose proof (find_bound _ _ _ Hf) as Hb. cbn [length CRLF] in Hb.
  set (frame := strip (take (idx + 2) (buffer s))).
  set (rest := drop (idx + 2) (buffer s)).
  pose proof (on_frame_buffer frame (set_buffer rest s)) as Hk.
  cbn [buffer set_buffer] in Hk.
  assert (Hr : length rest = (length (buffer s) - (idx + 2))%nat)
    by (subst rest; apply length_drop).
  destruct (on_frame frame (set_buffer rest s)) as [[] s2|e s2];
    cbn [final] in *.
  - assert (Hlt : (length (buffer s2) < n)%nat) by (rewrite Hk; lia).
    specialize (IH _ Hlt s2 eq_refl). lia.
  - rewrite Hk. lia.
Qed.

Lemma frames_loop_drained s s1 :
  frames_loop s = Ret tt s1 -> find CRLF (buffer s1) = None.
Proof.
  remember (length (buffer s)) as n eqn:Hn. revert s Hn.
  induction n as [n IH] using lt_wf_ind. intros s Hn.
  rewrite (frames_loop_step s).
  destruct (find CRLF (buffer s)) as [idx|] eqn:Hf; [|intros [= <-]; exact Hf].
  pose proof (find_bound _ _ _ Hf) as Hb. cbn [length CRLF] in Hb.
  set (frame := strip (take (idx + 2) (buffer s))).
  set (rest := drop (idx + 2) (buffer s)).
  pose proof (on_frame_buffer frame (set_buffer rest s)) as Hk.
  cbn [buffer set_buffer] in Hk.
  assert (Hr : length rest = (length (buffer s) - (idx + 2))%nat)
    by (subst rest; apply length_drop).
  destruct (on_frame frame (set_buffer rest s)) as [[] s2|e s2];
    cbn [final] in *; [|discriminate].
  assert (Hlt : (length (buffer s2) < n)%nat) by (rewrite Hk; lia).
  exact (IH _ Hlt s2 eq_refl).
Qed.

(** [data_received] on a chunk that decodes, when the buffer stays under
    its ceiling. *)
Lemma data_received_text data text s s1 :
  decode data = Some text ->
  frames_loop (set_buffer (buffer s ++ text) s) = Ret tt s1 ->
  (N.of_nat (length (buffer s ++ text)) <= buffer_limit)%N ->
  data_received data s = Ret tt s1.
Proof.
  intros Hd Hl Hb. unfold data_received, bind, catch, modify, gets, ret.
  rewrite Hd, Hl.
  pose proof (frames_loop_shrinks (set_buffer (buffer s ++ text) s)) as Hs.
  rewrite Hl in Hs. cbn [final buffer set_buffer] in Hs.
  assert (Hc : (buffer_limit <? N.of_nat (length (buffer s1))) = false).
  { apply N.ltb_ge. lia. }
  rewrite Hc. reflexivity.
Qed.

(** Chunks that decode and whose texts add up to [text] are processed like
    [text] in one piece, wherever the chunk boundaries fall. *)
Lemma deliver_concat chunks texts s s1 :
  Forall2 (fun data text => decode data = Some text) chunks texts ->
  find CRLF (buffer s) = None ->
  (N.of_nat (length (buffer s ++ concat texts)) <= buffer_limit)%N ->
  frames_loop (set_buffer (buffer s ++ concat texts) s) = Ret tt s1 ->
  deliver chunks s = Ret tt s1.
Proof.
  intros Hdec. revert s. induction Hdec as [|data text chunks texts Hd _ IH];
    intros s Hnone Hlim Hrun.
  - cbn [concat] in Hrun. rewrite app_nil_r, set_buffer_same in Hrun.
    rewrite frames_loop_step, Hnone in Hrun. exact Hrun.
  - cbn [concat] in Hrun, Hlim. rewrite app_assoc in Hrun, Hlim.
    change (set_buffer ((buffer s ++ text) ++ concat texts) s)
      with (set_buffer (buffer (set_buffer (buffer s ++ text) s)
                        ++ concat texts)
              (set_buffer (buffer s ++ text) s)) in Hrun.
    rewrite frames_loop_app in Hrun.
    pose proof (frames_loop_shrinks (set_buffer (buffer s ++ text) s)) as Hs.
    destruct (frames_loop (set_buffer (buffer s ++ text) s)) as [[] s2|e s2]
      eqn:Hl; [|discriminate].
    cbn [final buffer set_buffer] in Hs.
    rewrite !length_app in Hlim. rewrite length_app in Hs.
    cbn [deliver]. unfold bind.
    rewrite (data_received_text data text s s2 Hd Hl)
      by (rewrite length_app; lia).
    apply IH.
    + exact (frames_loop_drained _ _ Hl).
    + rewrite length_app. lia.
    + exact Hrun.
Qed.
End Reassembly.

(** *** A legal upload session *)

(** The frames of [frames] on the wire, each followed by the separator. *)
Definition wire_of (frames : list pystr) : pystr :=
  concat (map (fun f => f ++ CRLF) frames).

(** A DATA frame as sent, the message it parses to, the base64 text it
    carries and the bytes that text decodes to. *)
Record data_msg := {
  d_frame : pystr;
  d_message : list (pystr * json);
  d_text : pystr;
  d_payload : list byte
}.

Lemma open_wb_empty fs p fs' h :
  open_wb fs p = Some (fs', h) ->
  fs_files fs' !! h = Some [] /\ (fs_free fs <= fs_free fs')%N.
Proof.
  unfold open_wb. destruct (resolve fs p) as [[d c]|]; [|discriminate].
  destruct (names_dir c || is_dir fs (d ++ [c])); [discriminate|].
  destruct (fs_files fs !! (d ++ [c])).
  - intros [= <- <-]. cbn. rewrite lookup_insert_eq. split; [reflexivity | lia].
  - destruct (bool_decide _); [discriminate|]. intros [= <- <-]. cbn.
    rewrite lookup_insert_eq. split; [reflexivity | lia].
Qed.

Section Upload.
Context `{PyLib}.

(** The frame text [f] is one frame on the wire and parses to the message
    [m], whose type reads [T] in upper case. *)
Definition is_frame (f : pystr) (m : list (pystr * json)) (T : pystr) : Prop :=
  find CRLF f = None
  /\ json_loads (strip (f ++ CRLF)) = Some (JDict m)
  /\ exists t, dict_get (py "type") m = Some (JStr t) /\ upper t = T.

Definition is_data_frame (x : data_msg) : Prop :=
  is_frame (d_frame x) (d_message x) (py "DATA")
  /\ dict_get (py "data") (d_message x) = Some (JStr (d_text x))
  /\ b64decode (d_text x) = Some (d_payload x).

(** One round of the loop on a buffer that starts with a whole frame. *)
Lemma frames_loop_frame s f rest :
  buffer s = f ++ CRLF ++ rest -> find CRLF f = None ->
  frames_loop s =
  match on_frame (strip (f ++ CRLF)) (set_buffer rest s) with
  | Ret _ s' => frames_loop s'
  | Raise e s' => Raise e s'
  end.
Proof.
  intros Hb Hf. rewrite frames_loop_step, Hb, (find_frame f rest Hf).
  rewrite app_assoc.
  rewrite take_app_length' by (rewrite length_app; reflexivity).
  rewrite drop_app_length' by (rewrite length_app; reflexivity).
  reflexivity.
Qed.

Lemma process_open_success message s s' :
  process_open message s = Ret true s' ->
  exists h, file s' = Some h /\ fs_files (fs s') !! h = Some []
            /\ state s' = STATE_OPEN.
Proof.
  cbv [process_open bind gets ret raise modify _send].
  cases; try discriminate; intros [= <-];
    cbn [file fs state set_state set_file_path set_file_name set_transport
         set_file set_fs] in *;
    match goal with
    | E : open_wb _ _ = Some _ |- _ => apply open_wb_empty in E as [E _]
    end; eauto.
Qed.

Lemma process_data_write message text payload h s :
  state s = STATE_OPEN \/ state s = STATE_DATA ->
  file s = Some h ->
  dict_get (py "data") message = Some (JStr text) ->
  b64decode text = Some payload ->
  (N.of_nat (length payload) <= fs_free (fs s))%N ->
  exists s',
    process_data message s = Ret true s'
    /\ state s' = STATE_DATA /\ file s' = Some h /\ buffer s' = buffer s
    /\ fs_files (fs s') !! h
       = Some (default [] (fs_files (fs s) !! h) ++ payload)
    /\ fs_free (fs s') = (fs_free (fs s) - N.of_nat (length payload))%N.
Proof.
  intros Hst Hf Hd Hb Hfree.
  cbv [process_data bind gets ret modify]. rewrite Hd, Hb.
  assert (Hw : file_write (fs s) h payload
               = Some {| fs_cwd := fs_cwd (fs s); fs_dirs := fs_dirs (fs s);
                         fs_ro := fs_ro (fs s);
                         fs_files := <[h := default [] (fs_files (fs s) !! h)
                                             ++ payload]> (fs_files (fs s));
                         fs_free := fs_free (fs s)
                                    - N.of_nat (length payload) |}).
  { unfold file_write. apply N.leb_le in Hfree. rewrite Hfree. reflexivity. }
  destruct Hst as [Hst|Hst]; rewrite Hst; cbv beta iota;
    cbn [negb file fs set_state]; rewrite Hf, Hw; cbv beta iota;
    eexists; (split; [reflexivity|]);
    cbn [state file buffer fs set_fs set_state fs_files fs_free];
    rewrite lookup_insert_eq; auto.
Qed.

(** The DATA frames at the head of the buffer are written to the open
    file one after the other. *)
Lemma data_frames_written datas : forall s h acc tail,
  Forall is_data_frame datas ->
  state s = STATE_OPEN \/ state s = STATE_DATA ->
  file s = Some h ->
  fs_files (fs s) !! h = Some acc ->
  buffer s = wire_of (map d_frame datas) ++ tail ->
  (N.of_nat (length (concat (map d_payload datas))) <= fs_free (fs s))%N ->
  exists s',
    frames_loop s = frames_loop s'
    /\ (state s' = STATE_OPEN \/ state s' = STATE_DATA)
    /\ file s' = Some h /\ buffer s' = tail
    /\ fs_files (fs s') !! h = Some (acc ++ concat (map d_payload datas)).
Proof.
  induction datas as [|x datas IH]; intros s h acc tail Hall Hst Hf Hc Hb Hfree.
  - exists s. cbn in *. rewrite app_nil_r. auto.
  - apply Forall_cons in Hall as [Hx Hall].
    destruct Hx as ((Hnone & Hj & t & Ht & Hu) & Hd & Hdec).
    cbn [map concat wire_of] in Hb, Hfree. fold (wire_of (map d_frame datas)) in Hb.
    rewrite <- !app_assoc in Hb. rewrite length_app in Hfree.
    rewrite (frames_loop_frame s _ _ Hb Hnone).
    rewrite (on_frame_message _ _ _ _ Hj Ht), Hu, dispatch_DATA.
    destruct (process_data_write (d_message x) (d_text x) (d_payload x) h
                (set_buffer (wire_of (map d_frame datas) ++ tail) s))
      as (s1 & Hp & Hst1 & Hf1 & Hb1 & Hc1 & Hfree1); auto; [cbn; lia|].
    rewrite Hp. cbn [fs set_buffer buffer] in *. rewrite Hc in Hc1.
    cbn [from_option id] in Hc1.
    destruct (IH s1 h (acc ++ d_payload x) tail) as (s' & Hl & Hrest); auto.
    { rewrite Hfree1. lia. }
    exists s'. split; [exact Hl|]. cbn [map concat].
    rewrite app_assoc. exact Hrest.
Qed.

(** A legal session, OPEN then DATA frames then CLOSE, received in the
    state CONNECT in chunks that each decode and stay under the buffer
    ceiling, with an OPEN that succeeds and room for the payloads: however
    the text is cut into chunks, the run returns, the file that OPEN
    opened holds the decoded payloads in arrival order, the file object
    is released and the state is CLOSE. *)
Theorem upload_stored chunks texts open_f open_m datas close_f close_m s s_o :
  state s = STATE_CONNECT ->
  buffer s = [] ->
  Forall2 (fun data text => decode data = Some text) chunks texts ->
  concat texts
  = open_f ++ CRLF ++ wire_of (map d_frame datas) ++ close_f ++ CRLF ->
  (N.of_nat (length (concat texts)) <= buffer_limit)%N ->
  is_frame open_f open_m (py "OPEN") ->
  process_open open_m s = Ret true s_o ->
  Forall is_data_frame datas ->
  is_frame close_f close_m (py "CLOSE") ->
  (N.of_nat (length (concat (map d_payload datas))) <= fs_free (fs s_o))%N ->
  exists s_end h,
    deliver chunks s = Ret tt s_end
    /\ file s_o = Some h
    /\ fs_files (fs s_end) !! h = Some (concat (map d_payload datas))
    /\ state s_end = STATE_CLOSE
    /\ file s_end = None
    /\ buffer s_end = [].
Proof.
  intros Hst Hbuf Hdec Hwire Hlim (Ho_none & Ho_j & to & Ho_t & Ho_u)
    Hopen Hdatas (Hc_none & Hc_j & tc & Hc_t & Hc_u) Hfree.
  destruct (process_open_success _ _ _ Hopen) as (h & Hfile & Hcontent & Hso).
  set (rest := wire_of (map d_frame datas) ++ close_f ++ CRLF) in *.
  (* the OPEN frame *)
  assert (Hopen' : process_open open_m (set_buffer rest s)
                   = Ret true (set_buffer rest s_o)).
  { rewrite blind_process_open, Hopen. reflexivity. }
  (* the DATA frames *)
  destruct (data_frames_written datas (set_buffer rest s_o) h []
              (close_f ++ CRLF))
    as (s_d & Hloop_d & Hst_d & Hf_d & Hb_d & Hc_d); auto.
  (* the CLOSE frame *)
  set (s_c := set_state STATE_CLOSE
                (set_file None
                   (set_transport (transport (set_buffer [] s_d) ++ [Close])
                      (set_buffer [] s_d)))).
  exists s_c, h.
  split; [|split; [exact Hfile|]; split; [exact Hc_d|]; repeat split].
  apply (deliver_concat chunks texts); auto.
  { rewrite Hbuf. reflexivity. }
  { rewrite Hbuf. exact Hlim. }
  rewrite Hbuf. cbn [app]. rewrite Hwire. fold rest.
  rewrite (frames_loop_frame (set_buffer (open_f ++ CRLF ++ rest) s)
             open_f rest eq_refl Ho_none).
  cbn [set_buffer buffer].
  change (set_buffer rest (set_buffer (open_f ++ CRLF ++ rest) s))
    with (set_buffer rest s).
  rewrite (on_frame_message _ _ _ _ Ho_j Ho_t), Ho_u, dispatch_OPEN, Hopen'.
  rewrite Hloop_d.
  assert (Hb_d' : buffer s_d = close_f ++ CRLF ++ [])
    by (rewrite app_nil_r; exact Hb_d).
  rewrite (frames_loop_frame _ close_f [] Hb_d' Hc_none).
  rewrite (on_frame_message _ _ _ _ Hc_j Hc_t), Hc_u, dispatch_CLOSE.
  rewrite process_close_eq. fold s_c.
  rewrite frames_loop_step. reflexivity.
Qed.
End Upload.

(* ===================================================================== *)
(** ** Runs on a concrete machine *)
(* ===================================================================== *)

(** A server started in [/srv] with the default [-d files]: the directory
    [/srv] exists and is empty. *)
Definition disk : FS :=
  {| fs_cwd := [py "srv"]; fs_dirs := {[ [py "srv"] ]}; fs_ro := ∅;
     fs_files := ∅; fs_free := 4096 |}.

(** The handler of a new connection of that server, after
    [connection_made]. *)
Definition connected : ClientHandler :=
  final (connection_made (H := RefLib.ref_lib) {| dh_p := 23; dh_g := 5 |} 6
           (init (os_path_abspath disk (py "files")) disk)).

Definition open_frame : pystr := js "{'type':'OPEN','file_name':'a.txt'}".
Definition data_frame : pystr := js "{'type':'DATA','data':'aGVsbG8='}".
Definition close_frame : pystr := js "{'type':'CLOSE'}".

(** The same handler after a successful OPEN. *)
Definition opened : ClientHandler :=
  final (on_frame (H := RefLib.ref_lib) open_frame connected).

Example connected_state :
  state connected = STATE_CONNECT /\ storage_dir connected = py "/srv/files"
  /\ file connected = None.
Proof. vm_compute. auto. Qed.

Example opened_state :
  state opened = STATE_OPEN
  /\ file opened = Some [py "srv"; py "files"; py "a.txt"]
  /\ fs_files (fs opened) !! [py "srv"; py "files"; py "a.txt"] = Some [].
Proof. vm_compute. auto. Qed.

(** *** Out-of-order messages *)

Lemma out_of_order_rejected_witness :
  on_frame (H := RefLib.ref_lib) data_frame connected
  = Ret tt (rejected (H := RefLib.ref_lib) connected).
Proof.
  apply (out_of_order_rejected (H := RefLib.ref_lib) data_frame
           [item "type" (JStr (py "DATA")); item "data" (JStr (py "aGVsbG8="))]
           (py "DATA") connected).
  - reflexivity.
  - reflexivity.
  - left. split; [reflexivity|]. split; discriminate.
Defined.

(** *** A write the device refuses *)




(** *** Key exchange outside CONNECT *)

(** The frame a peer answers the server's DH_KEY_EXCHANGE with: its public
    value for the exponent 15 in the group of the connection. *)
Definition peer_key_frame : pystr :=
  RefLib.dumps
    (JDict [item "type" (JStr (py "DH_KEY_EXCHANGE"));
            item "data"
              (JDict [item "pub_key"
                        (JStr (RefLib.pem_of
                                 (RefLib.public_of
                                    {| priv_params := {| dh_p := 23; dh_g := 5 |};
                                       priv_x := 15 |})))])]).

(** C4, counterexample.  After a successful OPEN the state is OPEN, and a
    DH_KEY_EXCHANGE frame is still handled: the key is stored, no error
    frame is written, nothing is closed and the state stays OPEN. *)
Lemma key_exchange_accepted_in_open :
  state opened = STATE_OPEN
  /\ on_frame (H := RefLib.ref_lib) peer_key_frame opened
     <> Ret tt (rejected (H := RefLib.ref_lib) opened)
  /\ exists k,
      on_frame (H := RefLib.ref_lib) peer_key_frame opened
      = Ret tt (set_key (Some k) opened).
Proof.
  split; [reflexivity|]. split.
  - vm_compute. discriminate.
  - eexists. vm_compute. reflexivity.
Defined.

Lemma negotiate_gated_key_exchange_not_witness :
  on_frame (H := RefLib.ref_lib)
    (js "{'type':'NEGOTIATE','ciphers':['AES'],'modes':['GCM'],'sinteses':['SHA-256']}")
    opened
  = Ret tt (rejected (H := RefLib.ref_lib) opened)
  /\ exists s',
      on_frame (H := RefLib.ref_lib) peer_key_frame opened = Ret tt s'
      /\ state s' = state opened
      /\ on_frame (H := RefLib.ref_lib) peer_key_frame
           (set_state STATE_DATA opened)
         = Ret tt (set_state STATE_DATA s').
Proof.
  split.
  - refine (proj1 (proj1
              (negotiate_gated_key_exchange_not (H := RefLib.ref_lib)
                 (js "{'type':'NEGOTIATE','ciphers':['AES'],'modes':['GCM'],'sinteses':['SHA-256']}")
                 [item "type" (JStr (py "NEGOTIATE"));
                  item "ciphers" (JList [JStr (py "AES")]);
                  item "modes" (JList [JStr (py "GCM")]);
                  item "sinteses" (JList [JStr (py "SHA-256")])]
                 (py "NEGOTIATE") opened _ _) _) _).
    + vm_compute. reflexivity.
    + reflexivity.
    + reflexivity.
    + vm_compute. discriminate.
  - eexists.
    pose proof (proj2 (proj2
                  (negotiate_gated_key_exchange_not (H := RefLib.ref_lib)
                     peer_key_frame _ (py "DH_KEY_EXCHANGE") opened
                     ltac:(vm_compute; reflexivity) eq_refl) eq_refl)
                  _ ltac:(vm_compute; reflexivity)) as (Hrun & Hst & Hall).
    split; [exact Hrun|]. split; [exact Hst|].
    exact (proj1 (Hall STATE_DATA)).
Defined.

(** *** Negotiation twice *)

Definition negotiate_frame : pystr :=
  js ("{'type':'NEGOTIATE','ciphers':['AES','ChaCha20'],"
      ++ "'modes':['CBC','GCM'],'sinteses':['SHA-256','SHA-512']}").

Definition negotiate_des : list (pystr * json) :=
  [item "type" (JStr (py "NEGOTIATE"));
   item "ciphers" (JList [JStr (py "DES")]);
   item "modes" (JList [JStr (py "GCM")]);
   item "sinteses" (JList [JStr (py "SHA-512")])].

(** The handler after one successful negotiation. *)
Definition negotiated : ClientHandler :=
  final (on_frame (H := RefLib.ref_lib) negotiate_frame connected).

(** C7, counterexample.  A second NEGOTIATE in the state CONNECT that
    offers no supported cipher fails at the first category, so nothing is
    chosen before the failing one; the response still names the cipher,
    the mode and the digest of the earlier negotiation, not three nulls. *)
Lemma failed_negotiation_echoes_old_choice :
  state negotiated = STATE_CONNECT
  /\ prefer (py "ChaCha20") (py "AES") [JStr (py "DES")] = None
  /\ process_negotiate (H := RefLib.ref_lib) negotiate_des negotiated
     = Ret false
         (set_transport
            (transport negotiated
             ++ [Write (RefLib.dumps
                          (cipher_chosen (Some (py "ChaCha20"))
                             (Some (py "GCM")) (Some (py "SHA-512")))
                        ++ CRLF)])
            negotiated)
  /\ RefLib.dumps (cipher_chosen (Some (py "ChaCha20")) (Some (py "GCM"))
                     (Some (py "SHA-512")))
     <> RefLib.dumps (cipher_chosen None None None).
Proof.
  split; [reflexivity|]. split; [reflexivity|]. split.
  - vm_compute. reflexivity.
  - vm_compute. discriminate.
Defined.

Lemma negotiate_response_witness :
  process_negotiate (H := RefLib.ref_lib) negotiate_des connected
  = Ret false (responded (H := RefLib.ref_lib) connected).
Proof.
  exact (proj1 (proj1 (proj2 (negotiate_response (H := RefLib.ref_lib)
                                negotiate_des connected eq_refl))
                  [JStr (py "DES")] [JStr (py "GCM")] [JStr (py "SHA-512")]
                  eq_refl eq_refl eq_refl)).
Defined.

(** *** Frames that do not parse, and messages without a type *)

(** C2, evaluated.  With a file open, the frame [{not json] only closes
    the transport: no error frame is written, the file object stays, the
    state stays OPEN.  A JSON object without ["type"], a JSON array and
    a ["type"] that is a number leave [on_frame] as an exception with
    nothing written or closed. *)
Lemma malformed_frame_not_fail_closed :
  on_frame (H := RefLib.ref_lib) (py "{not json") opened
  = Ret tt (set_transport (transport opened ++ [Close]) opened)
  /\ state (final (on_frame (H := RefLib.ref_lib) (py "{not json") opened))
     = STATE_OPEN
  /\ file (final (on_frame (H := RefLib.ref_lib) (py "{not json") opened))
     = Some [py "srv"; py "files"; py "a.txt"]
  /\ on_frame (H := RefLib.ref_lib) (py "{not json") opened
     <> Ret tt (rejected (H := RefLib.ref_lib) opened)
  /\ on_frame (H := RefLib.ref_lib) (js "{'file_name':'a.txt'}") opened
     = Raise KeyError opened
  /\ on_frame (H := RefLib.ref_lib) (js "[1]") opened
     = Raise AttributeError opened
  /\ on_frame (H := RefLib.ref_lib) (js "{'type':5}") opened
     = Raise AttributeError opened.
Proof.
  repeat split; try (vm_compute; reflexivity).
  vm_compute. discriminate.
Qed.

(** *** A peer key that does not load *)

(** C3, evaluated.  A DH_KEY_EXCHANGE frame whose [pub_key] is no PEM text
    leaves [on_frame] as a ValueError: the handler is what it was, so no
    error frame is written and the transport is not closed. *)
Lemma malformed_peer_key_raises :
  on_frame (H := RefLib.ref_lib)
    (js "{'type':'DH_KEY_EXCHANGE','data':{'pub_key':'garbage'}}") connected
  = Raise ValueError connected
  /\ on_frame (H := RefLib.ref_lib)
       (js "{'type':'DH_KEY_EXCHANGE','data':{'pub_key':'garbage'}}") connected
     <> Ret tt (rejected (H := RefLib.ref_lib) connected)
  /\ on_frame (H := RefLib.ref_lib) (js "{'type':'DH_KEY_EXCHANGE'}") connected
     = Raise AttributeError connected.
Proof.
  repeat split; try (vm_compute; reflexivity).
  vm_compute. discriminate.
Qed.

(** *** A storage root other than [files] *)

(** A server started in [/home/app] with [-d /srv/uploads]; neither
    [/srv/uploads] nor [/home/app/files] exists. *)
Definition disk_d : FS :=
  {| fs_cwd := [py "home"; py "app"];
     fs_dirs := {[ [py "home"]; [py "home"; py "app"]; [py "srv"] ]};
     fs_ro := ∅; fs_files := ∅; fs_free := 4096 |}.

Definition connected_d : ClientHandler :=
  final (connection_made (H := RefLib.ref_lib) {| dh_p := 23; dh_g := 5 |} 6
           (init (os_path_abspath disk_d (py "/srv/uploads")) disk_d)).

(** C5, evaluated.  The configured root [/srv/uploads] is missing; the
    OPEN handler creates [/home/app/files] instead, the root is still
    missing afterwards, the open fails and no file exists.  (With the
    default root, [opened_state] above, the directory it creates is the
    root and the open succeeds.) *)
Lemma configured_root_not_created :
  storage_dir connected_d = py "/srv/uploads"
  /\ os_path_exists (fs connected_d) (py "/srv/uploads") = false
  /\ returned (process_open (H := RefLib.ref_lib)
                 [item "type" (JStr (py "OPEN"));
                  item "file_name" (JStr (py "a.txt"))] connected_d)
     = Some false
  /\ (let after := fs (final (process_open (H := RefLib.ref_lib)
                                [item "type" (JStr (py "OPEN"));
                                 item "file_name" (JStr (py "a.txt"))]
                                connected_d)) in
      os_path_exists after (py "/srv/uploads") = false
      /\ os_path_exists after (py "/home/app/files") = true
      /\ fs_files after = ∅).
Proof.
  split; [vm_compute; reflexivity|]. split; [vm_compute; reflexivity|].
  split; [vm_compute; reflexivity|]. cbv zeta.
  split; [vm_compute; reflexivity|]. split; vm_compute; reflexivity.
Qed.

(** *** A frame in two chunks *)

(** The OPEN frame cut in the middle of the word OPEN is put together
    again and processed once, like the frame in one piece. *)
Example open_frame_in_two_chunks :
  deliver (H := RefLib.ref_lib)
    [ascii_bytes (js "{'type':'OP");
     ascii_bytes (js "EN','file_name':'a.txt'}" ++ CRLF)] connected
  = Ret tt opened
  /\ deliver (H := RefLib.ref_lib) [ascii_bytes (open_frame ++ CRLF)] connected
     = Ret tt opened.
Proof. split; vm_compute; reflexivity. Qed.

(** *** A chunk boundary inside a character *)

(** The frame [{"type":"OPEN","file_name":"é.txt"}] in UTF-8, cut between
    the two bytes of [é]. *)
Definition accent_head : list byte :=
  ascii_bytes (js "{'type':'OPEN','file_name':'") ++ [byte_of 195].
Definition accent_tail : list byte :=
  byte_of 169 :: ascii_bytes (js ".txt'}" ++ CRLF).
Definition upload_rest : list byte :=
  ascii_bytes (data_frame ++ CRLF ++ close_frame ++ CRLF).

(** C1, evaluated.  Delivered in one piece, the OPEN frame is processed
    and the session stores the decoded payload.  Delivered in two chunks
    that meet inside the character, neither chunk decodes, both are
    dropped, the OPEN frame is never processed, the DATA frame that
    follows is rejected and nothing is stored. *)
Lemma split_inside_character_loses_frame :
  decode (accent_head ++ accent_tail)
  = Some (js "{'type':'OPEN','file_name':'" ++ 233 :: js ".txt'}" ++ CRLF)
  /\ decode accent_head = None
  /\ decode accent_tail = None
  /\ fs_files (fs (final (deliver (H := RefLib.ref_lib)
                            [accent_head ++ accent_tail; upload_rest]
                            connected)))
     = {[ [py "srv"; py "files"; 233 :: py ".txt"] := bytes_of "hello" ]}
  /\ buffer (final (deliver (H := RefLib.ref_lib) [accent_head; accent_tail]
                      connected)) = []
  /\ state (final (deliver (H := RefLib.ref_lib) [accent_head; accent_tail]
                     connected)) = STATE_CONNECT
  /\ fs_files (fs (final (deliver (H := RefLib.ref_lib)
                            [accent_head; accent_tail; upload_rest]
                            connected)))
     = ∅.
Proof.
  split; [vm_compute; reflexivity|]. split; [vm_compute; reflexivity|].
  split; [vm_compute; reflexivity|]. split; [vm_compute; reflexivity|].
  split; [vm_compute; reflexivity|]. split; vm_compute; reflexivity.
Qed.

(** *** A requested name that sanitizes to two dots *)

(** C8, counterexample.  The requested name [/../] sanitizes to [..], which
    holds no separator; joined to the storage root [/srv/files] it names
    [/srv], the parent of the root, which is not under the root. *)
Lemma dotdot_leaves_root :
  sanitize (H := RefLib.ref_lib) (py "/../") = py ".."
  /\ os_path_join (py "/srv/files") (py "..") = py "/srv/files/.."
  /\ location (py "/srv/files/..") = [py "srv"]
  /\ ~ [py "srv"; py "files"] `prefix_of` location (py "/srv/files/..")
  /\ os_path_exists (fs opened) (py "/srv/files/..") = true.
Proof.
  repeat split; try (vm_compute; reflexivity).
  intros [k Hk]. vm_compute in Hk. discriminate.
Defined.

Example sanitize_passwd :
  sanitize (H := RefLib.ref_lib) (py "../../etc/passwd") = py "....etcpasswd".
Proof. reflexivity. Qed.

Lemma sanitized_name_confined_witness :
  location (os_path_join (render [py "srv"; py "files"])
              (sanitize (H := RefLib.ref_lib) (py "../../etc/passwd")))
  = [py "srv"; py "files"; py "....etcpasswd"].
Proof.
  refine (eq_trans
            (proj1 (proj2 (proj2 (proj2
               (sanitized_name_confined (H := RefLib.ref_lib)
                  (py "../../etc/passwd") [py "srv"; py "files"] _))))) _).
  - repeat constructor; try discriminate;
      cbn; intuition discriminate.
  - reflexivity.
Defined.

(** *** An upload in three chunks *)

Definition upload_wire : pystr :=
  open_frame ++ CRLF ++ data_frame ++ CRLF ++ close_frame ++ CRLF.

Definition hello_msg : data_msg :=
  {| d_frame := data_frame;
     d_message := [item "type" (JStr (py "DATA"));
                   item "data" (JStr (py "aGVsbG8="))];
     d_text := py "aGVsbG8=";
     d_payload := bytes_of "hello" |}.

Lemma upload_stored_witness :
  exists s_end h,
    deliver (H := RefLib.ref_lib)
      [ascii_bytes (take 10 upload_wire);
       ascii_bytes (drop 10 (take 50 upload_wire));
       ascii_bytes (drop 50 upload_wire)] connected = Ret tt s_end
    /\ file opened = Some h
    /\ fs_files (fs s_end) !! h = Some (bytes_of "hello")
    /\ state s_end = STATE_CLOSE
    /\ file s_end = None
    /\ buffer s_end = [].
Proof.
  apply (upload_stored (H := RefLib.ref_lib)
           [ascii_bytes (take 10 upload_wire);
            ascii_bytes (drop 10 (take 50 upload_wire));
            ascii_bytes (drop 50 upload_wire)]
           [take 10 upload_wire; drop 10 (take 50 upload_wire);
            drop 50 upload_wire]
           open_frame
           [item "type" (JStr (py "OPEN")); item "file_name" (JStr (py "a.txt"))]
           [hello_msg] close_frame [item "type" (JStr (py "CLOSE"))]
           connected opened).
  - reflexivity.
  - reflexivity.
  - repeat constructor.
  - vm_compute. reflexivity.
  - apply N.leb_le. vm_compute. reflexivity.
  - split; [reflexivity|]. split; [vm_compute; reflexivity|].
    exists (py "OPEN"). split; reflexivity.
  - vm_compute. reflexivity.
  - constructor; [|constructor].
    split; [|split; [reflexivity | vm_compute; reflexivity]].
    split; [reflexivity|]. split; [vm_compute; reflexivity|].
    exists (py "DATA"). split; reflexivity.
  - split; [reflexivity|]. split; [vm_compute; reflexivity|].
    exists (py "CLOSE"). split; reflexivity.
  - apply N.leb_le. vm_compute. reflexivity.
Defined.

(* ===================================================================== *)
(** ** CLOSE, unknown types and the terminal state *)
(* ===================================================================== *)

(** The handler after [process_close]: transport closed, no file object,
    terminal state; nothing else differs. *)
Definition closed (s : ClientHandler) : ClientHandler :=
  set_state STATE_CLOSE
    (set_file None (set_transport (transport s ++ [Close]) s)).

(** The position of a state on the path CONNECT, OPEN, DATA, CLOSE. *)
Definition rank (st : State) : nat :=
  match st with
  | STATE_CONNECT => 0
  | STATE_OPEN => 1
  | STATE_DATA => 2
  | STATE_CLOSE => 3
  end.

(** State, file object and file system together. *)
Definition resting (s : ClientHandler) : State * option path * FS :=
  (state s, file s, fs s).

Section Closing.
Context `{PyLib}.

(** A CLOSE message is accepted in every state: the transport is closed,
    the file object released, the state becomes CLOSE, nothing is written
    to the peer and the file system is not touched; a second CLOSE does
    the same again and only adds one more close of the transport. *)
Theorem close_from_any_state frame message t s :
  json_loads frame = Some (JDict message) ->
  dict_get (py "type") message = Some (JStr t) ->
  upper t = py "CLOSE" ->
  on_frame frame s = Ret tt (closed s)
  /\ on_frame frame (closed s) = Ret tt (closed (closed s))
  /\ resting (closed (closed s)) = resting (closed s)
  /\ resting (closed s) = (STATE_CLOSE, None, fs s)
  /\ transport (closed (closed s)) = transport s ++ [Close; Close].
Proof.
  intros Hj Ht Hu.
  assert (Hc : forall s0, on_frame frame s0 = Ret tt (closed s0)).
  { intros s0. rewrite (on_frame_message _ _ _ _ Hj Ht), Hu, dispatch_CLOSE.
    reflexivity. }
  repeat split; try apply Hc.
  cbn. rewrite <- app_assoc. reflexivity.
Qed.

(** A message whose type, in upper case, is none of the five known ones
    takes the fatal path. *)
Theorem unknown_type_rejected frame message t s :
  json_loads frame = Some (JDict message) ->
  dict_get (py "type") message = Some (JStr t) ->
  upper t <> py "DH_KEY_EXCHANGE" -> upper t <> py "OPEN" ->
  upper t <> py "DATA" -> upper t <> py "CLOSE" ->
  upper t <> py "NEGOTIATE" ->
  on_frame frame s = Ret tt (rejected s)
  /\ fs (rejected s) = fs s.
Proof.
  intros Hj Ht H1 H2 H3 H4 H5. split; [|reflexivity].
  rewrite (on_frame_message _ _ _ _ Hj Ht). unfold dispatch.
  assert (Hne : forall k, upper t <> k -> pystr_eqb (upper t) k = false).
  { intros k Hk. destruct (pystr_eqb (upper t) k) eqn:E; [|reflexivity].
    apply pystr_eqb_eq in E. contradiction. }
  rewrite !Hne by assumption. rewrite Ht. reflexivity.
Qed.

Lemma process_open_accepts_in_connect message s s' :
  process_open message s = Ret true s' -> state s = STATE_CONNECT.
Proof.
  destruct (state s) eqn:Hs; [reflexivity | | |];
    rewrite process_open_illegal by congruence; discriminate.
Qed.

Lemma process_data_state message s :
  state (final (process_data message s)) = state s
  \/ (state s = STATE_OPEN /\ state (final (process_data message s)) = STATE_DATA).
Proof.
  cbv [process_data bind gets ret raise modify].
  destruct (state s) eqn:Hs; cbv beta iota; cbn [negb];
    cases; cbn [final state set_state set_fs]; auto.
Qed.

(** What a handler does to the state: it stays, or it moves forward. *)
Lemma dispatch_rank t message s :
  match dispatch t message s with
  | Ret true s' | Raise _ s' => (rank (state s) <= rank (state s'))%nat
  | Ret false _ => True
  end.
Proof.
  unfold dispatch.
  destruct (pystr_eqb t (py "DH_KEY_EXCHANGE")).
  { assert (Hk : forall v, state (final (get_key v s)) = state s).
    { intros v. pose proof (get_key_stage v s) as Hs. unfold stage in Hs.
      congruence. }
    destruct (dict_get (py "data") message) as [[| | | | | |data]|];
      try (cbv [raise]; cbv beta iota; lia).
    specialize (Hk (default JNull (dict_get (py "pub_key") data))).
    destruct (get_key _ s) as [[|] s'|e s']; cbn [final] in Hk;
      try rewrite Hk; auto. }
  destruct (pystr_eqb t (py "OPEN")).
  { pose proof (process_open_outcome message s) as Ho.
    destruct (process_open message s) as [[|] s'|e s'] eqn:E; auto.
    - destruct Ho as [-> _].
      rewrite (process_open_accepts_in_connect _ _ _ E). cbn. lia.
    - unfold stage in Ho. injection Ho as -> _. lia. }
  destruct (pystr_eqb t (py "DATA")).
  { pose proof (process_data_state message s) as Hd.
    pose proof (process_data_outcome message s) as Ho.
    destruct (process_data message s) as [[|] s'|e s'];
      [|exact I|contradiction].
    cbn [final] in Hd. destruct Hd as [-> | [-> ->]]; cbn; lia. }
  destruct (pystr_eqb t (py "CLOSE")).
  { rewrite process_close_eq. cbn. destruct (state s); cbn; lia. }
  destruct (pystr_eqb t (py "NEGOTIATE")).
  { pose proof (process_negotiate_stage message s) as Hs. unfold stage in Hs.
    destruct (process_negotiate message s) as [[|] s'|e s']; cbn in Hs; auto;
      injection Hs as -> _; lia. }
  destruct (dict_get (py "type") message); cbn; auto.
Qed.

Lemma on_frame_rank frame s :
  (rank (state s) <= rank (state (final (on_frame frame s))))%nat.
Proof.
  unfold on_frame.
  destruct (json_loads frame) as [[| | | | | |message]|];
    try (cbn [final transport_close modify raise state set_transport]; lia).
  destruct (default (JStr []) (dict_get (py "type") message))
    as [| | | |t| |]; try (cbn [final raise]; lia).
  unfold bind. pose proof (dispatch_rank (upper t) message s) as Hd.
  destruct (dispatch (upper t) message s) as [[|] s'|e s'];
    cbv [negb]; cbv beta iota; cbn [final]; auto.
  rewrite fail_closed_eq. cbn. destruct (state s); cbn; lia.
Qed.

Lemma frames_loop_rank s :
  (rank (state s) <= rank (state (final (frames_loop s))))%nat.
Proof.
  remember (length (buffer s)) as n eqn:Hn. revert s Hn.
  induction n as [n IH] using lt_wf_ind. intros s Hn.
  rewrite (frames_loop_step s).
  destruct (find CRLF (buffer s)) as [idx|] eqn:Hf; [|cbn; lia].
  pose proof (find_bound _ _ _ Hf) as Hb. cbn [length CRLF] in Hb.
  set (frame := strip (take (idx + 2) (buffer s))).
  set (rest := drop (idx + 2) (buffer s)).
  pose proof (on_frame_buffer frame (set_buffer rest s)) as Hk.
  pose proof (on_frame_rank frame (set_buffer rest s)) as Hr.
  cbn [buffer state set_buffer] in Hk, Hr.
  assert (Hl : length rest = (length (buffer s) - (idx + 2))%nat)
    by (subst rest; apply length_drop).
  destruct (on_frame frame (set_buffer rest s)) as [[] s2|e s2];
    cbn [final] in *; [|exact Hr].
  assert (Hlt : (length (buffer s2) < n)%nat) by (rewrite Hk; lia).
  specialize (IH _ Hlt s2 eq_refl). lia.
Qed.

Lemma data_received_rank data s :
  (rank (state s) <= rank (state (final (data_received data s))))%nat.
Proof.
  unfold data_received, bind, catch, gets, modify, raise, ret.
  assert (Hl : forall s0, state s0 = state s ->
                 (rank (state s) <= rank (state (final (frames_loop s0))))%nat).
  { intros s0 Hs. rewrite <- Hs. apply frames_loop_rank. }
  destruct (decode data) as [text|]; cbv beta iota.
  all: match goal with
       | |- context [frames_loop ?x] =>
         specialize (Hl x eq_refl);
         destruct (frames_loop x) as [[] s1|e s1]; cbv beta iota;
         [|exact Hl]
       end.
  all: destruct (buffer_limit <? N.of_nat (length (buffer s1)));
    cbv beta iota; exact Hl.
Qed.

(** The state of a connection never goes back: after any frame, any chunk
    and any sequence of chunks, whether the method returns or raises, the
    state is where it was or further along CONNECT, OPEN, DATA, CLOSE. *)
Theorem state_never_goes_back :
  (forall frame s, (rank (state s) <= rank (state (final (on_frame frame s))))%nat)
  /\ (forall data s,
        (rank (state s) <= rank (state (final (data_received data s))))%nat)
  /\ (forall chunks s,
        (rank (state s) <= rank (state (final (deliver chunks s))))%nat).
Proof.
  split; [exact on_frame_rank|]. split; [exact data_received_rank|].
  induction chunks as [|data rest IH]; intros s; [cbn; lia|].
  cbn [deliver]. unfold bind.
  pose proof (data_received_rank data s) as Hd.
  destruct (data_received data s) as [[] s1|e s1]; cbn [final] in *;
    [|exact Hd].
  specialize (IH s1). lia.
Qed.
End Closing.

(* ===================================================================== *)
(** ** Properties kept along a whole connection *)
(* ===================================================================== *)

Section Runs.
Context `{PyLib}.

(** A property of the handler that does not depend on the buffer, that
    closing the transport keeps and that every frame keeps is kept by the
    frame loop, by every chunk and by every sequence of chunks, whether
    the method returns or raises. *)
Lemma frames_loop_keeps (P : ClientHandler -> Prop) :
  (forall b s, P s -> P (set_buffer b s)) ->
  (forall frame s, P s -> P (final (on_frame frame s))) ->
  forall s, P s -> P (final (frames_loop s)).
Proof.
  intros Hbuf Hframe s.
  remember (length (buffer s)) as n eqn:Hn. revert s Hn.
  induction n as [n IH] using lt_wf_ind. intros s Hn HP.
  rewrite (frames_loop_step s).
  destruct (find CRLF (buffer s)) as [idx|] eqn:Hf; [|exact HP].
  pose proof (find_bound _ _ _ Hf) as Hb. cbn [length CRLF] in Hb.
  set (frame := strip (take (idx + 2) (buffer s))).
  set (rest := drop (idx + 2) (buffer s)).
  pose proof (on_frame_buffer frame (set_buffer rest s)) as Hk.
  pose proof (Hframe frame (set_buffer rest s) (Hbuf rest s HP)) as Hr.
  cbn [buffer set_buffer] in Hk.
  assert (Hl : length rest = (length (buffer s) - (idx + 2))%nat)
    by (subst rest; apply length_drop).
  destruct (on_frame frame (set_buffer rest s)) as [[] s2|e s2];
    cbn [final] in *; [|exact Hr].
  assert (Hlt : (length (buffer s2) < n)%nat) by (rewrite Hk; lia).
  exact (IH _ Hlt s2 eq_refl Hr).
Qed.

Lemma data_received_keeps (P : ClientHandler -> Prop) :
  (forall b s, P s -> P (set_buffer b s)) ->
  (forall s, P s -> P (set_transport (transport s ++ [Close]) s)) ->
  (forall frame s, P s -> P (final (on_frame frame s))) ->
  forall data s, P s -> P (final (data_received data s)).
Proof.
  intros Hbuf Hclose Hframe data s HP.
  unfold data_received, bind, catch, gets, modify, raise, ret, transport_close.
  assert (Hl : forall s0, P s0 -> P (final (frames_loop s0)))
    by (apply frames_loop_keeps; assumption).
  destruct (decode data) as [text|]; cbv beta iota.
  all: match goal with
       | |- context [frames_loop ?x] =>
         assert (Hx : P (final (frames_loop x))) by (apply Hl; auto);
         destruct (frames_loop x) as [[] s1|e s1]; cbv beta iota;
         [|exact Hx]
       end.
  all: destruct (buffer_limit <? N.of_nat (length (buffer s1)));
    cbv beta iota; cbn [final] in *; auto.
  all: apply (Hclose (set_buffer [] s1)); auto.
Qed.

Lemma deliver_keeps (P : ClientHandler -> Prop) :
  (forall b s, P s -> P (set_buffer b s)) ->
  (forall s, P s -> P (set_transport (transport s ++ [Close]) s)) ->
  (forall frame s, P s -> P (final (on_frame frame s))) ->
  forall chunks s, P s -> P (final (deliver chunks s)).
Proof.
  intros Hbuf Hclose Hframe chunks.
  induction chunks as [|data rest IH]; intros s HP; [exact HP|].
  cbn [deliver]. unfold bind.
  pose proof (data_received_keeps P Hbuf Hclose Hframe data s HP) as Hd.
  destruct (data_received data s) as [[] s1|e s1]; cbn [final] in *;
    [apply IH|]; exact Hd.
Qed.

(** *** The terminal state *)

Lemma dispatch_closed t message s :
  state s = STATE_CLOSE -> file s = None ->
  match dispatch t message s with
  | Ret true s' | Raise _ s' => resting s' = resting s
  | Ret false s' => fs s' = fs s
  end.
Proof.
  intros Hs Hf. unfold dispatch.
  destruct (pystr_eqb t (py "DH_KEY_EXCHANGE")).
  { assert (Hk : forall v, resting (final (get_key v s)) = resting s).
    { intros v. pose proof (get_key_stage v s) as Hst.
      pose proof (get_key_fs v s) as Hfs. unfold resting, stage in *.
      congruence. }
    destruct (dict_get (py "data") message) as [[| | | | | |data]|];
      try reflexivity.
    specialize (Hk (default JNull (dict_get (py "pub_key") data))).
    pose proof (get_key_never_false
                  (default JNull (dict_get (py "pub_key") data)) s) as Hnf.
    destruct (get_key _ s) as [[|] s'|e s']; cbn [final returned] in *;
      auto; congruence. }
  destruct (pystr_eqb t (py "OPEN"));
    [rewrite process_open_illegal by congruence; reflexivity|].
  destruct (pystr_eqb t (py "DATA"));
    [rewrite process_data_illegal by congruence; reflexivity|].
  destruct (pystr_eqb t (py "CLOSE")).
  { rewrite process_close_eq. unfold resting. cbn. congruence. }
  destruct (pystr_eqb t (py "NEGOTIATE"));
    [rewrite process_negotiate_illegal by congruence; reflexivity|].
  destruct (dict_get (py "type") message); reflexivity.
Qed.

Lemma on_frame_closed frame s :
  resting s = (STATE_CLOSE, None, fs s) ->
  resting (final (on_frame frame s)) = resting s.
Proof.
  intros Hr. unfold resting in Hr. injection Hr as Hs Hf.
  unfold on_frame.
  destruct (json_loads frame) as [[| | | | | |message]|]; try reflexivity.
  destruct (default (JStr []) (dict_get (py "type") message))
    as [| | | |t| |]; try reflexivity.
  unfold bind. pose proof (dispatch_closed (upper t) message s Hs Hf) as Hd.
  destruct (dispatch (upper t) message s) as [[|] s'|e s'];
    cbv [negb]; cbv beta iota; cbn [final]; auto.
  rewrite fail_closed_eq. unfold resting. cbn. congruence.
Qed.

(** The state CLOSE is terminal: once the state is CLOSE and the file
    object is released, no frame, chunk or sequence of chunks changes the
    state, opens a file or touches the file system, whatever the bytes
    are and whether or not a method raises. *)
Theorem closed_is_terminal s :
  state s = STATE_CLOSE -> file s = None ->
  (forall frame, resting (final (on_frame frame s)) = resting s)
  /\ (forall data, resting (final (data_received data s)) = resting s)
  /\ (forall chunks, resting (final (deliver chunks s)) = resting s).
Proof.
  intros Hs Hf.
  set (P := fun s' => resting s' = resting s).
  assert (Hbuf : forall b s', P s' -> P (set_buffer b s')) by (intros; assumption).
  assert (Hclose : forall s', P s' -> P (set_transport (transport s' ++ [Close]) s'))
    by (intros; assumption).
  assert (Hframe : forall frame s', P s' -> P (final (on_frame frame s'))).
  { intros frame s' HP. unfold P in *. rewrite <- HP. apply on_frame_closed.
    unfold resting in *. congruence. }
  split; [intros frame; apply (Hframe frame s); reflexivity|].
  split; intros x.
  - apply (data_received_keeps P Hbuf Hclose Hframe). reflexivity.
  - apply (deliver_keeps P Hbuf Hclose Hframe). reflexivity.
Qed.
End Runs.

(* ===================================================================== *)
(** ** What is written to the transport *)
(* ===================================================================== *)

Section Transport.
Context `{PyLib}.

(** A call on the transport as the handler makes them: a close, or the
    write of one JSON text followed by the separator. *)
Definition framed (e : event) : Prop :=
  e = Close \/ exists message, e = Write (json_dumps message ++ CRLF).

(** The transport log of [s'] is the log of [s] with framed calls added. *)
Definition extends (s s' : ClientHandler) : Prop :=
  exists evs, transport s' = transport s ++ evs /\ Forall framed evs.

Definition appends {A} (c : M A) : Prop := forall s, extends s (final (c s)).

Lemma extends_refl s : extends s s.
Proof. exists []. rewrite app_nil_r. split; [reflexivity | constructor]. Qed.

Lemma extends_trans s1 s2 s3 : extends s1 s2 -> extends s2 s3 -> extends s1 s3.
Proof.
  intros (e1 & H1 & F1) (e2 & H2 & F2). exists (e1 ++ e2).
  rewrite H2, H1, app_assoc. split; [reflexivity|].
  apply Forall_app. split; assumption.
Qed.

Lemma extends_same s s' : transport s' = transport s -> extends s s'.
Proof.
  intros Ht. exists []. rewrite app_nil_r. split; [exact Ht | constructor].
Qed.

Lemma appends_ret {A} (a : A) : appends (ret a).
Proof. intros s. apply extends_refl. Qed.

Lemma appends_raise {A} e : appends (@raise A e).
Proof. intros s. apply extends_refl. Qed.

Lemma appends_gets {Y} (f : ClientHandler -> Y) : appends (gets f).
Proof. intros s. apply extends_refl. Qed.

Lemma appends_modify f :
  (forall s, transport (f s) = transport s) -> appends (modify f).
Proof. intros Hf s. apply extends_same. apply Hf. Qed.

Lemma appends_send message : appends (_send message).
Proof.
  intros s. exists [Write (json_dumps message ++ CRLF)].
  split; [reflexivity|]. constructor; [|constructor]. right. eauto.
Qed.

Lemma appends_transport_close : appends transport_close.
Proof.
  intros s. exists [Close]. split; [reflexivity|].
  constructor; [|constructor]. left. reflexivity.
Qed.

Lemma appends_bind {A B} (c : M A) (k : A -> M B) :
  appends c -> (forall a, appends (k a)) -> appends (bind c k).
Proof.
  intros Hc Hk s. unfold bind. specialize (Hc s).
  destruct (c s) as [a s'|e s']; cbn [final] in *; [|exact Hc].
  exact (extends_trans _ _ _ Hc (Hk a s')).
Qed.

Lemma appends_catch {A} (c h : M A) :
  appends c -> appends h -> appends (catch c h).
Proof.
  intros Hc Hh s. unfold catch. specialize (Hc s).
  destruct (c s) as [a s'|e s']; cbn [final] in *; [exact Hc|].
  exact (extends_trans _ _ _ Hc (Hh s')).
Qed.

Ltac appends_with known :=
  repeat first
    [ known
    | apply appends_send | apply appends_transport_close
    | apply appends_ret | apply appends_raise | apply appends_gets
    | apply appends_modify; intros ?; reflexivity
    | apply appends_catch
    | apply appends_bind; [| intros ?]
    | case_match ].

Lemma appends_get_key v : appends (get_key v).
Proof. unfold get_key. appends_with fail. Qed.

Lemma appends_member name v : appends (member name v).
Proof. unfold member. appends_with fail. Qed.

Lemma appends_choose_algo c m h : appends (choose_algo c m h).
Proof. unfold choose_algo. appends_with ltac:(apply appends_member). Qed.

Lemma appends_process_negotiate m : appends (process_negotiate m).
Proof.
  unfold process_negotiate. appends_with ltac:(apply appends_choose_algo).
Qed.

Lemma appends_process_open m : appends (process_open m).
Proof. unfold process_open. appends_with fail. Qed.

Lemma appends_process_data m : appends (process_data m).
Proof. unfold process_data. appends_with fail. Qed.

Lemma appends_process_close m : appends (process_close m).
Proof. unfold process_close, close_file. appends_with fail. Qed.

Lemma appends_fail_closed : appends fail_closed.
Proof. unfold fail_closed, close_file. appends_with fail. Qed.

Lemma appends_dispatch t m : appends (dispatch t m).
Proof.
  unfold dispatch.
  appends_with ltac:(first
    [ apply appends_get_key | apply appends_process_open
    | apply appends_process_data | apply appends_process_close
    | apply appends_process_negotiate ]).
Qed.

Lemma appends_on_frame frame : appends (on_frame frame).
Proof.
  unfold on_frame.
  appends_with ltac:(first [apply appends_dispatch | apply appends_fail_closed]).
Qed.

(** After [connection_made], the handler only ever adds to what it has
    asked the transport to do, and each addition is a close or the write
    of one JSON text followed by the two-byte separator: this holds for
    every frame, chunk and sequence of chunks, also when a method
    raises. *)
Theorem transport_only_grows_by_frames :
  (forall frame s, extends s (final (on_frame frame s)))
  /\ (forall data s, extends s (final (data_received data s)))
  /\ (forall chunks s, extends s (final (deliver chunks s))).
Proof.
  assert (Hbuf : forall s0 b s, extends s0 s -> extends s0 (set_buffer b s))
    by (intros s0 b s Hs; exact Hs).
  assert (Hclose : forall s0 s, extends s0 s ->
                     extends s0 (set_transport (transport s ++ [Close]) s)).
  { intros s0 s Hs. apply (extends_trans _ _ _ Hs).
    apply (appends_transport_close s). }
  assert (Hframe : forall s0 frame s, extends s0 s ->
                     extends s0 (final (on_frame frame s))).
  { intros s0 frame s Hs. exact (extends_trans _ _ _ Hs (appends_on_frame frame s)). }
  split; [exact appends_on_frame|]. split.
  - intros data s.
    apply (data_received_keeps (extends s) (Hbuf s) (Hclose s) (Hframe s)).
    apply extends_refl.
  - intros chunks s.
    apply (deliver_keeps (extends s) (Hbuf s) (Hclose s) (Hframe s)).
    apply extends_refl.
Qed.
End Transport.

(* ===================================================================== *)
(** ** One DATA message *)
(* ===================================================================== *)

Section DataStep.
Context `{PyLib}.

(** The bytes a DATA message carries: the base64 text under ["data"],
    decoded; [None] when the key is missing, its value is no [str]
    ([null] included) or the text does not decode. *)
Definition data_payload (message : list (pystr * json)) : option (list byte) :=
  match dict_get (py "data") message with
  | Some (JStr text) => b64decode text
  | _ => None
  end.

Lemma process_data_eq message s :
  state s = STATE_OPEN \/ state s = STATE_DATA ->
  process_data message s =
  match data_payload message, file s with
  | Some payload, Some h =>
    match file_write (fs s) h payload with
    | Some disk' => Ret true (set_fs disk' (set_state STATE_DATA s))
    | None => Ret false (set_state STATE_DATA s)
    end
  | _, _ => Ret false (set_state STATE_DATA s)
  end.
Proof.
  intros Hst.
  assert (Hs : set_state STATE_DATA s = s \/ state s = STATE_OPEN).
  { destruct Hst as [Hs|Hs]; [right; exact Hs|].
    left. destruct s; cbn in *. subst. reflexivity. }
  cbv [process_data bind gets ret modify data_payload].
  destruct Hst as [Hst|Hst]; rewrite Hst; cbv beta iota; cbn [negb].
  - destruct (dict_get (py "data") message) as [[| | | |text| |]|];
      try reflexivity.
    destruct (b64decode text) as [payload|]; [|reflexivity].
    cbn [file fs set_state].
    destruct (file s) as [h|]; [|reflexivity].
    destruct (file_write (fs s) h payload); reflexivity.
  - destruct Hs as [Hs|Hs]; [|congruence]. rewrite Hs.
    destruct (dict_get (py "data") message) as [[| | | |text| |]|];
      try reflexivity.
    destruct (b64decode text) as [payload|]; [|reflexivity].
    destruct (file s) as [h|]; [|reflexivity].
    destruct (file_write (fs s) h payload); reflexivity.
Qed.

(** A DATA message in the state OPEN or DATA whose payload decodes and
    fits on the device: the bytes are appended to the open file, every
    other file and the directories are as before, the state is DATA, and
    nothing is written to the transport (a chunk is not acknowledged). *)
Theorem data_appended frame message t h payload s :
  json_loads frame = Some (JDict message) ->
  dict_get (py "type") message = Some (JStr t) ->
  upper t = py "DATA" ->
  state s = STATE_OPEN \/ state s = STATE_DATA ->
  file s = Some h ->
  data_payload message = Some payload ->
  (N.of_nat (length payload) <= fs_free (fs s))%N ->
  exists s',
    on_frame frame s = Ret tt s'
    /\ state s' = STATE_DATA /\ file s' = Some h
    /\ transport s' = transport s
    /\ fs_files (fs s') !! h
       = Some (default [] (fs_files (fs s) !! h) ++ payload)
    /\ (forall q, q <> h -> fs_files (fs s') !! q = fs_files (fs s) !! q)
    /\ fs_dirs (fs s') = fs_dirs (fs s)
    /\ fs_free (fs s') = (fs_free (fs s) - N.of_nat (length payload))%N.
Proof.
  intros Hj Ht Hu Hst Hf Hp Hfree.
  rewrite (on_frame_message _ _ _ _ Hj Ht), Hu, dispatch_DATA.
  rewrite (process_data_eq _ _ Hst), Hp, Hf.
  unfold file_write. apply N.leb_le in Hfree. rewrite Hfree.
  eexists. split; [reflexivity|].
  cbn [state file transport fs set_fs set_state fs_files fs_dirs fs_free].
  rewrite lookup_insert_eq.
  split; [reflexivity|]. split; [exact Hf|]. split; [reflexivity|].
  split; [reflexivity|]. split; [|split; reflexivity].
  intros q Hq. apply lookup_insert_ne. congruence.
Qed.

(** A DATA message in the state OPEN or DATA that carries no usable
    payload, or that finds no file object, takes the fatal path before
    anything is written: the ERROR frame is sent, the file object is
    released, the state is CLOSE, the transport is closed, and the file
    system is untouched, so what earlier chunks wrote stays on disk. *)
Theorem data_failure_fatal frame message t s :
  json_loads frame = Some (JDict message) ->
  dict_get (py "type") message = Some (JStr t) ->
  upper t = py "DATA" ->
  state s = STATE_OPEN \/ state s = STATE_DATA ->
  data_payload message = None \/ file s = None ->
  on_frame frame s = Ret tt (rejected s)
  /\ fs (rejected s) = fs s /\ file (rejected s) = None
  /\ state (rejected s) = STATE_CLOSE
  /\ transport (rejected s) = transport s ++ [error_frame; Close].
Proof.
  intros Hj Ht Hu Hst Hfail. split; [|repeat split].
  rewrite (on_frame_message _ _ _ _ Hj Ht), Hu, dispatch_DATA.
  rewrite (process_data_eq _ _ Hst).
  destruct Hfail as [-> | Hf].
  - reflexivity.
  - rewrite Hf. destruct (data_payload message); reflexivity.
Qed.
End DataStep.

(* ===================================================================== *)
(** ** One OPEN message *)
(* ===================================================================== *)

(** The block [if not os.path.exists("files"): os.mkdir("files")] of
    [process_open]: the file system afterwards, [None] when the directory
    cannot be created. *)
Definition ensure_files (disk : FS) : option FS :=
  if os_path_exists disk (py "files") then Some disk
  else os_mkdir disk (py "files").

Lemma ensure_files_keeps_files disk disk' :
  ensure_files disk = Some disk' ->
  fs_files disk' = fs_files disk /\ fs_free disk' = fs_free disk.
Proof.
  unfold ensure_files, os_mkdir.
  destruct (os_path_exists disk (py "files")); [intros [= <-]; auto|].
  destruct (resolve disk (py "files")) as [[d c]|]; [|discriminate].
  destruct (_ || _); [discriminate|]. intros [= <-]. auto.
Qed.

Lemma open_wb_files disk p disk' h :
  open_wb disk p = Some (disk', h) ->
  fs_files disk' = <[h := []]> (fs_files disk) /\ fs_dirs disk' = fs_dirs disk.
Proof.
  unfold open_wb. destruct (resolve disk p) as [[d c]|]; [|discriminate].
  destruct (_ || _); [discriminate|].
  destruct (fs_files disk !! (d ++ [c])).
  - intros [= <- <-]. auto.
  - destruct (bool_decide _); [discriminate|]. intros [= <- <-]. auto.
Qed.

Section OpenStep.
Context `{PyLib}.

(** The handler after a successful OPEN of [requested] that opened [h] on
    the file system [disk]. *)
Definition accepted_open (requested : pystr) (disk : FS) (h : path)
  (s : ClientHandler) : ClientHandler :=
  set_state STATE_OPEN
    (set_file_path (Some (os_path_join (storage_dir s) (sanitize requested)))
       (set_file_name (Some (sanitize requested))
          (set_transport
             (transport s
              ++ [Write (json_dumps (JDict [item "type" (JStr (py "OK"))])
                         ++ CRLF)])
             (set_file (Some h) (set_fs disk s))))).

Lemma process_open_eq message requested s :
  state s = STATE_CONNECT ->
  dict_get (py "file_name") message = Some (JStr requested) ->
  process_open message s =
  match ensure_files (fs s) with
  | None => Ret false s
  | Some disk1 =>
    match open_wb disk1 (os_path_join (storage_dir s) (sanitize requested)) with
    | None => Ret false (set_fs disk1 s)
    | Some (disk2, h) => Ret true (accepted_open requested disk2 h s)
    end
  end.
Proof.
  intros Hs Hm. cbv [process_open]. rewrite Hm.
  cbv [bind gets ret raise modify _send]. rewrite Hs. cbn [State_eqb negb].
  cbv beta iota. unfold ensure_files.
  destruct (os_path_exists (fs s) (py "files")); cbn [negb]; cbv beta iota.
  - destruct (open_wb (fs s) _) as [[disk2 h]|]; [reflexivity|].
    destruct s; reflexivity.
  - destruct (os_mkdir (fs s) (py "files")) as [disk1|]; [|reflexivity].
    cbn [negb]. cbv beta iota. cbn [fs set_fs].
    destruct (open_wb disk1 _) as [[disk2 h]|]; reflexivity.
Qed.

(** An OPEN message in the state CONNECT that names a file either
    succeeds, and then exactly one OK frame is written, the state is
    OPEN, the file object is held and the file is empty while every other
    file is as before; or it takes the fatal path, and then no OK frame is
    written and no file is created or changed.  An OPEN message without
    [file_name] takes the fatal path with the file system untouched. *)
Theorem open_outcomes frame message t s :
  json_loads frame = Some (JDict message) ->
  dict_get (py "type") message = Some (JStr t) ->
  upper t = py "OPEN" ->
  state s = STATE_CONNECT ->
  (dict_get (py "file_name") message = None ->
   on_frame frame s = Ret tt (rejected s))
  /\ (forall requested,
        dict_get (py "file_name") message = Some (JStr requested) ->
        (exists disk h,
            on_frame frame s = Ret tt (accepted_open requested disk h s)
            /\ fs_files disk = <[h := []]> (fs_files (fs s))
            /\ state (accepted_open requested disk h s) = STATE_OPEN
            /\ file (accepted_open requested disk h s) = Some h
            /\ file_name (accepted_open requested disk h s)
               = Some (sanitize requested))
        \/ (exists disk,
              on_frame frame s = Ret tt (rejected (set_fs disk s))
              /\ fs_files disk = fs_files (fs s)
              /\ transport (rejected (set_fs disk s))
                 = transport s ++ [error_frame; Close])).
Proof.
  intros Hj Ht Hu Hs. rewrite (on_frame_message _ _ _ _ Hj Ht), Hu, dispatch_OPEN.
  split.
  - intros Hm. cbv [process_open bind gets ret]. rewrite Hs, Hm. reflexivity.
  - intros requested Hm. rewrite (process_open_eq _ _ _ Hs Hm).
    destruct (ensure_files (fs s)) as [disk1|] eqn:He.
    + apply ensure_files_keeps_files in He as [He _].
      destruct (open_wb disk1 _) as [[disk2 h]|] eqn:Ho.
      * left. exists disk2, h. apply open_wb_files in Ho as [Ho _].
        rewrite Ho, He. split; [reflexivity|]. split; [reflexivity|].
        split; [reflexivity|]. split; reflexivity.
      * right. exists disk1. split; [reflexivity|]. split; [exact He|].
        reflexivity.
    + right. exists (fs s). split; [destruct s; reflexivity|].
      split; reflexivity.
Qed.
End OpenStep.

(* ===================================================================== *)
(** ** The file object while the device takes the writes *)
(* ===================================================================== *)

Section HandleKept.
Context `{PyLib}.

(** The device has room for the payload of [frame], when it carries
    one. *)
Definition writes_fit (frame : pystr) (s : ClientHandler) : Prop :=
  forall message payload,
    json_loads frame = Some (JDict message) ->
    data_payload message = Some payload ->
    (N.of_nat (length payload) <= fs_free (fs s))%N.

(** As long as the device takes what a DATA message carries, a file
    object is held exactly in the states OPEN and DATA.  On a handler for
    which this holds and a frame whose payload fits, it holds after
    [on_frame], whether it returns or raises; in the states OPEN and DATA
    there is a file object to write to, in CONNECT and CLOSE there is
    none; and it holds after [connection_made]. *)
Theorem handle_kept_while_writes_fit frame s :
  handle_inv s -> writes_fit frame s ->
  handle_inv (final (on_frame frame s))
  /\ (state s = STATE_OPEN \/ state s = STATE_DATA -> exists h, file s = Some h)
  /\ (state s = STATE_CONNECT \/ state s = STATE_CLOSE -> file s = None)
  /\ (forall fresh x root disk,
        handle_inv (final (connection_made fresh x (init root disk)))).
Proof.
  intros Hinv _. split; [|split; [|split]].
  - unfold on_frame.
    destruct (json_loads frame) as [[| | | | | |message]|]; try exact Hinv.
    destruct (default (JStr []) (dict_get (py "type") message))
      as [| | | |t| |]; try exact Hinv.
    unfold bind. pose proof (dispatch_inv (upper t) message s Hinv) as Hd.
    destruct (dispatch (upper t) message s) as [[|] s'|e s'];
      cbv [negb]; cbv beta iota; auto.
    rewrite fail_closed_eq. reflexivity.
  - unfold handle_inv, has_handle in Hinv.
    intros [Hs|Hs]; rewrite Hs in Hinv; destruct (file s); eauto; discriminate.
  - unfold handle_inv, has_handle in Hinv.
    intros [Hs|Hs]; rewrite Hs in Hinv; destruct (file s); auto; discriminate.
  - intros fresh x root disk. reflexivity.
Qed.
End HandleKept.

(* ===================================================================== *)
(** ** The handshake *)
(* ===================================================================== *)

Section HandshakeMessages.
Context `{PyLib}.

(** The two messages a new connection starts with. *)
Definition dh_init_message (params : DHParameters) : json :=
  JDict [item "type" (JStr (py "DH_INIT"));
         item "data" (JDict [item "p" (JInt (dh_p params));
                             item "g" (JInt (dh_g params))])].

Definition dh_key_message (pub : DHPublicKey) : json :=
  JDict [item "type" (JStr (py "DH_KEY_EXCHANGE"));
         item "data" (JDict [item "pub_key" (JStr (public_bytes_pem pub))])].

(** On a handler without parameters and private key, as [__init__] leaves
    it, [connection_made] returns; it has written the DH_INIT message with
    the modulus and the generator and then the DH_KEY_EXCHANGE message with
    the public key of the new private key, in this order and nothing else;
    the state is CONNECT and buffer, file object, derived key and file
    system are as before.  On a handler that already has both, it writes
    nothing and keeps them. *)
Theorem connection_made_announces fresh x s :
  parameters s = None -> private_key s = None ->
  let priv := {| priv_params := fresh; priv_x := x |} in
  exists s',
    connection_made fresh x s = Ret tt s'
    /\ transport s'
       = [Write (json_dumps (dh_init_message fresh) ++ CRLF);
          Write (json_dumps (dh_key_message (dh_public_key priv)) ++ CRLF)]
    /\ state s' = STATE_CONNECT
    /\ parameters s' = Some fresh
    /\ private_key s' = Some priv
    /\ public_key s' = Some (dh_public_key priv)
    /\ (buffer s', file s', key s', fs s') = (buffer s, file s, key s, fs s)
    /\ connection_made fresh x s'
       = Ret tt (set_state STATE_CONNECT (set_transport [] s')).
Proof.
  intros Hp Hk priv.
  cbv [connection_made diffie_hellman_init diffie_hellman_gen_Y bind gets
       ret raise modify _send].
  cbn [parameters private_key set_transport set_state set_parameters
       set_keypair].
  rewrite Hp. cbv beta iota. cbn [parameters private_key set_transport
    set_state set_parameters set_keypair transport].
  rewrite Hk. cbv beta iota. cbn [parameters private_key set_transport
    set_state set_parameters set_keypair transport].
  eexists. split; [reflexivity|].
  cbn [parameters private_key public_key set_transport set_state
       set_parameters set_keypair transport state buffer file key fs app].
  repeat (split; [reflexivity|]). reflexivity.
Qed.

(** A DH_KEY_EXCHANGE message whose key loads and derives is handled in
    silence: the derived key is stored, replacing any earlier one, nothing
    is written to the transport and nothing else changes. *)
Theorem key_exchange_stores_key frame message data pem pem_b peer priv
  shared derived s :
  json_loads frame = Some (JDict message) ->
  dict_get (py "type") message = Some (JStr (py "DH_KEY_EXCHANGE")) ->
  dict_get (py "data") message = Some (JDict data) ->
  dict_get (py "pub_key") data = Some (JStr pem) ->
  encode pem = Some pem_b ->
  load_pem_public_key pem_b = Some peer ->
  private_key s = Some priv ->
  dh_exchange priv peer = Some shared ->
  hkdf_derive (bytes_of "handshake data") shared = Some derived ->
  on_frame frame s = Ret tt (set_key (Some derived) s)
  /\ forall earlier,
      on_frame frame (set_key earlier s) = Ret tt (set_key (Some derived) s).
Proof.
  intros Hj Ht Hd Hp He Hl Hk Hx Hh.
  assert (Hall : forall s0, private_key s0 = Some priv ->
                   on_frame frame s0 = Ret tt (set_key (Some derived) s0)).
  { intros s0 Hk0. rewrite (on_frame_message _ _ _ _ Hj Ht).
    change (upper (py "DH_KEY_EXCHANGE")) with (py "DH_KEY_EXCHANGE").
    rewrite dispatch_DH, Hd, Hp. cbn [from_option id].
    rewrite get_key_eq, He, Hl, Hk0, Hx, Hh. reflexivity. }
  split; [apply Hall; exact Hk|].
  intros earlier. rewrite Hall by exact Hk. reflexivity.
Qed.
End HandshakeMessages.

(* ===================================================================== *)
(** ** Chunks: the ceiling, bytes that do not decode, exceptions *)
(* ===================================================================== *)

Section Chunks.
Context `{PyLib}.

(** [data_received] on a chunk that decodes to [text]. *)
Lemma data_received_eq data text s :
  decode data = Some text ->
  data_received data s =
  match frames_loop (set_buffer (buffer s ++ text) s) with
  | Ret _ s1 =>
    if buffer_limit <? N.of_nat (length (buffer s1)) then
      Ret tt (set_transport (transport s1 ++ [Close]) (set_buffer [] s1))
    else Ret tt s1
  | Raise e s1 => Raise e s1
  end.
Proof.
  intros Hd. unfold data_received, bind, catch, modify, gets, ret,
    transport_close. rewrite Hd.
  destruct (frames_loop _) as [[] s1|e s1]; [|reflexivity].
  destruct (buffer_limit <? _); reflexivity.
Qed.

(** The ceiling of the buffer is [4096 * 1024 * 1024] characters.  When
    the text received so far holds no separator and is longer than that,
    the buffer is emptied and the transport closed, and that is all: no
    error frame is written, and the state and the file object stay as
    they are. *)
Theorem buffer_ceiling_drops data text s :
  decode data = Some text ->
  find CRLF (buffer s ++ text) = None ->
  (buffer_limit < N.of_nat (length (buffer s ++ text)))%N ->
  buffer_limit = 4294967296%N
  /\ data_received data s
     = Ret tt (set_transport (transport s ++ [Close]) (set_buffer [] s))
  /\ (state (set_transport (transport s ++ [Close]) (set_buffer [] s)),
      file (set_transport (transport s ++ [Close]) (set_buffer [] s)))
     = (state s, file s).
Proof.
  intros Hd Hnone Hlim. split; [reflexivity|]. split; [|reflexivity].
  rewrite (data_received_eq _ _ _ Hd), frames_loop_step.
  cbn [buffer set_buffer]. rewrite Hnone. cbv beta iota.
  cbn [buffer set_buffer].
  apply N.ltb_lt in Hlim. rewrite Hlim. reflexivity.
Qed.

Lemma data_received_undecodable data s :
  decode data = None -> data_received data s = data_received [] s.
Proof.
  intros Hd. rewrite (data_received_eq [] [] s eq_refl).
  rewrite app_nil_r, set_buffer_same.
  unfold data_received, bind, catch, modify, gets, ret, raise,
    transport_close. rewrite Hd.
  destruct (frames_loop s) as [[] s1|e s1]; [|reflexivity].
  destruct (buffer_limit <? _); reflexivity.
Qed.

(** A chunk that is not valid UTF-8 on its own is treated like an empty
    chunk: its bytes are lost and no error is reported.  When the buffer
    holds no separator and is under the ceiling, the handler after such a
    chunk is the handler before it. *)
Theorem undecodable_chunk_ignored data s :
  decode data = None ->
  data_received data s = data_received [] s
  /\ (find CRLF (buffer s) = None ->
      (N.of_nat (length (buffer s)) <= buffer_limit)%N ->
      data_received data s = Ret tt s).
Proof.
  intros Hd. split; [exact (data_received_undecodable data s Hd)|].
  intros Hnone Hlim. rewrite (data_received_undecodable data s Hd).
  rewrite (data_received_eq [] [] s eq_refl).
  rewrite app_nil_r, set_buffer_same, frames_loop_step, Hnone.
  apply N.ltb_ge in Hlim. rewrite Hlim. reflexivity.
Qed.

(** When [data_received] returns, the buffer holds no separator (every
    complete frame has been handed to [on_frame]) and is not longer than
    the ceiling. *)
Theorem data_received_drains data s s' :
  data_received data s = Ret tt s' ->
  find CRLF (buffer s') = None
  /\ (N.of_nat (length (buffer s')) <= buffer_limit)%N.
Proof.
  assert (Hsome : forall chunk text,
             decode chunk = Some text ->
             data_received chunk s = Ret tt s' ->
             find CRLF (buffer s') = None
             /\ (N.of_nat (length (buffer s')) <= buffer_limit)%N).
  { intros chunk text Hd. rewrite (data_received_eq _ _ _ Hd).
    destruct (frames_loop _) as [[] s1|e s1] eqn:Hloop; [|discriminate].
    destruct (buffer_limit <? N.of_nat (length (buffer s1))) eqn:Hc;
      intros [= <-].
    - split; [reflexivity|]. cbn. unfold buffer_limit. lia.
    - split; [exact (frames_loop_drained _ _ Hloop)|].
      apply N.ltb_ge in Hc. exact Hc. }
  destruct (decode data) as [text|] eqn:Hd; [exact (Hsome data text Hd)|].
  rewrite (data_received_undecodable data s Hd).
  exact (Hsome [] [] eq_refl).
Qed.

(** When [on_frame] raises on the first frame of the buffer, the exception
    leaves [data_received]: the ceiling is not checked, the frame is gone
    from the buffer and the text after it stays there for the next
    chunk. *)
Theorem raising_frame_is_consumed data text f rest e s s1 :
  decode data = Some text ->
  buffer s ++ text = f ++ CRLF ++ rest ->
  find CRLF f = None ->
  on_frame (strip (f ++ CRLF)) s = Raise e s1 ->
  data_received data s = Raise e (set_buffer rest s1)
  /\ buffer (set_buffer rest s1) = rest.
Proof.
  intros Hd Hb Hf Hr. split; [|reflexivity].
  rewrite (data_received_eq _ _ _ Hd).
  rewrite (frames_loop_frame (set_buffer (buffer s ++ text) s) f rest Hb Hf).
  change (set_buffer rest (set_buffer (buffer s ++ text) s))
    with (set_buffer rest s).
  rewrite blind_on_frame, Hr. reflexivity.
Qed.
End Chunks.

(* ===================================================================== *)
(** ** Stored names *)
(* ===================================================================== *)

(** An ASCII letter, digit, underscore or dot. *)
Definition plain (c : N) : bool :=
  ((48 <=? c) && (c <=? 57)) || ((65 <=? c) && (c <=? 90))
  || ((97 <=? c) && (c <=? 122)) || (c =? 95) || (c =? 46).

Section StoredNames.
Context `{PyLib}.

Lemma plain_kept c : plain c = true -> kept c = true.
Proof.
  unfold plain, kept, is_word. intros Hp.
  destruct (c <? 128) eqn:Hc.
  - destruct (c =? 46); [apply orb_true_r|].
    rewrite orb_false_r in *. exact Hp.
  - apply N.ltb_ge in Hc. exfalso.
    repeat (apply orb_true_iff in Hp as [Hp|Hp]);
      try (apply andb_true_iff in Hp as [_ Hp]; apply N.leb_le in Hp; lia);
      apply N.eqb_eq in Hp; lia.
Qed.

Lemma sanitize_app x y : sanitize (x ++ y) = sanitize x ++ sanitize y.
Proof.
  unfold sanitize. induction x as [|c x IH]; [reflexivity|].
  cbn [app List.filter]. rewrite IH. destruct (kept c); reflexivity.
Qed.

(** The stored name of an upload.  A requested name made of ASCII
    letters, digits, underscores and dots is stored as it is; sanitizing
    a sanitized name changes nothing; and a character that is neither a
    word character nor a dot leaves no trace, so requested names that
    differ only in such characters are stored under the same name. *)
Theorem stored_name_properties :
  (forall x, forallb plain x = true -> sanitize x = x)
  /\ (forall x, sanitize (sanitize x) = sanitize x)
  /\ (forall x c y, kept c = false -> sanitize (x ++ c :: y) = sanitize (x ++ y))
  /\ (forall x, (length (sanitize x) <= length x)%nat).
Proof.
  split; [|split; [|split]].
  - induction x as [|c x IH]; [reflexivity|]. cbn [forallb].
    intros Hp. apply andb_true_iff in Hp as [Hc Hx].
    unfold sanitize in *. cbn [List.filter].
    rewrite (plain_kept c Hc), (IH Hx). reflexivity.
  - intros x. unfold sanitize. induction x as [|c x IH]; [reflexivity|].
    cbn [List.filter]. destruct (kept c) eqn:Hc; [|exact IH].
    cbn [List.filter]. rewrite Hc, IH. reflexivity.
  - intros x c y Hc. rewrite !sanitize_app. unfold sanitize at 2.
    cbn [List.filter]. rewrite Hc. reflexivity.
  - intros x. unfold sanitize. induction x as [|c x IH]; [cbn; lia|].
    cbn [List.filter]. destruct (kept c); cbn [length]; lia.
Qed.
End StoredNames.

(* ===================================================================== *)
(** ** [main]: the port check *)
(* ===================================================================== *)

(** What [parse_args] leaves in [args.port]: the default, the int 5000,
    when [-p] is absent; with [-p n] a list of one int, since the option
    is declared with [nargs=1]. *)
Inductive port_value := PortInt (p : Z) | PortList (l : list Z).

Definition parsed_port (given : option Z) : port_value :=
  match given with
  | None => PortInt 5000
  | Some n => PortList [n]
  end.

Inductive log_level := DEBUG | INFO.

(** How [main] ends: with one of its two error messages, with the call
    of [tcp_server] on what [args.port] holds, or with an exception. *)
Inductive main_result :=
| InvalidPort
| NeedsRoot
| Serves (port : port_value) (level : log_level) (storage : pystr)
| MainRaises (e : exn).

(** [port <= n], [port > n] and [port < n] for an int [n]: an int
    compares; ordering a list against an int raises TypeError, for which
    [None] stands. *)
Definition port_cmp (op : Z -> Z -> bool) (port : port_value) (n : Z)
  : option bool :=
  match port with
  | PortInt p => Some (op p n)
  | PortList _ => None
  end.

(** [main()] after [parse_args]: [verbose], [port] and [storage] are the
    attributes of [args], [euid] is [os.geteuid()]. *)
Definition main (verbose : Z) (port : port_value) (storage : pystr)
  (euid : Z) (disk : FS) : main_result :=
  let storage_dir := os_path_abspath disk storage in
  let level := if (0 <? verbose)%Z then DEBUG else INFO in
  (* if port <= 0 or port > 65535 *)
  match port_cmp Z.leb port 0 with
  | None => MainRaises TypeError
  | Some true => InvalidPort
  | Some false =>
    match port_cmp Z.gtb port 65535 with
    | None => MainRaises TypeError
    | Some true => InvalidPort
    | Some false =>
      (* if port < 1024 and not os.geteuid() == 0 *)
      match port_cmp Z.ltb port 1024 with
      | None => MainRaises TypeError
      | Some low =>
        if low && negb (euid =? 0)%Z then NeedsRoot
        else Serves port level storage_dir
      end
    end
  end.

Lemma render_absolute p : starts_with [slash] (render p) = true.
Proof.
  destruct p as [|c p]; cbn [render map concat app starts_with];
    rewrite N.eqb_refl; reflexivity.
Qed.

Lemma abspath_absolute fs p : starts_with [slash] (os_path_abspath fs p) = true.
Proof.
  unfold os_path_abspath. cbv zeta.
  destruct (_ && _); [cbn [starts_with]; rewrite N.eqb_refl; reflexivity|].
  apply render_absolute.
Qed.

(** The port check of [main].  An int port is served exactly when it lies
    in 1..65535 and is at least 1024 or the effective user is root; the
    storage root handed on is the absolute form of the [-d] argument, a
    text that starts with a slash, with two when the argument starts with
    exactly two.  Without [-p] the server serves port 5000 for every user.
    With [-p n] the value is a list, the first comparison raises TypeError
    and nothing is served, whatever [n] is. *)
Theorem main_port_check verbose storage euid disk :
  (forall p,
      main verbose (PortInt p) storage euid disk
      = if decide ((1 <= p <= 65535)%Z /\ ((1024 <= p)%Z \/ euid = 0%Z))
        then Serves (PortInt p) (if (0 <? verbose)%Z then DEBUG else INFO)
               (os_path_abspath disk storage)
        else if decide (1 <= p <= 65535)%Z then NeedsRoot else InvalidPort)
  /\ (forall port served level root,
        main verbose port storage euid disk = Serves served level root ->
        (exists p, port = PortInt p /\ served = PortInt p)
        /\ (level = DEBUG <-> (0 < verbose)%Z)
        /\ starts_with [slash] root = true
        /\ (starts_with [slash; slash] storage = true ->
            starts_with [slash; slash; slash] storage = false ->
            starts_with [slash; slash] root = true))
  /\ main verbose (parsed_port None) storage euid disk
     = Serves (PortInt 5000) (if (0 <? verbose)%Z then DEBUG else INFO)
         (os_path_abspath disk storage)
  /\ (forall n,
        main verbose (parsed_port (Some n)) storage euid disk
        = MainRaises TypeError).
Proof.
  split; [|split; [|split; [reflexivity | intros n; reflexivity]]].
  - intros p. unfold main, port_cmp. rewrite Z.gtb_ltb.
    destruct (p <=? 0)%Z eqn:E1; destruct (65535 <? p)%Z eqn:E2;
      destruct (p <? 1024)%Z eqn:E3; destruct (euid =? 0)%Z eqn:E4;
      cbn [orb andb negb];
      repeat match goal with
             | E : (_ <=? _)%Z = true |- _ => apply Z.leb_le in E
             | E : (_ <=? _)%Z = false |- _ => apply Z.leb_gt in E
             | E : (_ <? _)%Z = true |- _ => apply Z.ltb_lt in E
             | E : (_ <? _)%Z = false |- _ => apply Z.ltb_ge in E
             | E : (_ =? _)%Z = true |- _ => apply Z.eqb_eq in E
             | E : (_ =? _)%Z = false |- _ => apply Z.eqb_neq in E
             end;
      repeat case_decide; try reflexivity; exfalso; lia.
  - intros port served level root. unfold main, port_cmp.
    destruct port as [q|l]; [|discriminate].
    destruct (q <=? 0)%Z; [discriminate|].
    destruct (q >? 65535)%Z; [discriminate|].
    destruct (_ && _); [discriminate|].
    intros [= <- <- <-]. split; [eauto|]. split.
    { destruct (0 <? verbose)%Z eqn:E.
      - apply Z.ltb_lt in E. split; auto.
      - apply Z.ltb_ge in E. split; [discriminate | lia]. }
    split; [apply abspath_absolute|].
    intros H2 H3. unfold os_path_abspath. cbv zeta.
    rewrite H2, H3. cbn [andb negb].
    pose proof (render_absolute
                  (fold_left step_into (split_slash storage)
                     (if starts_with [slash] storage then [] else fs_cwd disk)))
      as Hr.
    destruct (render _) as [|c r]; [discriminate|].
    cbn [starts_with] in Hr |- *.
    rewrite N.eqb_refl. destruct (slash =? c); [reflexivity | discriminate].
Qed.

(* ===================================================================== *)
(** ** The derived key *)
(* ===================================================================== *)

(** The handler without [self.key]. *)
Definition forget_key (s : ClientHandler) : ClientHandler := set_key None s.

(** A method that does not read [self.key]: on two handlers that differ
    in the key only, it ends the same way (the same value returned or the
    same exception raised) with handlers that differ in the key only. *)
Definition key_free {A} (c : M A) : Prop :=
  forall s1 s2, forget_key s1 = forget_key s2 ->
    result_map forget_key (c s1) = result_map forget_key (c s2).

Section KeyUnused.
Context `{PyLib}.

Lemma free_ret {A} (a : A) : key_free (ret a).
Proof. intros s1 s2 Hs. cbn. rewrite Hs. reflexivity. Qed.

Lemma free_raise {A} e : key_free (@raise A e).
Proof. intros s1 s2 Hs. cbn. rewrite Hs. reflexivity. Qed.

Lemma result_map_inv {A} (r1 r2 : result A) :
  result_map forget_key r1 = result_map forget_key r2 ->
  (exists a s1 s2, r1 = Ret a s1 /\ r2 = Ret a s2
                   /\ forget_key s1 = forget_key s2)
  \/ (exists e s1 s2, r1 = Raise e s1 /\ r2 = Raise e s2
                      /\ forget_key s1 = forget_key s2).
Proof.
  destruct r1 as [a1 s1|e1 s1], r2 as [a2 s2|e2 s2]; cbn [result_map];
    intros Heq; try discriminate.
  - left. exists a1, s1, s2.
    assert (Ha : a1 = a2) by congruence.
    assert (Hs : forget_key s1 = forget_key s2) by congruence.
    subst a2. auto.
  - right. exists e1, s1, s2.
    assert (He : e1 = e2) by congruence.
    assert (Hs : forget_key s1 = forget_key s2) by congruence.
    subst e2. auto.
Qed.

Lemma free_bind {A B} (c : M A) (k : A -> M B) :
  key_free c -> (forall a, key_free (k a)) -> key_free (bind c k).
Proof.
  intros Hc Hk s1 s2 Hs. unfold bind.
  destruct (result_map_inv _ _ (Hc s1 s2 Hs))
    as [(a & t1 & t2 & -> & -> & Ht)|(e & t1 & t2 & -> & -> & Ht)].
  - apply Hk. exact Ht.
  - cbn. rewrite Ht. reflexivity.
Qed.

Lemma free_catch {A} (c h : M A) :
  key_free c -> key_free h -> key_free (catch c h).
Proof.
  intros Hc Hh s1 s2 Hs. unfold catch.
  destruct (result_map_inv _ _ (Hc s1 s2 Hs))
    as [(a & t1 & t2 & -> & -> & Ht)|(e & t1 & t2 & -> & -> & Ht)].
  - cbn. rewrite Ht. reflexivity.
  - apply Hh. exact Ht.
Qed.

Lemma free_gets {X} (attr : ClientHandler -> X) :
  (forall s, attr (forget_key s) = attr s) -> key_free (gets attr).
Proof.
  intros Ha s1 s2 Hs. unfold gets. cbn.
  rewrite <- (Ha s1), <- (Ha s2), Hs. reflexivity.
Qed.

Lemma free_modify f :
  (forall s, forget_key (f s) = forget_key (f (forget_key s))) ->
  key_free (modify f).
Proof.
  intros Hf s1 s2 Hs. unfold modify. cbn.
  rewrite (Hf s1), (Hf s2), Hs. reflexivity.
Qed.

Ltac free_with known :=
  repeat first
    [ known
    | apply free_ret | apply free_raise
    | apply free_gets; reflexivity
    | apply free_modify; reflexivity
    | apply free_catch
    | apply free_bind; [| intros ?]
    | case_match ].
Ltac free := free_with fail.

(** [get_key] assigns the key and reads the private key. *)
Lemma free_get_key v : key_free (get_key v).
Proof. unfold get_key. free. Qed.

Lemma free_member name v : key_free (member name v).
Proof. unfold member. free. Qed.

Lemma free_choose_algo c m h : key_free (choose_algo c m h).
Proof. unfold choose_algo. free_with ltac:(apply free_member). Qed.

Lemma free_send v : key_free (_send v).
Proof. unfold _send. free. Qed.

Lemma free_transport_close : key_free transport_close.
Proof. unfold transport_close. free. Qed.

Lemma free_close_file : key_free close_file.
Proof. unfold close_file. free. Qed.

Ltac free_prims :=
  first [ apply free_send | apply free_transport_close
        | apply free_close_file ].

Lemma free_process_negotiate m : key_free (process_negotiate m).
Proof.
  unfold process_negotiate.
  free_with ltac:(first [apply free_choose_algo | free_prims]).
Qed.

Lemma free_process_open m : key_free (process_open m).
Proof. unfold process_open. free_with free_prims. Qed.

Lemma free_process_data m : key_free (process_data m).
Proof. unfold process_data. free. Qed.

Lemma free_process_close m : key_free (process_close m).
Proof. unfold process_close. free_with free_prims. Qed.

Lemma free_fail_closed : key_free fail_closed.
Proof. unfold fail_closed. free_with free_prims. Qed.

Lemma free_dispatch t m : key_free (dispatch t m).
Proof.
  unfold dispatch.
  free_with ltac:(first
    [ apply free_get_key | apply free_process_open
    | apply free_process_data | apply free_process_close
    | apply free_process_negotiate ]).
Qed.

Lemma free_on_frame frame : key_free (on_frame frame).
Proof.
  unfold on_frame.
  free_with ltac:(first
    [ apply free_dispatch | apply free_fail_closed | free_prims ]).
Qed.

Lemma forget_key_buffer s1 s2 :
  forget_key s1 = forget_key s2 -> buffer s1 = buffer s2.
Proof. intros Hs. exact (f_equal buffer Hs). Qed.

Lemma free_frames_loop : key_free frames_loop.
Proof.
  intros s1.
  remember (length (buffer s1)) as n eqn:Hn. revert s1 Hn.
  induction n as [n IH] using lt_wf_ind. intros s1 Hn s2 Hs.
  pose proof (forget_key_buffer _ _ Hs) as Hb.
  rewrite (frames_loop_step s1), (frames_loop_step s2), <- Hb.
  destruct (find CRLF (buffer s1)) as [idx|] eqn:Hf;
    [|cbn; rewrite Hs; reflexivity].
  pose proof (find_bound _ _ _ Hf) as Hbound. cbn [length CRLF] in Hbound.
  set (frame := strip (take (idx + 2) (buffer s1))).
  set (rest := drop (idx + 2) (buffer s1)).
  assert (Hrest : forget_key (set_buffer rest s1)
                  = forget_key (set_buffer rest s2)).
  { change (set_buffer rest (forget_key s1) = set_buffer rest (forget_key s2)).
    rewrite Hs. reflexivity. }
  pose proof (on_frame_buffer frame (set_buffer rest s1)) as Hk.
  cbn [buffer set_buffer] in Hk.
  assert (Hl : length rest = (length (buffer s1) - (idx + 2))%nat)
    by (subst rest; apply length_drop).
  destruct (result_map_inv _ _ (free_on_frame frame _ _ Hrest))
    as [(a & t1 & t2 & E1 & E2 & Ht)|(e & t1 & t2 & E1 & E2 & Ht)];
    rewrite E1, E2; rewrite E1 in Hk; cbn [final] in Hk.
  - apply (IH (length (buffer t1))); [rewrite Hk; lia | reflexivity | exact Ht].
  - cbn. rewrite Ht. reflexivity.
Qed.

Lemma free_data_received data : key_free (data_received data).
Proof.
  unfold data_received.
  free_with ltac:(first [apply free_frames_loop | free_prims]).
Qed.

Lemma free_deliver chunks : key_free (deliver chunks).
Proof.
  induction chunks as [|data rest IH]; cbn [deliver].
  - apply free_ret.
  - apply free_bind; [apply free_data_received | intros ?; exact IH].
Qed.

(** What a connection does never depends on the derived key: from two
    handlers that differ in [self.key] only, the same chunks end the same
    way (returning, or raising the same exception), with the same state,
    file object, file system, transport log and buffer.  No method reads
    the key; the bytes of a DATA message are stored as they are
    decoded. *)
Theorem derived_key_never_read chunks k s :
  let r := deliver chunks s in
  let r' := deliver chunks (set_key k s) in
  result_map forget_key r' = result_map forget_key r
  /\ returned r' = returned r
  /\ (state (final r'), file (final r'), fs (final r'), transport (final r'),
      buffer (final r'))
     = (state (final r), file (final r), fs (final r), transport (final r),
        buffer (final r)).
Proof.
  intros r r'.
  assert (Hs : forget_key (set_key k s) = forget_key s) by reflexivity.
  pose proof (free_deliver chunks _ _ Hs) as Heq. fold r r' in Heq.
  split; [exact Heq|].
  destruct (result_map_inv _ _ Heq)
    as [(a & t1 & t2 & -> & -> & Ht)|(e & t1 & t2 & -> & -> & Ht)];
    cbn [returned final].
  all: split; [reflexivity|].
  all: rewrite (f_equal state Ht : state t1 = state t2),
         (f_equal file Ht : file t1 = file t2),
         (f_equal fs Ht : fs t1 = fs t2),
         (f_equal transport Ht : transport t1 = transport t2),
         (f_equal buffer Ht : buffer t1 = buffer t2); reflexivity.
Qed.
End KeyUnused.

(* ===================================================================== *)
(** ** Where a connection writes *)
(* ===================================================================== *)

(** A direct child of the directory [root]. *)
Definition child_of (root q : path) : Prop := exists name, q = root ++ [name].

(** Storage root, file object and file system of the handler. *)
Definition store (s : ClientHandler) : pystr * option path * FS :=
  (storage_dir s, file s, fs s).

(** Since the handler [s0]: the storage root is the same, the file object
    held is a direct child of [root], and every file that is no direct
    child of [root] is as it was. *)
Definition confined (root : path) (s0 s : ClientHandler) : Prop :=
  storage_dir s = storage_dir s0
  /\ (forall h, file s = Some h -> child_of root h)
  /\ (forall q, ~ child_of root q ->
                fs_files (fs s) !! q = fs_files (fs s0) !! q).

Section Confinement.
Context `{PyLib}.

Lemma get_key_store v : keeps store (get_key v).
Proof. unfold get_key. keeps_with fail. Qed.

Lemma member_store name v : keeps store (member name v).
Proof. unfold member. keeps_with fail. Qed.

Lemma choose_algo_store c m h : keeps store (choose_algo c m h).
Proof. unfold choose_algo. keeps_with ltac:(apply member_store). Qed.

Lemma send_store v : keeps store (_send v).
Proof. unfold _send. keeps_with fail. Qed.

Lemma process_negotiate_store m : keeps store (process_negotiate m).
Proof.
  unfold process_negotiate.
  keeps_with ltac:(first [apply choose_algo_store | apply send_store]).
Qed.

Lemma confined_store root s0 s s' :
  store s' = store s -> confined root s0 s -> confined root s0 s'.
Proof.
  unfold store, confined. intros [= Hd Hf Hfs] (Hdir & Hfile & Hfiles).
  rewrite Hd, Hf, Hfs. auto.
Qed.

Lemma confined_rejected root s0 s :
  confined root s0 s -> confined root s0 (rejected s).
Proof.
  intros (Hdir & Hfile & Hfiles). split; [exact Hdir|].
  split; [intros h; cbn; discriminate | exact Hfiles].
Qed.

Lemma process_open_confined root s0 message s :
  Forall normal_name root -> storage_dir s0 = render root ->
  confined root s0 s -> confined root s0 (final (process_open message s)).
Proof.
  intros Hroot Hr0 Hc. pose proof Hc as (Hdir & Hfile & Hfiles).
  destruct (State_eqb (state s) STATE_CONNECT) eqn:Hst.
  2:{ rewrite process_open_illegal; [exact Hc|].
      intros E. rewrite E in Hst. discriminate. }
  assert (Hs : state s = STATE_CONNECT)
    by (destruct (state s); try discriminate; reflexivity).
  destruct (dict_get (py "file_name") message) as [v|] eqn:Hm.
  2:{ cbv [process_open bind gets ret]. rewrite Hs, Hm. exact Hc. }
  destruct v as [| | | |requested| |];
    try (cbv [process_open bind gets ret raise]; rewrite Hs, Hm; exact Hc).
  rewrite (process_open_eq _ _ _ Hs Hm).
  destruct (ensure_files (fs s)) as [disk1|] eqn:He; [|exact Hc].
  apply ensure_files_keeps_files in He as [He _].
  destruct (open_wb disk1 _) as [[disk2 h]|] eqn:Ho; cbn [final].
  - pose proof (open_wb_files _ _ _ _ Ho) as [Hf2 _].
    apply open_wb_target in Ho as (d & c & Hres & -> & _).
    rewrite Hdir, Hr0 in Hres.
    apply resolve_join in Hres as [-> ->]; auto using sanitize_no_slash.
    split; [exact Hdir|]. split.
    + intros h [= <-]. eexists. reflexivity.
    + intros q Hq.
      change (fs (accepted_open requested disk2
                    (root ++ [sanitize requested]) s)) with disk2.
      rewrite Hf2, lookup_insert_ne, He; [apply Hfiles; exact Hq|].
      intros <-. apply Hq. eexists. reflexivity.
  - split; [exact Hdir|]. split; [exact Hfile|].
    intros q Hq. cbn [fs set_fs]. rewrite He. apply Hfiles. exact Hq.
Qed.

Lemma process_data_confined root s0 message s :
  confined root s0 s -> confined root s0 (final (process_data message s)).
Proof.
  intros Hc. pose proof Hc as (Hdir & Hfile & Hfiles).
  assert (Hd : confined root s0 (set_state STATE_DATA s)) by exact Hc.
  destruct (state s) eqn:Hst.
  1, 4: rewrite process_data_illegal by congruence; exact Hc.
  all: rewrite process_data_eq by auto.
  all: destruct (data_payload message) as [payload|]; [|exact Hd].
  all: destruct (file s) as [h|] eqn:Hf; [|exact Hd].
  all: unfold file_write.
  all: destruct (_ <=? _); [|exact Hd].
  all: cbn [final]; split; [exact Hdir|]; split;
    [intros h'; cbn [file set_fs set_state]; rewrite Hf; apply Hfile;
     exact Hf|].
  all: intros q Hq; cbn [fs set_fs fs_files].
  all: rewrite lookup_insert_ne; [apply Hfiles; exact Hq|].
  all: intros <-; apply Hq, Hfile; reflexivity.
Qed.

Lemma dispatch_confined root s0 t message s :
  Forall normal_name root -> storage_dir s0 = render root ->
  confined root s0 s -> confined root s0 (final (dispatch t message s)).
Proof.
  intros Hroot Hr0 Hc. unfold dispatch.
  destruct (pystr_eqb t (py "DH_KEY_EXCHANGE")).
  { destruct (dict_get (py "data") message) as [[| | | | | |data]|];
      try exact Hc.
    exact (confined_store _ _ _ _ (get_key_store _ s) Hc). }
  destruct (pystr_eqb t (py "OPEN"));
    [apply process_open_confined; assumption|].
  destruct (pystr_eqb t (py "DATA"));
    [apply process_data_confined; assumption|].
  destruct (pystr_eqb t (py "CLOSE")).
  { rewrite process_close_eq. destruct Hc as (Hdir & Hfile & Hfiles).
    split; [exact Hdir|]. split; [intros h; cbn; discriminate|exact Hfiles]. }
  destruct (pystr_eqb t (py "NEGOTIATE")).
  { exact (confined_store _ _ _ _ (process_negotiate_store _ s) Hc). }
  destruct (dict_get (py "type") message); exact Hc.
Qed.

Lemma on_frame_confined root s0 frame s :
  Forall normal_name root -> storage_dir s0 = render root ->
  confined root s0 s -> confined root s0 (final (on_frame frame s)).
Proof.
  intros Hroot Hr0 Hc. unfold on_frame.
  destruct (json_loads frame) as [[| | | | | |message]|]; try exact Hc.
  destruct (default (JStr []) (dict_get (py "type") message))
    as [| | | |t| |]; try exact Hc.
  unfold bind. pose proof (dispatch_confined root s0 (upper t) message s
                             Hroot Hr0 Hc) as Hd.
  destruct (dispatch (upper t) message s) as [[|] s'|e s'];
    cbv [negb]; cbv beta iota; cbn [final] in *; auto.
  rewrite fail_closed_eq. apply confined_rejected. exact Hd.
Qed.

(** A connection writes under its storage root only.  When the storage
    root is the directory [root] and no file object is held, as on every
    new connection, then whatever chunks arrive and however the run ends,
    every file that is no direct child of [root] has the content it had,
    or is still absent; and the file object held at the end, if any, is a
    direct child of [root]. *)
Theorem connection_confined root chunks s :
  Forall normal_name root -> storage_dir s = render root -> file s = None ->
  (forall q, ~ child_of root q ->
     fs_files (fs (final (deliver chunks s))) !! q = fs_files (fs s) !! q)
  /\ (forall h, file (final (deliver chunks s)) = Some h -> child_of root h).
Proof.
  intros Hroot Hdir Hfile.
  assert (Hc : confined root s (final (deliver chunks s))).
  { apply (deliver_keeps (confined root s)).
    - intros b s1 Hs1. exact Hs1.
    - intros s1 Hs1. exact Hs1.
    - intros frame s1 Hs1. apply on_frame_confined; assumption.
    - split; [reflexivity|]. split; [|reflexivity].
      intros h. rewrite Hfile. discriminate. }
  destruct Hc as (_ & Hh & Hq). split; assumption.
Qed.
End Confinement.

Lemma connection_confined_witness :
  fs_files (fs (final (deliver (H := RefLib.ref_lib)
                         [ascii_bytes upload_wire] connected)))
    !! [py "etc"; py "passwd"]
  = fs_files (fs connected) !! [py "etc"; py "passwd"].
Proof.
  refine (proj1 (connection_confined (H := RefLib.ref_lib)
                   [py "srv"; py "files"] [ascii_bytes upload_wire]
                   connected _ _ _)
            [py "etc"; py "passwd"] _).
  - repeat constructor; try discriminate; intros Hin; vm_compute in Hin;
      intuition discriminate.
  - vm_compute. reflexivity.
  - vm_compute. reflexivity.
  - intros [name Hn]. discriminate.
Defined.

(* ===================================================================== *)
(** ** More runs on the concrete machine *)
(* ===================================================================== *)

Lemma close_from_any_state_witness :
  on_frame (H := RefLib.ref_lib) close_frame opened = Ret tt (closed opened).
Proof.
  refine (proj1 (close_from_any_state (H := RefLib.ref_lib) close_frame
                   [item "type" (JStr (py "CLOSE"))] (py "CLOSE") opened
                   _ _ _)); reflexivity.
Defined.

Lemma unknown_type_rejected_witness :
  on_frame (H := RefLib.ref_lib) (js "{'type':'HELLO'}") opened
  = Ret tt (rejected (H := RefLib.ref_lib) opened).
Proof.
  refine (proj1 (unknown_type_rejected (H := RefLib.ref_lib)
                   (js "{'type':'HELLO'}")
                   [item "type" (JStr (py "HELLO"))] (py "HELLO") opened
                   _ _ _ _ _ _ _)); try reflexivity; discriminate.
Defined.

Lemma closed_is_terminal_witness :
  resting (final (on_frame (H := RefLib.ref_lib) open_frame (closed opened)))
  = resting (closed opened).
Proof.
  refine (proj1 (closed_is_terminal (H := RefLib.ref_lib) (closed opened)
                   _ _) open_frame); reflexivity.
Defined.

Lemma data_appended_witness :
  exists s',
    on_frame (H := RefLib.ref_lib) data_frame opened = Ret tt s'
    /\ state s' = STATE_DATA
    /\ file s' = Some [py "srv"; py "files"; py "a.txt"]
    /\ transport s' = transport opened
    /\ fs_files (fs s') !! [py "srv"; py "files"; py "a.txt"]
       = Some (default [] (fs_files (fs opened)
                           !! [py "srv"; py "files"; py "a.txt"])
               ++ bytes_of "hello")
    /\ (forall q, q <> [py "srv"; py "files"; py "a.txt"] ->
                  fs_files (fs s') !! q = fs_files (fs opened) !! q)
    /\ fs_dirs (fs s') = fs_dirs (fs opened)
    /\ fs_free (fs s')
       = (fs_free (fs opened) - N.of_nat (length (bytes_of "hello")))%N.
Proof.
  refine (data_appended (H := RefLib.ref_lib) data_frame
            [item "type" (JStr (py "DATA")); item "data" (JStr (py "aGVsbG8="))]
            (py "DATA") [py "srv"; py "files"; py "a.txt"] (bytes_of "hello")
            opened _ _ _ _ _ _ _); try reflexivity.
  - left. reflexivity.
  - apply N.leb_le. vm_compute. reflexivity.
Defined.

Lemma data_failure_fatal_witness :
  on_frame (H := RefLib.ref_lib) (js "{'type':'DATA','data':'a'}") opened
  = Ret tt (rejected (H := RefLib.ref_lib) opened)
  /\ on_frame (H := RefLib.ref_lib) data_frame (set_file None opened)
     = Ret tt (rejected (H := RefLib.ref_lib) (set_file None opened)).
Proof.
  split.
  - refine (proj1 (data_failure_fatal (H := RefLib.ref_lib)
                     (js "{'type':'DATA','data':'a'}")
                     [item "type" (JStr (py "DATA"));
                      item "data" (JStr (py "a"))]
                     (py "DATA") opened _ _ _ _ _)); try reflexivity.
    + left. reflexivity.
    + left. reflexivity.
  - refine (proj1 (data_failure_fatal (H := RefLib.ref_lib) data_frame
                     [item "type" (JStr (py "DATA"));
                      item "data" (JStr (py "aGVsbG8="))]
                     (py "DATA") (set_file None opened) _ _ _ _ _));
      try reflexivity.
    + left. reflexivity.
    + right. reflexivity.
Defined.

Lemma open_outcomes_witness :
  on_frame (H := RefLib.ref_lib) (js "{'type':'OPEN'}") connected
  = Ret tt (rejected (H := RefLib.ref_lib) connected).
Proof.
  refine (proj1 (open_outcomes (H := RefLib.ref_lib) (js "{'type':'OPEN'}")
                   [item "type" (JStr (py "OPEN"))] (py "OPEN") connected
                   _ _ _ _) _); reflexivity.
Defined.

Lemma connection_made_announces_witness :
  exists s',
    connection_made (H := RefLib.ref_lib) {| dh_p := 23; dh_g := 5 |} 6
      (init (py "/srv/files") disk) = Ret tt s'
    /\ transport s'
       = [Write (RefLib.dumps
                   (dh_init_message {| dh_p := 23; dh_g := 5 |}) ++ CRLF);
          Write (RefLib.dumps
                   (dh_key_message (H := RefLib.ref_lib)
                      (RefLib.public_of
                         {| priv_params := {| dh_p := 23; dh_g := 5 |};
                            priv_x := 6 |})) ++ CRLF)].
Proof.
  destruct (connection_made_announces (H := RefLib.ref_lib)
              {| dh_p := 23; dh_g := 5 |} 6 (init (py "/srv/files") disk)
              eq_refl eq_refl) as (s' & Hrun & Hlog & _).
  exists s'. split; [exact Hrun | exact Hlog].
Defined.

Lemma key_exchange_stores_key_witness :
  exists k,
    on_frame (H := RefLib.ref_lib) peer_key_frame connected
    = Ret tt (set_key (Some k) connected).
Proof.
  eexists.
  refine (proj1 (key_exchange_stores_key (H := RefLib.ref_lib) peer_key_frame
                   _ _ _ _ _ _ _ _ connected _ _ _ _ _ _ _ _ _)).
  - vm_compute. reflexivity.
  - reflexivity.
  - reflexivity.
  - reflexivity.
  - vm_compute. reflexivity.
  - vm_compute. reflexivity.
  - reflexivity.
  - vm_compute. reflexivity.
  - vm_compute. reflexivity.
Defined.

Lemma undecodable_chunk_ignored_witness :
  data_received (H := RefLib.ref_lib) [byte_of 255] connected
  = data_received (H := RefLib.ref_lib) [] connected.
Proof.
  refine (proj1 (undecodable_chunk_ignored (H := RefLib.ref_lib)
                   [byte_of 255] connected _)).
  reflexivity.
Defined.

Lemma data_received_drains_witness :
  find CRLF (buffer opened) = None
  /\ (N.of_nat (length (buffer opened)) <= buffer_limit)%N.
Proof.
  refine (data_received_drains (H := RefLib.ref_lib)
            (ascii_bytes (open_frame ++ CRLF)) connected opened _).
  vm_compute. reflexivity.
Defined.

Lemma raising_frame_is_consumed_witness :
  data_received (H := RefLib.ref_lib)
    (ascii_bytes (js "[1]" ++ CRLF ++ close_frame ++ CRLF)) connected
  = Raise AttributeError (set_buffer (close_frame ++ CRLF) connected).
Proof.
  refine (proj1 (raising_frame_is_consumed (H := RefLib.ref_lib)
                   (ascii_bytes (js "[1]" ++ CRLF ++ close_frame ++ CRLF))
                   (js "[1]" ++ CRLF ++ close_frame ++ CRLF)
                   (js "[1]") (close_frame ++ CRLF) AttributeError
                   connected connected _ _ _ _)).
  - vm_compute. reflexivity.
  - reflexivity.
  - reflexivity.
  - vm_compute. reflexivity.
Defined.

(** A buffer of [4096 * 1024 * 1024] characters without separator, one
    character before the ceiling is passed. *)
Definition full_buffer : pystr := repeat 97 (N.to_nat buffer_limit).

Lemma find_in_repeat n : find CRLF (repeat 97 n ++ [97]) = None.
Proof.
  induction n as [|n IH]; [reflexivity|].
  cbn [repeat app find]. change (starts_with CRLF (97 :: _)) with false.
  cbv beta iota. rewrite IH. reflexivity.
Qed.

Lemma buffer_ceiling_drops_witness :
  data_received (H := RefLib.ref_lib) [byte_of 97]
    (set_buffer full_buffer opened)
  = Ret tt (set_transport (transport (set_buffer full_buffer opened) ++ [Close])
              (set_buffer [] (set_buffer full_buffer opened))).
Proof.
  refine (proj1 (proj2 (buffer_ceiling_drops (H := RefLib.ref_lib)
                          [byte_of 97] [97] (set_buffer full_buffer opened)
                          _ _ _))).
  - reflexivity.
  - apply find_in_repeat.
  - cbn [buffer set_buffer]. unfold full_buffer.
    rewrite length_app, repeat_length. cbn [length]. lia.
Defined.

Lemma handle_kept_while_writes_fit_witness :
  handle_inv (final (on_frame (H := RefLib.ref_lib) data_frame opened)).
Proof.
  refine (proj1 (handle_kept_while_writes_fit (H := RefLib.ref_lib)
                   data_frame opened _ _)).
  - vm_compute. reflexivity.
  - intros message payload Hj Hp.
    vm_compute in Hj. injection Hj as <-.
    vm_compute in Hp. injection Hp as <-.
    apply N.leb_le. vm_compute. reflexivity.
Defined.
